(** * gtk-gnutella core: host cache, search queues, background tasks

    A shallow embedding of the three subsystems of the client core

    - [SQ]     search queues              (src/core/sq.c)
    - [BG]     background task scheduler  (bg.c)
    - [HCACHE] host caches                (src/core/hcache.c)

    together with the properties of their behaviour.

    Conventions.  C integers are [Z]; where the source relies on a
    conversion between signed and unsigned 32-bit values the wrap-around is
    written out with [to_guint].  A [g_assert] that fails, or a NULL pointer
    that is dereferenced, stops the program: such executions yield [Abort].
    Loops are unrolled by a fuel argument that the entry point supplies. *)

From Stdlib Require Import ZArith QArith Qround Lia Lqa Bool.
From stdpp Require Import base option list gmap.

Local Open Scope Z_scope.
#[local] Set Warnings "-clear-no-such-hyp".

(** ** Results of a run *)

Inductive result (A : Type) : Type :=
| Ok (a : A)
| Abort
| OutOfFuel.

Arguments Ok {A} a.
Arguments Abort {A}.
Arguments OutOfFuel {A}.

#[global] Instance result_ret : MRet result := fun _ a => Ok a.
#[global] Instance result_bind : MBind result := fun _ _ f r =>
  match r with
  | Ok a => f a
  | Abort => Abort
  | OutOfFuel => OutOfFuel
  end.

(** [g_assert(b)] *)
Definition g_assert (b : bool) : result unit :=
  if b then Ok tt else Abort.

(** Conversion of an [int] to a [guint] (32 bits). *)
Definition to_guint (z : Z) : Z := z mod 2 ^ 32.

(** Modelled from the spec: [delta_time(t1, t0)] of lib/tm.h, which is not
    part of the sources at hand: the signed difference "now - then" in
    seconds. *)
Definition delta_time (t1 t0 : Z) : Z := t1 - t0.

(* ====================================================================== *)
(** ** Search queues (src/core/sq.c) *)
(* ====================================================================== *)

Module SQ.

(** A message block ([pmsg_t]) is identified by its bytes, a query hash
    vector by its words. *)
Definition pmsg := list Z.
Definition query_hashvec := list Z.
Definition gnet_search_t := Z.

(** [smsg_t]: a search queue entry. *)
Record smsg := mk_smsg {
  mb : pmsg;
  shandle : gnet_search_t;
  qhv : option query_hashvec
}.

(** [struct smsg_info]: what a mutated message block carries. *)
Record smsg_info := mk_smsg_info {
  smi_search : Z;
  smi_id : Z;
  smi_node_id : Z
}.

Inductive node_peer_t := NODE_P_LEAF | NODE_P_NORMAL | NODE_P_ULTRA.

#[global] Instance node_peer_eq_dec : EqDecision node_peer_t.
Proof. solve_decision. Defined.

(** The part of [struct gnutella_node] that [sq_process] reads. *)
Record gnutella_node := mk_node {
  n_id : Z;
  n_has_outq : bool;            (* n->outq != NULL *)
  n_received : Z;               (* n->received *)
  n_query_hops_ok : bool;       (* node_query_hops_ok(n, 0) *)
  n_writable : bool;            (* NODE_IS_WRITABLE(n) *)
  n_tx_flow_control : bool      (* NODE_IN_TX_FLOW_CONTROL(n) *)
}.

(** [squeue_t] *)
Record squeue := mk_squeue {
  searches : list smsg;         (* head = most recently enqueued *)
  handles : gset Z;             (* keys of the "handles" hash table *)
  node : option gnutella_node;  (* None for the global queue *)
  count : Z;
  last_sent : Z;
  n_sent : Z;
  n_dropped : Z
}.

(** Global properties and the collaborators that [sq.c] calls. *)
Record sq_env := mk_sq_env {
  current_peermode : node_peer_t;
  search_queue_spacing : Z;
  search_queue_size : Z;
  up_connections : Z;
  node_ultra_count : Z;               (* connected ultrapeer peers *)
  search_query_allowed : Z -> bool;
  search_get_id : Z -> Z * Z          (* handle -> (id, search object) *)
}.

(** Modelled from the spec: [node_keep_missing()] of nodes.c, which is not
    part of the sources at hand: the number of connections that are still
    missing to reach the [up_connections] target, given the connected
    ultrapeer peers; it is never negative. *)
Definition node_keep_missing (env : sq_env) : Z :=
  Z.max 0 (up_connections env - node_ultra_count env).

(** What a queue hands over to, or takes back from, its collaborators. *)
Inductive sq_event :=
| Ev_dq_launch_local (sh : gnet_search_t) (m : pmsg) (q : query_hashvec)
| Ev_mq_putq (node_id : Z) (m : pmsg) (hook : option smsg_info)
| Ev_discard (m : pmsg) (q : option query_hashvec).

Definition is_dispatch (e : sq_event) : bool :=
  match e with
  | Ev_dq_launch_local _ _ _ | Ev_mq_putq _ _ _ => true
  | Ev_discard _ _ => false
  end.

Definition smsg_alloc (sh : gnet_search_t) (m : pmsg)
    (q : option query_hashvec) : smsg :=
  {| mb := m; shandle := sh; qhv := q |}.

(** [smsg_discard]: the message block and the hash vector are released. *)
Definition smsg_discard (sb : smsg) : sq_event := Ev_discard (mb sb) (qhv sb).

(** [smsg_mutate]: the block is cloned with a free hook. *)
Definition smsg_mutate (env : sq_env) (sb : smsg) (n : gnutella_node)
    : smsg_info :=
  let '(id, search) := search_get_id env (shandle sb) in
  {| smi_search := search; smi_id := id; smi_node_id := n_id n |}.

(** *** The "handles" hash table *)

Definition sqh_exists (sq : squeue) (sh : gnet_search_t) : bool :=
  bool_decide (sh ∈ handles sq).

Definition set_handles (sq : squeue) (h : gset Z) : squeue :=
  {| searches := searches sq; handles := h; node := node sq;
     count := count sq; last_sent := last_sent sq; n_sent := n_sent sq;
     n_dropped := n_dropped sq |}.

Definition sqh_put (sq : squeue) (sh : gnet_search_t) : result squeue :=
  _ ← g_assert (negb (sqh_exists sq sh));
  Ok (set_handles sq ({[sh]} ∪ handles sq)).

Definition sqh_remove (sq : squeue) (sh : gnet_search_t) : result squeue :=
  _ ← g_assert (bool_decide (sh ∈ handles sq));
  Ok (set_handles sq (handles sq ∖ {[sh]})).

(** *** The queue *)

Definition sq_make (n : option gnutella_node) (time_now : Z) : squeue :=
  {| searches := []; handles := ∅; node := n; count := 0;
     last_sent := time_now; n_sent := 0; n_dropped := 0 |}.

(** [sq_clear]: every entry is discarded, the list is freed and the count
    reset.  The "handles" table is not touched. *)
Definition sq_clear (sq : squeue) : squeue * list sq_event :=
  ({| searches := []; handles := handles sq; node := node sq;
      count := 0; last_sent := last_sent sq; n_sent := n_sent sq;
      n_dropped := n_dropped sq |},
   map smsg_discard (searches sq)).

(** One turn of the loop of [cap_queue]. *)
Definition cap_queue_body (sq : squeue) : result (squeue * sq_event) :=
  match last (searches sq) with
  | None => Abort                          (* item->data with item == NULL *)
  | Some sb =>
      let l := removelast (searches sq) in
      _ ← g_assert (bool_decide (0 < count sq));
      let sq1 :=
        {| searches := l; handles := handles sq; node := node sq;
           count := count sq - 1; last_sent := last_sent sq;
           n_sent := n_sent sq; n_dropped := n_dropped sq + 1 |} in
      sq2 ← sqh_remove sq1 (shandle sb);
      Ok (sq2, smsg_discard sb)
  end.

Fixpoint cap_queue_loop (fuel : nat) (size : Z) (sq : squeue)
    : result (squeue * list sq_event) :=
  if bool_decide (size < count sq) then
    match fuel with
    | O => OutOfFuel
    | S fuel' =>
        '(sq1, ev) ← cap_queue_body sq;
        '(sq2, evs) ← cap_queue_loop fuel' size sq1;
        Ok (sq2, ev :: evs)
    end
  else Ok (sq, []).

Definition cap_queue (env : sq_env) (sq : squeue)
    : result (squeue * list sq_event) :=
  cap_queue_loop (S (length (searches sq))) (search_queue_size env) sq.

Definition sq_puthere (env : sq_env) (sq : squeue) (sh : gnet_search_t)
    (m : pmsg) (q : option query_hashvec)
    : result (squeue * list sq_event) :=
  if sqh_exists sq sh then Ok (sq, [])     (* Search already in queue *)
  else
    let sb := smsg_alloc sh m q in
    sq1 ← sqh_put sq sh;
    let sq2 :=
      {| searches := sb :: searches sq1; handles := handles sq1;
         node := node sq1; count := count sq1 + 1;
         last_sent := last_sent sq1; n_sent := n_sent sq1;
         n_dropped := n_dropped sq1 |} in
    if bool_decide (search_queue_size env < count sq2)
    then cap_queue env sq2
    else Ok (sq2, []).

Definition sq_putq (env : sq_env) (sq : squeue) (sh : gnet_search_t)
    (m : pmsg) : result (squeue * list sq_event) :=
  sq_puthere env sq sh m None.

Definition sq_global_putq (env : sq_env) (global_sq : squeue)
    (sh : gnet_search_t) (m : pmsg) (q : query_hashvec)
    : result (squeue * list sq_event) :=
  sq_puthere env global_sq sh m (Some q).

(** The hand-over of the head entry in [sq_process]: to the dynamic query
    launcher for the global queue, to the message queue of the peer
    otherwise, unless the search vetoes it.  Yields the flag [sent]. *)
Definition sq_hand_over (env : sq_env) (n : option gnutella_node)
    (sb : smsg) (now : Z) : result (bool * list sq_event) :=
  match n with
  | None =>
      match qhv sb with
      | None => Abort                             (* g_assert(sb->qhv != NULL) *)
      | Some q => Ok (true, [Ev_dq_launch_local (shandle sb) (mb sb) q])
      end
  | Some n =>
      if search_query_allowed env (shandle sb) then
        _ ← g_assert (bool_decide (qhv sb = None));
        let hook :=
          if bool_decide (current_peermode env = NODE_P_LEAF)
          then Some (smsg_mutate env sb n) else None in
        Ok (true, [Ev_mq_putq (n_id n) (mb sb) hook])
      else Ok (false, [Ev_discard (mb sb) (qhv sb)])
  end.

(** The body of [sq_process] between the label [retry] and the final test:
    [inl] is a return, [inr] asks for another turn. *)
Definition sq_process_body (env : sq_env) (sq : squeue) (now : Z)
    : result (squeue * list sq_event + squeue * list sq_event) :=
  if bool_decide (count sq = 0) then Ok (inl (sq, []))
  else if bool_decide
            (delta_time now (last_sent sq) < search_queue_spacing env)
  then Ok (inl (sq, []))
  else
    let n := node sq in
    let blocked :=
      match n with
      | Some n =>
          bool_decide (n_received n = 0)
          || negb (n_query_hops_ok n)
          || negb (n_writable n)
          || n_tx_flow_control n
      | None =>
          negb (bool_decide (current_peermode env = NODE_P_ULTRA))
          || bool_decide (2 * up_connections env < node_keep_missing env * 3)
      end in
    if blocked then Ok (inl (sq, []))
    else
      match searches sq with
      | [] => Abort                               (* g_assert(sq->searches) *)
      | sb :: rest =>
          _ ← g_assert (bool_decide (0 < count sq));
          '(sent, evs) ← sq_hand_over env n sb now;
          let sq1 :=
            {| searches := searches sq; handles := handles sq;
               node := node sq; count := count sq - 1;
               last_sent := if (sent : bool) then now else last_sent sq;
               n_sent := if (sent : bool) then n_sent sq + 1 else n_sent sq;
               n_dropped := n_dropped sq |} in
          sq2 ← sqh_remove sq1 (shandle sb);
          let sq3 :=
            {| searches := rest; handles := handles sq2; node := node sq2;
               count := count sq2; last_sent := last_sent sq2;
               n_sent := n_sent sq2; n_dropped := n_dropped sq2 |} in
          Ok (if (sent : bool) then inl (sq3, evs) else inr (sq3, evs))
      end.

Fixpoint sq_process_loop (fuel : nat) (env : sq_env) (sq : squeue) (now : Z)
    : result (squeue * list sq_event) :=
  match fuel with
  | O => OutOfFuel
  | S fuel' =>
      r ← sq_process_body env sq now;
      match r with
      | inl done => Ok done
      | inr (sq1, evs) =>                          (* goto retry *)
          '(sq2, evs') ← sq_process_loop fuel' env sq1 now;
          Ok (sq2, evs ++ evs')
      end
  end.

(** [sq_process]: every turn that asks for another one has removed the head
    of the list, hence the fuel. *)
Definition sq_process (env : sq_env) (sq : squeue) (now : Z)
    : result (squeue * list sq_event) :=
  _ ← g_assert (match node sq with
                | None => true
                | Some n => n_has_outq n
                end);
  sq_process_loop (S (length (searches sq))) env sq now.

(** [sq_search_closed].  The scan walks the links of the list as it was on
    entry; [kept] holds the entries already passed and kept (latest first),
    so that unlinking the current one leaves [rev kept ++ next]. *)
Fixpoint sq_search_closed_loop (kept l : list smsg) (sq : squeue)
    (sh : gnet_search_t) : result (squeue * list sq_event) :=
  match l with
  | [] => Ok (sq, [])
  | sb :: next =>
      if bool_decide (shandle sb = sh) then
        _ ← g_assert (bool_decide (0 < count sq));
        let sq1 :=
          {| searches := rev kept ++ next; handles := handles sq;
             node := node sq; count := count sq - 1;
             last_sent := last_sent sq; n_sent := n_sent sq;
             n_dropped := n_dropped sq |} in
        sq2 ← sqh_remove sq1 (shandle sb);
        '(sq3, evs) ← sq_search_closed_loop kept next sq2 sh;
        Ok (sq3, smsg_discard sb :: evs)
      else sq_search_closed_loop (sb :: kept) next sq sh
  end.

Definition sq_search_closed (sq : squeue) (sh : gnet_search_t)
    : result (squeue * list sq_event) :=
  '(sq1, evs) ← sq_search_closed_loop [] (searches sq) sq sh;
  _ ← g_assert (negb (bool_decide (searches sq1 = []))
                || bool_decide (count sq1 = 0));
  Ok (sq1, evs).

(** [sq_set_peermode], acting on the global queue. *)
Definition sq_set_peermode (mode : node_peer_t) (global_sq : squeue)
    : squeue * list sq_event :=
  if bool_decide (mode = NODE_P_ULTRA) then (global_sq, [])
  else sq_clear global_sq.

Definition sq_init (time_now : Z) : squeue := sq_make None time_now.

End SQ.

(* ====================================================================== *)
(** ** Background tasks (bg.c) *)
(* ====================================================================== *)

(** [g_slist_remove(list, data)]: the first link that holds [data] goes. *)
Fixpoint g_slist_remove {A : Type} `{EqDecision A} (l : list A) (x : A)
    : list A :=
  match l with
  | [] => []
  | y :: l' => if decide (x = y) then l' else y :: g_slist_remove l' x
  end.

Module BG.

Definition MAX_LIFE : Z := 150000.       (* in useconds *)
Definition MIN_LIFE : Z := 40000.        (* min lifetime per task, in usecs *)
Definition DELTA_FACTOR : Z := 4.        (* max variations are 400% *)

Definition G_MAXINT : Z := 2 ^ 31 - 1.
Definition G_MININT : Z := - 2 ^ 31.

(** Arithmetic on [gint]: an overflow is undefined behaviour. *)
Definition gint (z : Z) : result Z :=
  if bool_decide (G_MININT ≤ z ≤ G_MAXINT) then Ok z else Abort.

(** *** Operating flags *)

Definition TASK_F_EXITED : Z := 0x00000001.
Definition TASK_F_SIGNAL : Z := 0x00000002.
Definition TASK_F_RUNNING : Z := 0x00000004.
Definition TASK_F_ZOMBIE : Z := 0x00000008.
Definition TASK_F_NOTICK : Z := 0x00000010.
Definition TASK_F_SLEEPING : Z := 0x00000020.
Definition TASK_F_RUNNABLE : Z := 0x00000040.
Definition TASK_F_DAEMON : Z := 0x80000000.

(** [(flags & f) != 0] *)
Definition has_flag (flags f : Z) : bool := negb (Z.land flags f =? 0).
(** [flags |= f] and [flags &= ~f] *)
Definition set_flag (flags f : Z) : Z := Z.lor flags f.
Definition clear_flag (flags f : Z) : Z := Z.ldiff flags f.

Inductive bgret_t := BGR_NEXT | BGR_DONE | BGR_MORE | BGR_ERROR.
Inductive bgstatus_t := BGS_OK | BGS_ERROR | BGS_KILLED.

#[global] Instance bgstatus_eq_dec : EqDecision bgstatus_t.
Proof. solve_decision. Defined.

Definition BT_MAGIC : Z := 0xbacc931d.

(** [struct bgtask].  The task name, the user context, the step vector and
    the callbacks are user data: of those only what the scheduler tests is
    kept ([stepcnt], whether a callback is installed).  The [gdouble]
    [tick_cost] is an exact rational. *)
Record bgtask := mk_bgtask {
  magic : Z;
  flags : Z;
  step : Z;
  seqno : Z;
  stepcnt : Z;
  wtime : Z;
  has_done_cb : bool;
  exitcode : Z;
  signal : Z;
  signals : list Z;
  ticks : Z;
  ticks_used : Z;
  prev_ticks : Z;
  elapsed : Z;
  tick_cost : Q;
  wq : list Z;
  has_item_free : bool;
  has_notify : bool
}.

(** What the scheduler calls in user code. *)
Inductive bg_event :=
| Ev_done_cb (h : Z) (status : bgstatus_t)
| Ev_uctx_free (h : Z)
| Ev_end_cb (h : Z) (item : Z)
| Ev_item_free (item : Z)
| Ev_notify (h : Z) (on : bool).

(** The scheduler: the task structures by address, the queues of task
    addresses, and the calls made so far (latest first). *)
Record sched := mk_sched {
  tasks : gmap Z bgtask;
  runq : list Z;
  sleepq : list Z;
  runcount : Z;
  dead_tasks : list Z;
  current_task : option Z;
  calls : list bg_event
}.

Definition with_flags (bt : bgtask) (f : Z) : bgtask :=
  {| magic := magic bt; flags := f; step := step bt; seqno := seqno bt;
     stepcnt := stepcnt bt; wtime := wtime bt; has_done_cb := has_done_cb bt;
     exitcode := exitcode bt; signal := signal bt; signals := signals bt;
     ticks := ticks bt; ticks_used := ticks_used bt;
     prev_ticks := prev_ticks bt; elapsed := elapsed bt;
     tick_cost := tick_cost bt; wq := wq bt;
     has_item_free := has_item_free bt; has_notify := has_notify bt |}.

Definition with_progress (bt : bgtask) (st sn : Z) (cost : Q) : bgtask :=
  {| magic := magic bt; flags := flags bt; step := st; seqno := sn;
     stepcnt := stepcnt bt; wtime := wtime bt; has_done_cb := has_done_cb bt;
     exitcode := exitcode bt; signal := signal bt; signals := signals bt;
     ticks := ticks bt; ticks_used := ticks_used bt;
     prev_ticks := prev_ticks bt; elapsed := elapsed bt;
     tick_cost := cost; wq := wq bt;
     has_item_free := has_item_free bt; has_notify := has_notify bt |}.

Definition with_exitcode (bt : bgtask) (code : Z) : bgtask :=
  {| magic := magic bt; flags := flags bt; step := step bt;
     seqno := seqno bt; stepcnt := stepcnt bt; wtime := wtime bt;
     has_done_cb := has_done_cb bt; exitcode := code; signal := signal bt;
     signals := signals bt; ticks := ticks bt; ticks_used := ticks_used bt;
     prev_ticks := prev_ticks bt; elapsed := elapsed bt;
     tick_cost := tick_cost bt; wq := wq bt;
     has_item_free := has_item_free bt; has_notify := has_notify bt |}.

Definition with_magic (bt : bgtask) (m : Z) : bgtask :=
  {| magic := m; flags := flags bt; step := step bt;
     seqno := seqno bt; stepcnt := stepcnt bt; wtime := wtime bt;
     has_done_cb := has_done_cb bt; exitcode := exitcode bt;
     signal := signal bt;
     signals := signals bt; ticks := ticks bt; ticks_used := ticks_used bt;
     prev_ticks := prev_ticks bt; elapsed := elapsed bt;
     tick_cost := tick_cost bt; wq := wq bt;
     has_item_free := has_item_free bt; has_notify := has_notify bt |}.

Definition with_wq (bt : bgtask) (q : list Z) : bgtask :=
  {| magic := magic bt; flags := flags bt; step := step bt;
     seqno := seqno bt; stepcnt := stepcnt bt; wtime := wtime bt;
     has_done_cb := has_done_cb bt; exitcode := exitcode bt;
     signal := signal bt;
     signals := signals bt; ticks := ticks bt; ticks_used := ticks_used bt;
     prev_ticks := prev_ticks bt; elapsed := elapsed bt;
     tick_cost := tick_cost bt; wq := q;
     has_item_free := has_item_free bt; has_notify := has_notify bt |}.

(** Access to the task structure at address [h]; a stray pointer aborts. *)
Definition get_task (s : sched) (h : Z) : result bgtask :=
  match tasks s !! h with
  | Some bt => Ok bt
  | None => Abort
  end.

Definition put_task (s : sched) (h : Z) (bt : bgtask) : sched :=
  {| tasks := <[h := bt]> (tasks s); runq := runq s; sleepq := sleepq s;
     runcount := runcount s; dead_tasks := dead_tasks s;
     current_task := current_task s; calls := calls s |}.

Definition call (s : sched) (e : bg_event) : sched :=
  {| tasks := tasks s; runq := runq s; sleepq := sleepq s;
     runcount := runcount s; dead_tasks := dead_tasks s;
     current_task := current_task s; calls := e :: calls s |}.

(** *** Run queue and sleep queue *)

Definition bg_sched_add (h : Z) (s : sched) : result sched :=
  bt ← get_task s h;
  _ ← g_assert (negb (has_flag (flags bt) TASK_F_RUNNABLE));
  let s1 := put_task s h (with_flags bt (set_flag (flags bt) TASK_F_RUNNABLE)) in
  Ok {| tasks := tasks s1; runq := runq s1 ++ [h]; sleepq := sleepq s1;
        runcount := runcount s1; dead_tasks := dead_tasks s1;
        current_task := current_task s1; calls := calls s1 |}.

Definition bg_sched_remove (h : Z) (s : sched) : result sched :=
  bt ← get_task s h;
  let s1 :=
    {| tasks := tasks s; runq := g_slist_remove (runq s) h;
       sleepq := sleepq s; runcount := runcount s;
       dead_tasks := dead_tasks s; current_task := current_task s;
       calls := calls s |} in
  Ok (put_task s1 h (with_flags bt (clear_flag (flags bt) TASK_F_RUNNABLE))).

Definition bg_sched_pick (s : sched) : option Z := head (runq s).

Definition bg_sched_sleep (h : Z) (s : sched) : result sched :=
  bt ← get_task s h;
  _ ← g_assert (negb (has_flag (flags bt) TASK_F_SLEEPING));
  _ ← g_assert (negb (has_flag (flags bt) TASK_F_RUNNING));
  _ ← g_assert (bool_decide (0 < runcount s));
  s1 ← bg_sched_remove h s;
  bt1 ← get_task s1 h;
  let s2 := put_task s1 h (with_flags bt1 (set_flag (flags bt1) TASK_F_SLEEPING)) in
  Ok {| tasks := tasks s2; runq := runq s2; sleepq := h :: sleepq s2;
        runcount := runcount s1 - 1; dead_tasks := dead_tasks s2;
        current_task := current_task s2; calls := calls s2 |}.

Definition bg_sched_wakeup (h : Z) (s : sched) : result sched :=
  bt ← get_task s h;
  _ ← g_assert (has_flag (flags bt) TASK_F_SLEEPING);
  _ ← g_assert (negb (has_flag (flags bt) TASK_F_RUNNING));
  let s1 := put_task s h (with_flags bt (clear_flag (flags bt) TASK_F_SLEEPING)) in
  bg_sched_add h
    {| tasks := tasks s1; runq := runq s1;
       sleepq := g_slist_remove (sleepq s1) h;
       runcount := runcount s1 + 1; dead_tasks := dead_tasks s1;
       current_task := current_task s1; calls := calls s1 |}.

(** *** Switching tasks *)

Definition with_stats (bt : bgtask) (el wt pt : Z) (cost : Q) : bgtask :=
  {| magic := magic bt; flags := flags bt; step := step bt;
     seqno := seqno bt; stepcnt := stepcnt bt; wtime := wt;
     has_done_cb := has_done_cb bt; exitcode := exitcode bt;
     signal := signal bt; signals := signals bt; ticks := ticks bt;
     ticks_used := ticks_used bt; prev_ticks := pt; elapsed := el;
     tick_cost := cost; wq := wq bt;
     has_item_free := has_item_free bt; has_notify := has_notify bt |}.

Definition with_ticks (bt : bgtask) (t : Z) : bgtask :=
  {| magic := magic bt; flags := flags bt; step := step bt;
     seqno := seqno bt; stepcnt := stepcnt bt; wtime := wtime bt;
     has_done_cb := has_done_cb bt; exitcode := exitcode bt;
     signal := signal bt; signals := signals bt; ticks := t;
     ticks_used := t; prev_ticks := prev_ticks bt; elapsed := elapsed bt;
     tick_cost := tick_cost bt; wq := wq bt;
     has_item_free := has_item_free bt; has_notify := has_notify bt |}.

Definition set_current (s : sched) (c : option Z) : sched :=
  {| tasks := tasks s; runq := runq s; sleepq := sleepq s;
     runcount := runcount s; dead_tasks := dead_tasks s;
     current_task := c; calls := calls s |}.

(** [bg_task_suspend]; [measured] is the time in usecs that the clock
    shows since the start of the slice. *)
Definition bg_task_suspend (h : Z) (measured : Z) (s : sched)
    : result sched :=
  bt ← get_task s h;
  _ ← g_assert (has_flag (flags bt) TASK_F_RUNNING);
  s1 ← bg_sched_add h s;
  bt1 ← get_task s1 h;
  let bt2 := with_flags bt1 (clear_flag (flags bt1) TASK_F_RUNNING) in
  el ← (if bool_decide (measured < 0) then
          if bool_decide (prev_ticks bt2 = 0) then Ok (elapsed bt2)
          else
            p ← gint (elapsed bt2 * ticks_used bt2);
            Ok (Z.quot p (prev_ticks bt2))
        else Ok measured);
  cost ← (if has_flag (flags bt2) TASK_F_NOTICK then Ok (tick_cost bt2)
          else
            _ ← g_assert (negb (bool_decide (ticks_used bt2 = 0)));
            Ok ((4 * tick_cost bt2
                 + inject_Z (Z.quot el (ticks_used bt2))) / 5)%Q);
  Ok (put_task s1 h
        (with_stats bt2 el (wtime bt2 + Z.quot (el + 500) 1000)
           (ticks_used bt2) cost)).

Definition bg_task_resume (h : Z) (s : sched) : result sched :=
  bt ← get_task s h;
  _ ← g_assert (negb (has_flag (flags bt) TASK_F_RUNNING));
  s1 ← bg_sched_remove h s;
  bt1 ← get_task s1 h;
  Ok (put_task s1 h (with_flags bt1 (set_flag (flags bt1) TASK_F_RUNNING))).

(** [bg_task_switch]: suspends the current task, resumes [bt] if any. *)
Definition bg_task_switch (bt : option Z) (measured : Z) (s : sched)
    : result sched :=
  _ ← match bt with
      | None => Ok tt
      | Some h =>
          t ← get_task s h;
          g_assert (negb (has_flag (flags t) TASK_F_RUNNING))
      end;
  s1 ← match current_task s with
       | Some old =>
           s' ← bg_task_suspend old measured s;
           Ok (set_current s' None)
       | None => Ok s
       end;
  match bt with
  | None => Ok s1
  | Some h =>
      s2 ← bg_task_resume h s1;
      Ok (set_current s2 (Some h))
  end.

(** *** Termination *)

(** Where control goes: on with the caller, or back to the scheduler by
    [longjmp(bt->env, 1)]. *)
Inductive control (A : Type) : Type :=
| Proceed (a : A)
| Longjmp (h : Z) (a : A).

Arguments Proceed {A} a.
Arguments Longjmp {A} h a.

(** The status that [bg_task_terminate] computes. *)
Definition bg_status (bt : bgtask) : bgstatus_t :=
  if has_flag (flags bt) TASK_F_SIGNAL then BGS_KILLED
  else if bool_decide (exitcode bt = 0) then BGS_OK
  else BGS_ERROR.

Definition bg_task_terminate (h : Z) (s : sched) : result (control sched) :=
  bt ← get_task s h;
  _ ← g_assert (negb (has_flag (flags bt) TASK_F_EXITED));
  if has_flag (flags bt) TASK_F_RUNNING then Ok (Longjmp h s)
  else
    s1 ← (if has_flag (flags bt) TASK_F_SLEEPING
          then bg_sched_wakeup h s else Ok s);
    bt1 ← get_task s1 h;
    let s2 :=
      put_task s1 h (with_flags bt1 (set_flag (flags bt1) TASK_F_EXITED)) in
    s3 ← bg_sched_remove h s2;
    let s4 :=
      {| tasks := tasks s3; runq := runq s3; sleepq := sleepq s3;
         runcount := runcount s3 - 1; dead_tasks := dead_tasks s3;
         current_task := current_task s3; calls := calls s3 |} in
    _ ← g_assert (bool_decide (0 ≤ runcount s4));
    bt4 ← get_task s4 h;
    let status := bg_status bt4 in
    let bt5 :=
      if negb (bool_decide (status = BGS_OK)) && negb (has_done_cb bt4)
      then with_flags bt4 (set_flag (flags bt4) TASK_F_ZOMBIE)
      else bt4 in
    let '(bt6, s5) :=
      if has_done_cb bt5
      then (with_flags bt5 (clear_flag (flags bt5) TASK_F_ZOMBIE),
            call s4 (Ev_done_cb h status))
      else (bt5, s4) in
    let s6 := call s5 (Ev_uctx_free h) in
    let s7 := put_task s6 h (with_magic bt6 0) in
    Ok (Proceed
          {| tasks := tasks s7; runq := runq s7; sleepq := sleepq s7;
             runcount := runcount s7; dead_tasks := h :: dead_tasks s7;
             current_task := current_task s7; calls := calls s7 |}).

(** [bg_task_ended] *)
Definition bg_task_ended (h : Z) (s : sched) : result (control sched) :=
  bt ← get_task s h;
  if negb (has_flag (flags bt) TASK_F_DAEMON) then bg_task_terminate h s
  else
    match wq bt with
    | [] => Abort                                 (* g_assert(bt->wq != NULL) *)
    | item :: _ =>
        let s1 := call s (Ev_end_cb h item) in
        let bt1 := with_wq bt (g_slist_remove (wq bt) item) in
        let s2 := if has_item_free bt1 then call s1 (Ev_item_free item)
                  else s1 in
        let bt2 := with_progress bt1 0 0 0%Q in
        let s3 := put_task s2 h bt2 in
        match wq bt2 with
        | [] =>
            s4 ← bg_sched_sleep h s3;
            Ok (Proceed (if has_notify bt2 then call s4 (Ev_notify h false)
                         else s4))
        | _ :: _ => Ok (Proceed s3)
        end
    end.

(** *** The scheduling timer *)

(** Conversion of a [gdouble] to [gint]: truncation. *)
Definition Qtrunc (q : Q) : Z := Z.quot (Qnum q) (Zpos (Qden q)).

(** [target = MAX(MIN_LIFE, MAX_LIFE / runcount)] *)
Definition bg_target (rc : Z) : Z := Z.max MIN_LIFE (Z.quot MAX_LIFE rc).

(** The clamp of the tick count against the previous one. *)
Definition bg_clamp_ticks (t0 prev : Z) : result Z :=
  if bool_decide (prev = 0) then Ok t0
  else
    lim ← gint (prev * DELTA_FACTOR);
    if bool_decide (lim < t0) then Ok lim
    else
      m ← gint (DELTA_FACTOR * t0);
      if bool_decide (m < prev) then Ok (Z.quot prev DELTA_FACTOR)
      else Ok t0.

(** How many ticks [bg_sched_timer] asks for the processing step. *)
Definition bg_sched_ticks (rc : Z) (bt : bgtask) : result Z :=
  let target := bg_target rc in
  if Qeq_bool (tick_cost bt) 0 then Ok 1
  else
    t0 ← gint (Qtrunc (1 + inject_Z target / tick_cost bt));
    t1 ← bg_clamp_ticks t0 (prev_ticks bt);
    _ ← g_assert (bool_decide (0 < t1));
    Ok t1.

(** The head of the loop body of [bg_sched_timer]: the task is picked and
    its ticks are set. *)
Definition bg_sched_grant (s : sched) : result (Z * sched) :=
  match bg_sched_pick s with
  | None => Abort                                 (* g_assert(bt) *)
  | Some h =>
      bt ← get_task s h;
      _ ← g_assert (has_flag (flags bt) TASK_F_RUNNABLE);
      let bt1 := with_flags bt (clear_flag (flags bt) TASK_F_NOTICK) in
      t ← bg_sched_ticks (runcount s) bt1;
      Ok (h, put_task s h (with_ticks bt1 t))
  end.

(** The analysis of the return code of the processing callback, at the end
    of the loop body of [bg_sched_timer]. *)
Definition bg_sched_analyse (ret : bgret_t) (h : Z) (s : sched)
    : result (control sched) :=
  bt ← get_task s h;
  match ret with
  | BGR_DONE => bg_task_ended h s
  | BGR_NEXT =>
      if bool_decide (step bt = stepcnt bt - 1) then bg_task_ended h s
      else Ok (Proceed (put_task s h (with_progress bt (step bt + 1) 0 0%Q)))
  | BGR_MORE =>
      Ok (Proceed
            (put_task s h (with_progress bt (step bt) (seqno bt + 1)
                             (tick_cost bt))))
  | BGR_ERROR =>
      bg_task_terminate h (put_task s h (with_exitcode bt (-1)))
  end.

(** *** Creating tasks, daemons and their work *)

(** [walloc0(sizeof(struct bgtask))]: a zeroed task structure. *)
Definition bgtask_zero : bgtask :=
  {| magic := 0; flags := 0; step := 0; seqno := 0; stepcnt := 0;
     wtime := 0; has_done_cb := false; exitcode := 0; signal := 0;
     signals := []; ticks := 0; ticks_used := 0; prev_ticks := 0;
     elapsed := 0; tick_cost := 0; wq := []; has_item_free := false;
     has_notify := false |}.

Definition with_runcount (s : sched) (rc : Z) : sched :=
  {| tasks := tasks s; runq := runq s; sleepq := sleepq s;
     runcount := rc; dead_tasks := dead_tasks s;
     current_task := current_task s; calls := calls s |}.

(** [bg_task_create]; [h] is the address that [walloc0] returns, [cnt] the
    number of steps and [done_cb] whether a completion callback is given. *)
Definition bg_task_create (h cnt : Z) (done_cb : bool) (s : sched)
    : result sched :=
  _ ← g_assert (bool_decide (0 < cnt));
  let bt :=
    {| magic := BT_MAGIC; flags := flags bgtask_zero; step := 0; seqno := 0;
       stepcnt := cnt; wtime := 0; has_done_cb := done_cb; exitcode := 0;
       signal := 0; signals := []; ticks := 0; ticks_used := 0;
       prev_ticks := 0; elapsed := 0; tick_cost := 0; wq := [];
       has_item_free := false; has_notify := false |} in
  s1 ← bg_sched_add h (put_task s h bt);
  Ok (with_runcount s1 (runcount s1 + 1)).

(** [bg_daemon_create]: the daemon starts asleep, with an empty work
    queue. *)
Definition bg_daemon_create (h cnt : Z) (item_free notify : bool)
    (s : sched) : result sched :=
  _ ← g_assert (bool_decide (0 < cnt));
  let bt :=
    {| magic := BT_MAGIC;
       flags := set_flag (flags bgtask_zero) TASK_F_DAEMON;
       step := 0; seqno := 0;
       stepcnt := cnt; wtime := 0; has_done_cb := false; exitcode := 0;
       signal := 0; signals := []; ticks := 0; ticks_used := 0;
       prev_ticks := 0; elapsed := 0; tick_cost := 0; wq := [];
       has_item_free := item_free; has_notify := notify |} in
  let s1 := put_task s h bt in
  bg_sched_sleep h (with_runcount s1 (runcount s1 + 1)).

(** [bg_daemon_enqueue]: the item goes to the tail of the work queue; a
    sleeping daemon is woken up. *)
Definition bg_daemon_enqueue (h item : Z) (s : sched) : result sched :=
  _ ← g_assert (negb (h =? 0));
  bt ← get_task s h;
  _ ← g_assert (bool_decide (magic bt = BT_MAGIC));
  _ ← g_assert (has_flag (flags bt) TASK_F_DAEMON);
  let bt1 := with_wq bt (wq bt ++ [item]) in
  let s1 := put_task s h bt1 in
  if has_flag (flags bt1) TASK_F_SLEEPING then
    s2 ← bg_sched_wakeup h s1;
    Ok (if has_notify bt1 then call s2 (Ev_notify h true) else s2)
  else Ok s1.

Definition with_ticks_used (bt : bgtask) (used : Z) : bgtask :=
  {| magic := magic bt; flags := flags bt; step := step bt;
     seqno := seqno bt; stepcnt := stepcnt bt; wtime := wtime bt;
     has_done_cb := has_done_cb bt; exitcode := exitcode bt;
     signal := signal bt; signals := signals bt; ticks := ticks bt;
     ticks_used := used; prev_ticks := prev_ticks bt; elapsed := elapsed bt;
     tick_cost := tick_cost bt; wq := wq bt;
     has_item_free := has_item_free bt; has_notify := has_notify bt |}.

(** [bg_task_ticks_used]: the running task tells how many of its ticks it
    used. *)
Definition bg_task_ticks_used (h used : Z) (s : sched) : result sched :=
  _ ← g_assert (negb (h =? 0));
  bt ← get_task s h;
  _ ← g_assert (bool_decide (magic bt = BT_MAGIC));
  _ ← g_assert (has_flag (flags bt) TASK_F_RUNNING);
  _ ← g_assert (bool_decide (0 ≤ used));
  _ ← g_assert (bool_decide (used ≤ ticks bt));
  let bt1 := with_ticks_used bt used in
  Ok (put_task s h
        (if bool_decide (used = 0)
         then with_flags bt1 (set_flag (flags bt1) TASK_F_NOTICK)
         else bt1)).

(** [bg_task_exit]: the exit code is recorded and control goes back to the
    scheduler. *)
Definition bg_task_exit (h code : Z) (s : sched) : result (control sched) :=
  _ ← g_assert (negb (h =? 0));
  bt ← get_task s h;
  _ ← g_assert (bool_decide (magic bt = BT_MAGIC));
  _ ← g_assert (has_flag (flags bt) TASK_F_RUNNING);
  Ok (Longjmp h (put_task s h (with_exitcode bt code))).

(** Where [bg_sched_timer] lands after a [longjmp] of the task it runs:
    the statistics of the slice are dropped, the task is suspended and
    terminated. *)
Definition bg_sched_caught (h measured : Z) (s : sched)
    : result (control sched) :=
  bt ← get_task s h;
  let s1 := put_task s h (with_flags bt (set_flag (flags bt) TASK_F_NOTICK)) in
  s2 ← bg_task_switch None measured s1;
  bg_task_terminate h s2.

(** [bg_task_free]: the pending items of the work queue are released with
    the routine of the daemon, if any, and the structure is freed. *)
Definition bg_task_free (h : Z) (s : sched) : result sched :=
  bt ← get_task s h;
  _ ← g_assert (negb (has_flag (flags bt) TASK_F_RUNNING));
  _ ← g_assert (has_flag (flags bt) TASK_F_EXITED);
  let s1 :=
    if has_item_free bt
    then foldl (λ s item, call s (Ev_item_free item)) s (wq bt)
    else s in
  Ok {| tasks := delete h (tasks s1); runq := runq s1; sleepq := sleepq s1;
        runcount := runcount s1; dead_tasks := dead_tasks s1;
        current_task := current_task s1; calls := calls s1 |}.

(** [bg_reclaim_dead] *)
Definition bg_reclaim_dead (s : sched) : result sched :=
  s1 ← foldl (λ r h, s ← r; bg_task_free h s) (Ok s) (dead_tasks s);
  Ok {| tasks := tasks s1; runq := runq s1; sleepq := sleepq s1;
        runcount := runcount s1; dead_tasks := [];
        current_task := current_task s1; calls := calls s1 |}.

End BG.

(* ====================================================================== *)
(** ** Host caches (src/core/hcache.c) *)
(* ====================================================================== *)

Module HCACHE.

Definition HOSTCACHE_EXPIRY : Z := 60 * 30.     (* 30 minutes *)
Definition MIN_RESERVE_SIZE : Z := 1024.

(** [hcache_type_t], without the markers [HCACHE_NONE] and [HCACHE_MAX],
    which the functions below rule out by assertion. *)
Inductive hcache_type_t :=
| HCACHE_FRESH_ANY
| HCACHE_VALID_ANY
| HCACHE_FRESH_ULTRA
| HCACHE_VALID_ULTRA
| HCACHE_TIMEOUT
| HCACHE_BUSY
| HCACHE_UNSTABLE
| HCACHE_ALIEN
| HCACHE_GUESS
| HCACHE_GUESS_INTRO.

Inductive hcache_class_t := HCACHE_CLASS_HOST | HCACHE_CLASS_GUESS.

Inductive host_type_t := HOST_ANY | HOST_ULTRA | HOST_GUESS.

(** The properties that report the population of the caches. *)
Inductive gnet_property_t :=
| PROP_HOSTS_IN_CATCHER
| PROP_HOSTS_IN_ULTRA_CATCHER
| PROP_HOSTS_IN_BAD_CATCHER
| PROP_HOSTS_IN_GUESS_CATCHER
| PROP_HOSTS_IN_GUESS_INTRO_CATCHER.

#[global] Instance hcache_type_eq_dec : EqDecision hcache_type_t.
Proof. solve_decision. Defined.
#[global] Instance hcache_class_eq_dec : EqDecision hcache_class_t.
Proof. solve_decision. Defined.
#[global] Instance host_type_eq_dec : EqDecision host_type_t.
Proof. solve_decision. Defined.
#[global] Instance gnet_property_eq_dec : EqDecision gnet_property_t.
Proof. solve_decision. Defined.

(** [gnet_host_t]: address and port. *)
Definition gnet_host : Type := Z * Z.

(** [hostcache_entry_t], the metadata of a host.  The table of known hosts
    never holds the [NO_METADATA] marker: [hcache_ht_add] is the only
    function that inserts, and it always allocates an entry. *)
Record hostcache_entry := mk_hce {
  hce_type : hcache_type_t;       (* hostcache which contains this host *)
  time_added : Z
}.

(** [hostcache_t].  [caches[type]->type] is [type] and the class is
    [hcache_class(type)] ever since [hcache_alloc]: a pointer to a host cache
    is represented by the type of the cache. *)
Record hostcache := mk_hostcache {
  addr_only : bool;
  dirty : bool;
  hostlist : list gnet_host;      (* head = most recently added *)
  hits : Z;
  misses : Z;
  hosts_in_catcher : gnet_property_t;
  mass_update : Z
}.

(** The settings and the collaborators of the host caches. *)
Record henv := mk_henv {
  stop_host_get : bool;
  node_monitor_unstable_ip : bool;
  max_hosts_cached : Z;
  max_ultra_hosts_cached : Z;
  max_bad_hosts_cached : Z;
  max_guess_hosts_cached : Z;
  max_guess_intro_hosts_cached : Z;
  use_netmasks : bool;
  number_local_networks : Z;
  is_my_address_and_port : Z → Z → bool;
  node_host_is_connected : Z → Z → bool;
  host_addr_is_routable : Z → bool;
  port_is_valid : Z → bool;
  bogons_check : Z → bool;
  hostiles_check : Z → bool;
  host_is_nearby : Z → bool;
  ctl_limit : Z → bool;                 (* ctl_limit(addr, CTL_D_CACHE) *)
  random_source : nat → Z               (* the values that random_u32() draws *)
}.

(** [struct hcache_new_host] *)
Record hcache_new_host := mk_new_host {
  nh_type : hcache_type_t;
  nh_addr : Z;
  nh_port : Z
}.

(** The state of the module. *)
Record hstate := mk_hstate {
  caches : hcache_type_t → hostcache;
  ht_known_hosts : gmap gnet_host hostcache_entry;
  ht_guess_hosts : gmap gnet_host hostcache_entry;
  hcache_close_running : bool;
  host_low_on_pongs : bool;
  stats_already_connected : Z;
  stats_invalid_host : Z;
  stats_local_instance : Z;
  catcher : gnet_property_t → Z;        (* values of the properties *)
  drawn : nat;                          (* calls of random_u32() so far *)
  woken : list hcache_new_host          (* wq_wakeup(hcache_add, ...), latest first *)
}.

(** A computation on the state: it returns a value and the next state,
    unless an assertion fails or the fuel of a loop runs out. *)
Definition M (A : Type) : Type := hstate → result (A * hstate).

Definition ret {A} (a : A) : M A := λ s, Ok (a, s).
Definition bind {A B} (m : M A) (f : A → M B) : M B := λ s,
  match m s with
  | Ok (a, s') => f a s'
  | Abort => Abort
  | OutOfFuel => OutOfFuel
  end.
Definition get : M hstate := λ s, Ok (s, s).
Definition put (s : hstate) : M unit := λ _, Ok (tt, s).
Definition modify (f : hstate → hstate) : M unit := λ s, Ok (tt, f s).
Definition assert (b : bool) : M unit := λ s,
  if b then Ok (tt, s) else Abort.

Notation "'do' x <- m ; k" := (bind m (λ x, k))
  (at level 10, x name, m at level 100, k at level 200,
   format "'[v' 'do'  x  <-  m ; '/' k ']'").
Notation "'run' m ; k" := (bind m (λ _, k))
  (at level 10, m at level 100, k at level 200,
   format "'[v' 'run'  m ; '/' k ']'").

Definition hcache_class (type : hcache_type_t) : hcache_class_t :=
  match type with
  | HCACHE_FRESH_ANY | HCACHE_VALID_ANY | HCACHE_FRESH_ULTRA
  | HCACHE_VALID_ULTRA | HCACHE_TIMEOUT | HCACHE_BUSY | HCACHE_UNSTABLE
  | HCACHE_ALIEN => HCACHE_CLASS_HOST
  | HCACHE_GUESS | HCACHE_GUESS_INTRO => HCACHE_CLASS_GUESS
  end.

(** *** Updates of the state *)

Definition upd_hostcache (hc : hostcache) (l : list gnet_host) (d : bool)
    (h m mu : Z) : hostcache :=
  {| addr_only := addr_only hc; dirty := d; hostlist := l; hits := h;
     misses := m; hosts_in_catcher := hosts_in_catcher hc;
     mass_update := mu |}.

Definition set_hostlist (hc : hostcache) (l : list gnet_host) : hostcache :=
  upd_hostcache hc l (dirty hc) (hits hc) (misses hc) (mass_update hc).
Definition set_dirty (hc : hostcache) (d : bool) : hostcache :=
  upd_hostcache hc (hostlist hc) d (hits hc) (misses hc) (mass_update hc).
Definition set_hits (hc : hostcache) (h : Z) : hostcache :=
  upd_hostcache hc (hostlist hc) (dirty hc) h (misses hc) (mass_update hc).
Definition set_misses (hc : hostcache) (m : Z) : hostcache :=
  upd_hostcache hc (hostlist hc) (dirty hc) (hits hc) m (mass_update hc).
Definition set_mass_update (hc : hostcache) (mu : Z) : hostcache :=
  upd_hostcache hc (hostlist hc) (dirty hc) (hits hc) (misses hc) mu.

Definition set_caches (s : hstate) (c : hcache_type_t → hostcache) : hstate :=
  {| caches := c; ht_known_hosts := ht_known_hosts s;
     ht_guess_hosts := ht_guess_hosts s;
     hcache_close_running := hcache_close_running s;
     host_low_on_pongs := host_low_on_pongs s;
     stats_already_connected := stats_already_connected s;
     stats_invalid_host := stats_invalid_host s;
     stats_local_instance := stats_local_instance s;
     catcher := catcher s; drawn := drawn s; woken := woken s |}.

(** [*caches[t] = hc] *)
Definition set_cache (s : hstate) (t : hcache_type_t) (hc : hostcache)
    : hstate :=
  set_caches s (λ t', if decide (t' = t) then hc else caches s t').

Definition hcache_ht_by_class (s : hstate) (class : hcache_class_t)
    : gmap gnet_host hostcache_entry :=
  match class with
  | HCACHE_CLASS_HOST => ht_known_hosts s
  | HCACHE_CLASS_GUESS => ht_guess_hosts s
  end.

Definition set_ht (s : hstate) (class : hcache_class_t)
    (m : gmap gnet_host hostcache_entry) : hstate :=
  {| caches := caches s;
     ht_known_hosts :=
       match class with
       | HCACHE_CLASS_HOST => m
       | HCACHE_CLASS_GUESS => ht_known_hosts s
       end;
     ht_guess_hosts :=
       match class with
       | HCACHE_CLASS_HOST => ht_guess_hosts s
       | HCACHE_CLASS_GUESS => m
       end;
     hcache_close_running := hcache_close_running s;
     host_low_on_pongs := host_low_on_pongs s;
     stats_already_connected := stats_already_connected s;
     stats_invalid_host := stats_invalid_host s;
     stats_local_instance := stats_local_instance s;
     catcher := catcher s; drawn := drawn s; woken := woken s |}.

Definition set_catcher (s : hstate) (p : gnet_property_t) (v : Z) : hstate :=
  {| caches := caches s; ht_known_hosts := ht_known_hosts s;
     ht_guess_hosts := ht_guess_hosts s;
     hcache_close_running := hcache_close_running s;
     host_low_on_pongs := host_low_on_pongs s;
     stats_already_connected := stats_already_connected s;
     stats_invalid_host := stats_invalid_host s;
     stats_local_instance := stats_local_instance s;
     catcher := λ p', if decide (p' = p) then v else catcher s p';
     drawn := drawn s; woken := woken s |}.

Definition set_misc (s : hstate) (low : bool) (sc si sl : Z) (d : nat)
    (w : list hcache_new_host) : hstate :=
  {| caches := caches s; ht_known_hosts := ht_known_hosts s;
     ht_guess_hosts := ht_guess_hosts s;
     hcache_close_running := hcache_close_running s;
     host_low_on_pongs := low;
     stats_already_connected := sc;
     stats_invalid_host := si;
     stats_local_instance := sl;
     catcher := catcher s; drawn := d; woken := w |}.

Definition set_low_on_pongs (s : hstate) (low : bool) : hstate :=
  set_misc s low (stats_already_connected s) (stats_invalid_host s)
    (stats_local_instance s) (drawn s) (woken s).

(** [gnet_prop_set_guint32_val(prop, v)] *)
Definition gnet_prop_set_guint32_val (p : gnet_property_t) (v : Z) : M unit :=
  modify (λ s, set_catcher s p (to_guint v)).

(** Modelled from the spec: the hash list of lib/hashlist.c, which is not
    among the sources, is the spec's ordered sequence of unique keys, newest
    at the head.  [hash_list_remove(list, key)] takes the key out. *)
Definition hash_list_remove (l : list gnet_host) (h : gnet_host)
    : list gnet_host := g_slist_remove l h.

(** [hash_list_next(list, key)]: the key that follows, if any. *)
Fixpoint hash_list_next (l : list gnet_host) (h : gnet_host)
    : option gnet_host :=
  match l with
  | [] => None
  | x :: l' => if decide (x = h) then head l' else hash_list_next l' h
  end.

Definition hash_list_length (s : hstate) (t : hcache_type_t) : Z :=
  Z.of_nat (length (hostlist (caches s t))).

(** [hcache_size] *)
Definition hcache_size (s : hstate) (type : host_type_t) : Z :=
  match type with
  | HOST_ANY =>
      hash_list_length s HCACHE_FRESH_ANY + hash_list_length s HCACHE_VALID_ANY
  | HOST_ULTRA =>
      hash_list_length s HCACHE_FRESH_ULTRA
      + hash_list_length s HCACHE_VALID_ULTRA
  | HOST_GUESS =>
      hash_list_length s HCACHE_GUESS + hash_list_length s HCACHE_GUESS_INTRO
  end.

Definition hcache_is_low (s : hstate) (type : host_type_t) : bool :=
  bool_decide (hcache_size s type < MIN_RESERVE_SIZE).

Definition update_cache (t : hcache_type_t) (f : hostcache → hostcache)
    : M unit :=
  modify (λ s, set_cache s t (f (caches s t))).

Definition start_mass_update (t : hcache_type_t) : M unit :=
  update_cache t (λ hc, set_mass_update hc (mass_update hc + 1)).

Definition stop_mass_update (t : hcache_type_t) : M unit :=
  do s <- get;
  run assert (bool_decide (0 < mass_update (caches s t)));
  run update_cache t (λ hc, set_mass_update hc (mass_update hc - 1));
  do s <- get;
  if bool_decide (mass_update (caches s t) = 0) then
    gnet_prop_set_guint32_val (hosts_in_catcher (caches s t))
      match t with
      | HCACHE_FRESH_ANY | HCACHE_VALID_ANY => hcache_size s HOST_ANY
      | HCACHE_FRESH_ULTRA | HCACHE_VALID_ULTRA => hcache_size s HOST_ULTRA
      | HCACHE_TIMEOUT | HCACHE_UNSTABLE | HCACHE_BUSY | HCACHE_ALIEN =>
          hash_list_length s HCACHE_TIMEOUT
          + hash_list_length s HCACHE_UNSTABLE
          + hash_list_length s HCACHE_BUSY
          + hash_list_length s HCACHE_ALIEN
      | HCACHE_GUESS | HCACHE_GUESS_INTRO => hash_list_length s t
      end
  else ret tt.

(** *** The tables of known hosts *)

Definition hcache_ht_get (class : hcache_class_t) (addr port : Z)
    : M (option (gnet_host * hostcache_entry)) :=
  do s <- get;
  ret (match hcache_ht_by_class s class !! (addr, port) with
       | Some e => Some ((addr, port), e)
       | None => None
       end).

Definition hcache_ht_add (type : hcache_type_t) (host : gnet_host)
    (tm_time : Z) : M hostcache_entry :=
  let hce := {| hce_type := type; time_added := tm_time |} in
  run modify (λ s, set_ht s (hcache_class type)
                     (<[host := hce]> (hcache_ht_by_class s (hcache_class type))));
  ret hce.

Definition hcache_ht_remove (class : hcache_class_t) (host : gnet_host)
    : M unit :=
  do s <- get;
  match hcache_ht_by_class s class !! host with
  | None => ret tt                      (* g_carp: attempt to remove unknown host *)
  | Some _ => put (set_ht s class (delete host (hcache_ht_by_class s class)))
  end.

Definition hcache_get_metadata (class : hcache_class_t) (host : gnet_host)
    : M (option hostcache_entry) :=
  do s <- get; ret (hcache_ht_by_class s class !! host).

Definition is_good_type (t : hcache_type_t) : bool :=
  match t with
  | HCACHE_FRESH_ANY | HCACHE_VALID_ANY | HCACHE_FRESH_ULTRA
  | HCACHE_VALID_ULTRA => true
  | _ => false
  end.

Definition is_bad_type (t : hcache_type_t) : bool :=
  match t with
  | HCACHE_TIMEOUT | HCACHE_BUSY | HCACHE_UNSTABLE | HCACHE_ALIEN => true
  | _ => false
  end.

(** [hcache_move_entries(to, from)]: the list changes hands, then the
    metadata of every moved host is pointed at the new cache. *)
Definition hcache_retype (class : hcache_class_t) (to : hcache_type_t)
    (s : hstate) (item : gnet_host) : hstate :=
  match hcache_ht_by_class s class !! item with
  | None => s
  | Some hce =>
      set_ht s class
        (<[item := {| hce_type := to; time_added := time_added hce |}]>
           (hcache_ht_by_class s class))
  end.

Definition hcache_move_entries (to from : hcache_type_t) : M unit :=
  do s <- get;
  run assert (bool_decide (hash_list_length s to = 0));
  run assert (bool_decide (hcache_class to = hcache_class from));
  let moved := hostlist (caches s from) in
  run update_cache to (λ hc, set_hostlist hc moved);
  run update_cache from (λ hc, set_hostlist hc []);
  do s <- get;
  put (foldl (hcache_retype (hcache_class from) to) s
         (hostlist (caches s to))).

(** [hcache_require_caught] *)
Definition hcache_require_caught (t : hcache_type_t) : M bool :=
  do s <- get;
  match t with
  | HCACHE_FRESH_ANY | HCACHE_VALID_ANY =>
      run (if bool_decide (hash_list_length s t = 0)
           then hcache_move_entries t HCACHE_VALID_ANY else ret tt);
      do s <- get; ret (negb (bool_decide (hash_list_length s t = 0)))
  | HCACHE_FRESH_ULTRA | HCACHE_VALID_ULTRA =>
      run (if bool_decide (hash_list_length s t = 0)
           then hcache_move_entries t HCACHE_VALID_ULTRA else ret tt);
      do s <- get; ret (negb (bool_decide (hash_list_length s t = 0)))
  | _ => ret (negb (bool_decide (hash_list_length s t = 0)))
  end.

(** [hcache_unlink_host]: remove a host from a host cache. *)
Definition hcache_unlink_host (t : hcache_type_t) (host : gnet_host)
    : M unit :=
  do s <- get;
  run assert (bool_decide (0 < hash_list_length s t));
  run assert (bool_decide (host ∈ hostlist (caches s t)));   (* orig_key *)
  run update_cache t (λ hc, set_hostlist hc (hash_list_remove (hostlist hc) host));
  do s <- get;
  run (if bool_decide (mass_update (caches s t) = 0)
       then gnet_prop_set_guint32_val (hosts_in_catcher (caches s t))
              (catcher s (hosts_in_catcher (caches s t)) - 1)
       else ret tt);
  run update_cache t (λ hc, set_dirty hc true);
  run hcache_ht_remove (hcache_class t) host;
  do s <- get;
  if hcache_close_running s then ret tt
  else run hcache_require_caught t; ret tt.

(** [hcache_remove]: the cache is the one that the metadata names. *)
Definition hcache_remove (class : hcache_class_t) (h : gnet_host) : M unit :=
  do hce <- hcache_get_metadata class h;
  match hce with
  | None => ret tt                      (* g_warning: attempt to remove unknown host *)
  | Some hce => hcache_unlink_host (hce_type hce) h
  end.

(** [hcache_node_is_bad]: whether the address is in one of the caches of
    bad hosts.  The lookup is made with the port 0. *)
Definition hcache_node_is_bad (addr : Z) : M bool :=
  do s <- get;
  if host_low_on_pongs s then ret false
  else
    do hce <- hcache_get_metadata HCACHE_CLASS_HOST (addr, 0);
    match hce with
    | None => ret false
    | Some hce =>
        run update_cache (hce_type hce) (λ hc, set_hits hc (hits hc + 1));
        ret (negb (is_good_type (hce_type hce)))
    end.

(** The loop of [hcache_remove_all]: the head of the list goes, as long as
    there is one. *)
Fixpoint hcache_remove_all_loop (fuel : nat) (t : hcache_type_t) : M unit :=
  do s <- get;
  match head (hostlist (caches s t)) with
  | None => ret tt
  | Some h =>
      match fuel with
      | O => λ _, OutOfFuel
      | S fuel' =>
          run hcache_remove (hcache_class t) h;
          hcache_remove_all_loop fuel' t
      end
  end.

(** [hcache_remove_all]: a turn of the loop either forgets a host of the
    table of the class or leaves the state as it is, hence the fuel. *)
Definition hcache_remove_all (t : hcache_type_t) : M unit :=
  do s <- get;
  if bool_decide (hash_list_length s t = 0) then ret tt
  else
    run start_mass_update t;
    run hcache_remove_all_loop
          (size (hcache_ht_by_class s (hcache_class t))) t;
    do s <- get;
    run assert (bool_decide (hash_list_length s t = 0));
    run stop_mass_update t;
    do s <- get;
    assert (bool_decide (hash_list_length s t = 0)).

(** [hcache_clear] *)
Definition hcache_clear (type : hcache_type_t) : M unit :=
  hcache_remove_all type.

(** The loop of [hcache_fill_caught_array] over the hosts that the
    iterator yields: a slot of the array is written with the host, or
    skipped ([None]) when the host was seen already. *)
Fixpoint hcache_fill_loop (iter : list gnet_host) (hcount : nat)
    (seen_host : gset gnet_host) : list (option gnet_host) :=
  match hcount with
  | O => []
  | S n =>
      match iter with
      | [] => []
      | h :: iter' =>
          if decide (h ∈ seen_host)
          then None :: hcache_fill_loop iter' n seen_host
          else Some h :: hcache_fill_loop iter' n ({[h]} ∪ seen_host)
      end
  end.

(** [hcache_fill_caught_array]: the amount returned and the slots of the
    array, in order.  The hosts stay in the cache. *)
Definition hcache_fill_caught_array (type : host_type_t) (hcount : Z)
    : M (Z * list (option gnet_host)) :=
  do s <- get;
  let hc :=
    match type with
    | HOST_ANY => HCACHE_FRESH_ANY
    | HOST_ULTRA => HCACHE_FRESH_ULTRA
    | HOST_GUESS =>
        if bool_decide (hash_list_length s HCACHE_GUESS = 0)
        then HCACHE_GUESS_INTRO else HCACHE_GUESS
    end in
  let slots :=
    hcache_fill_loop (hostlist (caches s hc)) (Z.to_nat hcount) ∅ in
  ret (Z.of_nat (length slots), slots).

Section WithEnv.
Context (env : henv).

(** [random_u32()] of lib/random.c, which is not among the sources: the next
    value of the source of 32-bit numbers that the environment gives. *)
Definition random_u32 : M Z := λ s,
  Ok (random_source env (drawn s) mod 2 ^ 32,
      set_misc s (host_low_on_pongs s) (stats_already_connected s)
        (stats_invalid_host s) (stats_local_instance s) (S (drawn s))
        (woken s)).

Definition hcache_update_low_on_pongs : M unit :=
  modify (λ s, set_low_on_pongs s
                 (bool_decide (hcache_size s HOST_ANY
                               < max_hosts_cached env / 8))).

(** *** Slots *)

Definition hcache_slots_max (type : hcache_type_t) : Z :=
  match type with
  | HCACHE_FRESH_ANY | HCACHE_VALID_ANY => max_hosts_cached env
  | HCACHE_FRESH_ULTRA | HCACHE_VALID_ULTRA => max_ultra_hosts_cached env
  | HCACHE_BUSY | HCACHE_TIMEOUT | HCACHE_UNSTABLE | HCACHE_ALIEN =>
      max_bad_hosts_cached env
  | HCACHE_GUESS => max_guess_hosts_cached env
  | HCACHE_GUESS_INTRO => max_guess_intro_hosts_cached env
  end.

(** [hcache_slots_left]: an [int], negative when the cache is over its
    limit. *)
Definition hcache_slots_left (s : hstate) (type : hcache_type_t) : Z :=
  let limit := hcache_slots_max type in
  let current :=
    match type with
    | HCACHE_FRESH_ANY | HCACHE_VALID_ANY => hcache_size s HOST_ANY
    | HCACHE_FRESH_ULTRA | HCACHE_VALID_ULTRA => hcache_size s HOST_ULTRA
    | _ => hash_list_length s type
    end in
  limit - current.

(** [hcache_request_slot]: [limit] and [left] are [guint] there. *)
Definition hcache_request_slot (type : hcache_type_t) : M bool :=
  do s <- get;
  let limit := to_guint (hcache_slots_max type) in
  let left := to_guint (hcache_slots_left s type) in
  if bool_decide (0 < limit) && bool_decide (0 < left) then
    if bool_decide (limit / 2 < left) then ret true
    else do r <- random_u32; ret (bool_decide (r mod limit < left))
  else ret false.

(** *** Pruning *)

(** The host that a turn of the loop of [hcache_prune] evicts. *)
Definition hcache_prune_victim (t : hcache_type_t) : M (option gnet_host) :=
  do guess_mru <-
    (if bool_decide (t = HCACHE_GUESS)
     then do r <- random_u32; ret (bool_decide (r mod 100 < 70))
     else ret false);
  do s <- get;
  let l := hostlist (caches s t) in
  ret (if (guess_mru : bool) then
         match head l with
         | None => None
         | Some h =>
             match hash_list_next l h with
             | Some h' => Some h'
             | None => head l
             end
         end
       else last l).

Fixpoint hcache_prune_loop (n : nat) (t : hcache_type_t) : M unit :=
  match n with
  | O => ret tt
  | S n' =>
      do h <- hcache_prune_victim t;
      match h with
      | None => ret tt                  (* g_carp: hostcache list is empty *)
      | Some h =>
          run hcache_remove (hcache_class t) h;
          hcache_prune_loop n' t
      end
  end.

(** The cache that [hcache_prune(type)] prunes: the longer half. *)
Definition half_prune (s : hstate) (type : hcache_type_t) : hcache_type_t :=
  let other :=
    match type with
    | HCACHE_VALID_ANY => Some HCACHE_FRESH_ANY
    | HCACHE_VALID_ULTRA => Some HCACHE_FRESH_ULTRA
    | HCACHE_FRESH_ANY => Some HCACHE_VALID_ANY
    | HCACHE_FRESH_ULTRA => Some HCACHE_VALID_ULTRA
    | _ => None
    end in
  match other with
  | Some x =>
      if bool_decide (hash_list_length s type < hash_list_length s x)
      then x else type
  | None => type
  end.

Definition hcache_prune (type : hcache_type_t) : M unit :=
  do s <- get;
  let hc := half_prune s type in
  let extra := hcache_slots_left s hc in
  if bool_decide (0 ≤ extra) then ret tt
  else
    run start_mass_update hc;
    run hcache_require_caught hc;
    run hcache_prune_loop (Z.to_nat (- extra)) hc;
    stop_mass_update hc.

(** *** Registering a host *)

(** The part of [hcache_add_internal] that deals with a host that the table
    of its class knows already, as [hce]. *)
Definition hcache_add_known (type : hcache_type_t) (added : Z)
    (host : gnet_host) (hce : hostcache_entry) : M bool :=
  run update_cache type (λ hc, set_hits hc (hits hc + 1));
  let move :=
    do s <- get;
    run assert (bool_decide (host ∈ hostlist (caches s (hce_type hce))));
    run update_cache (hce_type hce)
          (λ hc, set_hostlist hc (hash_list_remove (hostlist hc) host));
    run update_cache type (λ hc, set_hostlist hc (host :: hostlist hc));
    run update_cache type (λ hc, set_dirty hc true);
    run update_cache (hce_type hce) (λ hc, set_dirty hc true);
    run modify (λ s, set_ht s (hcache_class type)
                       (<[host := {| hce_type := type; time_added := added |}]>
                          (hcache_ht_by_class s (hcache_class type))));
    ret true in
  match type with
  | HCACHE_TIMEOUT | HCACHE_BUSY | HCACHE_UNSTABLE | HCACHE_ALIEN =>
      match hce_type hce with
      | HCACHE_TIMEOUT | HCACHE_BUSY | HCACHE_UNSTABLE | HCACHE_ALIEN =>
          ret true
      | _ => move
      end
  | HCACHE_VALID_ULTRA | HCACHE_FRESH_ULTRA =>
      match hce_type hce with
      | HCACHE_VALID_ANY | HCACHE_FRESH_ANY => move
      | _ => ret true
      end
  | HCACHE_GUESS | HCACHE_GUESS_INTRO =>
      run hcache_unlink_host (hce_type hce) host;
      ret true
  | _ => ret true
  end.

(** The part of [hcache_add_internal] that deals with a new host. *)
Definition hcache_add_new (type : hcache_type_t) (tm_time : Z)
    (addr port : Z) : M bool :=
  run modify (λ s, set_misc s (host_low_on_pongs s)
                     (stats_already_connected s) (stats_invalid_host s)
                     (stats_local_instance s) (drawn s)
                     ({| nh_type := type; nh_addr := addr; nh_port := port |}
                        :: woken s));
  do slot <- hcache_request_slot type;
  if negb slot then ret true
  else
    let host_atom := (addr, port) in
    run hcache_ht_add type host_atom tm_time;
    run update_cache type (λ hc, set_hostlist hc (host_atom :: hostlist hc));
    run update_cache type (λ hc, set_misses hc (misses hc + 1));
    run update_cache type (λ hc, set_dirty hc true);
    do s <- get;
    run (if bool_decide (mass_update (caches s type) = 0)
         then gnet_prop_set_guint32_val (hosts_in_catcher (caches s type))
                (catcher s (hosts_in_catcher (caches s type)) + 1)
         else ret tt);
    run hcache_prune type;
    run hcache_update_low_on_pongs;
    ret true.

(** [hcache_add_internal].  [tm_time] is the current time, which
    [hcache_ht_add] stamps on a new entry; [added] is stamped on an entry
    that moves. *)
Definition hcache_add_internal (type : hcache_type_t) (added tm_time : Z)
    (addr port : Z) : M bool :=
  do s <- get;
  if stop_host_get env then ret false
  else if bool_decide (type = HCACHE_UNSTABLE)
          && (negb (node_monitor_unstable_ip env) || host_low_on_pongs s)
  then ret false
  else if is_my_address_and_port env addr port then
    run modify (λ s, set_misc s (host_low_on_pongs s)
                       (stats_already_connected s) (stats_invalid_host s)
                       (stats_local_instance s + 1) (drawn s) (woken s));
    ret false
  else if is_good_type type && node_host_is_connected env addr port then
    run modify (λ s, set_misc s (host_low_on_pongs s)
                       (stats_already_connected s + 1) (stats_invalid_host s)
                       (stats_local_instance s) (drawn s) (woken s));
    ret false
  else
    let invalid :=
      modify (λ s, set_misc s (host_low_on_pongs s)
                     (stats_already_connected s) (stats_invalid_host s + 1)
                     (stats_local_instance s) (drawn s) (woken s)) in
    if negb (host_addr_is_routable env addr)
       && (negb (addr_only (caches s type)) || negb (port_is_valid env port))
    then run invalid; ret false
    else if bogons_check env addr || hostiles_check env addr
    then run invalid; ret false
    else
      do vetoed <-
        (if bool_decide (6346 ≤ port) && bool_decide (port ≤ 6350)
            && negb (host_low_on_pongs s)
         then do r <- random_u32; ret (bool_decide (31 < Z.land r 0xff))
         else ret false);
      if (vetoed : bool) then ret false
      else
        do known <- hcache_ht_get (hcache_class type) addr port;
        match known with
        | Some (host, hce) => hcache_add_known type added host hce
        | None => hcache_add_new type tm_time addr port
        end.

(** [hcache_add] *)
Definition hcache_add (type : hcache_type_t) (tm_time : Z) (addr port : Z)
    : M bool :=
  hcache_add_internal type tm_time tm_time addr port.

Definition hcache_add_caught (type : host_type_t) (tm_time : Z)
    (addr port : Z) : M bool :=
  if ctl_limit env addr then ret false
  else
    match type with
    | HOST_ANY => hcache_add HCACHE_FRESH_ANY tm_time addr port
    | HOST_ULTRA => hcache_add HCACHE_FRESH_ULTRA tm_time addr port
    | HOST_GUESS => hcache_add HCACHE_GUESS tm_time addr port
    end.

Definition hcache_add_valid (type : host_type_t) (tm_time : Z)
    (addr port : Z) : M bool :=
  if ctl_limit env addr then ret false
  else
    match type with
    | HOST_ANY => hcache_add HCACHE_VALID_ANY tm_time addr port
    | HOST_ULTRA => hcache_add HCACHE_VALID_ULTRA tm_time addr port
    | HOST_GUESS => hcache_add HCACHE_GUESS_INTRO tm_time addr port
    end.

(** [hcache_purge]: purge host from fresh/valid caches. *)
Definition hcache_purge (addr port : Z) : M unit :=
  do known <- hcache_ht_get HCACHE_CLASS_HOST addr port;
  match known with
  | Some (host, hce) =>
      if is_good_type (hce_type hce)
      then hcache_remove HCACHE_CLASS_HOST host
      else ret tt
  | None => ret tt
  end.

(** *** Expiry *)

(** The loop of [hcache_expire_cache]: the tail goes as long as it has
    expired.  Yields the number of hosts that went. *)
Fixpoint hcache_expire_cache_loop (fuel : nat) (t : hcache_type_t) (now : Z)
    : M Z :=
  do s <- get;
  match last (hostlist (caches s t)) with
  | None => ret 0
  | Some h =>
      do hce <- hcache_get_metadata (hcache_class t) h;
      match hce with
      | None => λ _, Abort                          (* g_assert(hce != NULL) *)
      | Some hce =>
          if bool_decide (HOSTCACHE_EXPIRY < delta_time now (time_added hce))
          then
            match fuel with
            | O => λ _, OutOfFuel
            | S fuel' =>
                run hcache_remove (hcache_class t) h;
                do n <- hcache_expire_cache_loop fuel' t now;
                ret (to_guint (n + 1))
            end
          else ret 0                    (* found one which has not expired *)
      end
  end.

(** [hcache_expire_cache]: a turn that goes on has removed the tail, hence
    the fuel. *)
Definition hcache_expire_cache (t : hcache_type_t) (now : Z) : M Z :=
  do s <- get;
  hcache_expire_cache_loop (length (hostlist (caches s t))) t now.

Definition hcache_expire_all (now : Z) : M Z :=
  do n1 <- hcache_expire_cache HCACHE_TIMEOUT now;
  do n2 <- hcache_expire_cache HCACHE_BUSY now;
  do n3 <- hcache_expire_cache HCACHE_UNSTABLE now;
  ret (to_guint (to_guint (n1 + n2) + n3)).

(** [hcache_timer], run every second; [now] is [tm_time()]. *)
Definition hcache_timer (now : Z) : M bool :=
  run hcache_expire_all now;
  ret true.

(** *** Getting a host *)

Definition fresh_of (type : host_type_t) : hcache_type_t :=
  match type with
  | HOST_ANY => HCACHE_FRESH_ANY
  | HOST_ULTRA => HCACHE_FRESH_ULTRA
  | HOST_GUESS => HCACHE_GUESS
  end.

(** [hcache_find_nearby] *)
Definition hcache_find_nearby (type : host_type_t) : M (option gnet_host) :=
  let hc := fresh_of type in
  do s <- get;
  match list_find (λ h : gnet_host, host_is_nearby env h.1 = true)
          (hostlist (caches s hc)) with
  | Some (_, h) => run hcache_unlink_host hc h; ret (Some h)
  | None => ret None
  end.

(** [hcache_get_caught]: [Some (addr, port)] for TRUE. *)
Definition hcache_get_caught (type : host_type_t) : M (option gnet_host) :=
  do s <- get;
  let hc :=
    match type with
    | HOST_GUESS =>
        if bool_decide (hash_list_length s HCACHE_GUESS = 0)
        then HCACHE_GUESS_INTRO else HCACHE_GUESS
    | _ => fresh_of type
    end in
  do available <- hcache_require_caught hc;
  run hcache_update_low_on_pongs;
  if negb available then ret None
  else
    do nearby <-
      (if use_netmasks env
          && negb (bool_decide (number_local_networks env = 0))
          && negb (bool_decide (type = HOST_GUESS))
       then hcache_find_nearby type
       else ret None);
    match nearby with
    | Some h => ret (Some h)
    | None =>
        do s <- get;
        match head (hostlist (caches s hc)) with
        | Some h => run hcache_unlink_host hc h; ret (Some h)
        | None => ret None
        end
    end.

End WithEnv.

(** *** Start *)

Definition hcache_alloc (catcher : gnet_property_t) (only_addr : bool)
    : hostcache :=
  {| addr_only := only_addr; dirty := false; hostlist := []; hits := 0;
     misses := 0; hosts_in_catcher := catcher; mass_update := 0 |}.

(** The state that [hcache_init] sets up. *)
Definition hcache_init : hstate :=
  {| caches := λ t,
       match t with
       | HCACHE_FRESH_ANY | HCACHE_VALID_ANY =>
           hcache_alloc PROP_HOSTS_IN_CATCHER false
       | HCACHE_FRESH_ULTRA | HCACHE_VALID_ULTRA =>
           hcache_alloc PROP_HOSTS_IN_ULTRA_CATCHER false
       | HCACHE_TIMEOUT | HCACHE_BUSY | HCACHE_UNSTABLE =>
           hcache_alloc PROP_HOSTS_IN_BAD_CATCHER true
       | HCACHE_ALIEN => hcache_alloc PROP_HOSTS_IN_BAD_CATCHER false
       | HCACHE_GUESS => hcache_alloc PROP_HOSTS_IN_GUESS_CATCHER false
       | HCACHE_GUESS_INTRO =>
           hcache_alloc PROP_HOSTS_IN_GUESS_INTRO_CATCHER false
       end;
     ht_known_hosts := ∅;
     ht_guess_hosts := ∅;
     hcache_close_running := false;
     host_low_on_pongs := false;
     stats_already_connected := 0;
     stats_invalid_host := 0;
     stats_local_instance := 0;
     catcher := λ _, 0;
     drawn := 0%nat;
     woken := [] |}.

End HCACHE.

(* ====================================================================== *)
(** * Properties *)
(* ====================================================================== *)

(** ** Search queues *)

Module SQProps.
Import SQ.

(** The handles of the entries that a queue holds. *)
Definition queued_handles (sq : squeue) : list Z := map shandle (searches sq).

(** What every operation of [sq.c] maintains: no search is queued twice,
    the handle of every queued entry is recorded, and [count] is the length
    of the list. *)
Record sq_inv (sq : squeue) : Prop := mk_sq_inv {
  inv_nodup : NoDup (queued_handles sq);
  inv_handles : ∀ sh, sh ∈ queued_handles sq → sh ∈ handles sq;
  inv_count : count sq = Z.of_nat (length (searches sq))
}.

(** The converse direction: every recorded handle has a queued entry. *)
Definition handles_exact (sq : squeue) : Prop :=
  ∀ sh, sh ∈ handles sq → sh ∈ queued_handles sq.

Lemma sq_make_inv n t : sq_inv (sq_make n t) ∧ handles_exact (sq_make n t).
Proof.
  split; [split|]; unfold queued_handles, handles_exact; simpl.
  - constructor.
  - intros sh H. by apply elem_of_nil in H.
  - reflexivity.
  - intros sh H. set_solver.
Qed.

Lemma g_assert_ok b : g_assert b = Ok tt ↔ b = true.
Proof. destruct b; simpl; split; congruence. Qed.

Lemma sqh_remove_ok sq sh :
  sh ∈ handles sq →
  sqh_remove sq sh = Ok (set_handles sq (handles sq ∖ {[sh]})).
Proof.
  intros H. unfold sqh_remove. rewrite bool_decide_eq_true_2; done.
Qed.

Lemma sq_clear_inv sq : sq_inv (sq_clear sq).1.
Proof.
  split; unfold queued_handles; simpl.
  - constructor.
  - intros sh H. by apply elem_of_nil in H.
  - reflexivity.
Qed.

(** *** [cap_queue] *)

Lemma cap_queue_body_inv sq sq' ev :
  sq_inv sq →
  cap_queue_body sq = Ok (sq', ev) →
  sq_inv sq'
  ∧ (∃ sb, searches sq = searches sq' ++ [sb] ∧ ev = smsg_discard sb
           ∧ handles sq' = handles sq ∖ {[shandle sb]})
  ∧ count sq' = count sq - 1
  ∧ n_dropped sq' = n_dropped sq + 1
  ∧ node sq' = node sq ∧ last_sent sq' = last_sent sq
  ∧ n_sent sq' = n_sent sq.
Proof.
  intros [Hnd Hh Hc] Hbody. unfold cap_queue_body in Hbody.
  destruct (last (searches sq)) as [sb|] eqn:Hlast; [|done].
  apply last_Some in Hlast as [l Hl].
  unfold queued_handles in *. rewrite Hl in *.
  rewrite removelast_last in Hbody.
  rewrite map_app in Hnd, Hh. simpl in Hnd, Hh.
  apply NoDup_app in Hnd as (Hnd1 & Hnd2 & _).
  destruct (bool_decide (0 < count sq)); simpl in Hbody; [|done].
  rewrite sqh_remove_ok in Hbody by (simpl; apply Hh; set_solver).
  simpl in Hbody. injection Hbody as <- <-. simpl.
  split; [split; simpl|].
  - done.
  - intros sh Hin. apply elem_of_difference. split.
    + apply Hh. set_solver.
    + intros ->%elem_of_singleton. apply (Hnd2 _ Hin). set_solver.
  - rewrite Hc, length_app. simpl. lia.
  - split; [by exists sb|]. done.
Qed.

Lemma cap_queue_loop_inv fuel size sq sq' evs :
  sq_inv sq →
  cap_queue_loop fuel size sq = Ok (sq', evs) →
  sq_inv sq' ∧ count sq' ≤ Z.max size (count sq) ∧ ¬ size < count sq'
  ∧ handles sq' ⊆ handles sq.
Proof.
  revert sq evs. induction fuel as [|fuel IH]; intros sq evs Hinv Hloop.
  - simpl in Hloop. case_bool_decide; [done|].
    injection Hloop as <- <-. split; [done|]. split; [lia|done].
  - simpl in Hloop. case_bool_decide as Hlt.
    + destruct (cap_queue_body sq) as [[sq1 ev]| |] eqn:Hbody; try done.
      simpl in Hloop.
      destruct (cap_queue_loop fuel size sq1) as [[sq2 evs2]| |] eqn:Hrec;
        try done.
      simpl in Hloop. injection Hloop as <- <-.
      apply cap_queue_body_inv in Hbody as (Hinv1 & (sb & _ & _ & Hh) & Hc & _);
        [|done].
      apply IH in Hrec as (Hinv2 & Hle & Hnlt & Hsub); [|done].
      split; [done|]. split; [lia|]. split; [done|]. set_solver.
    + injection Hloop as <- <-. split; [done|]. split; [lia|done].
Qed.

Lemma cap_queue_body_shrinks sq :
  match cap_queue_body sq with
  | Ok (sq1, _) => S (length (searches sq1)) = length (searches sq)
  | Abort => True
  | OutOfFuel => False
  end.
Proof.
  unfold cap_queue_body.
  destruct (last (searches sq)) as [sb|] eqn:Hlast; [|done].
  apply last_Some in Hlast as [l Hl].
  destruct (bool_decide (0 < count sq)); simpl; [|done].
  unfold sqh_remove. simpl.
  destruct (bool_decide (shandle sb ∈ handles sq)); simpl; [|done].
  rewrite Hl, removelast_last, length_app. simpl. lia.
Qed.

(** The fuel that [cap_queue] supplies is never exhausted: a turn either
    removes an entry or aborts on the empty list. *)
Lemma cap_queue_loop_fuel fuel size sq :
  (length (searches sq) < fuel)%nat →
  cap_queue_loop fuel size sq ≠ OutOfFuel.
Proof.
  revert sq. induction fuel as [|fuel IH]; intros sq Hlen; [lia|].
  simpl. case_bool_decide; [|done].
  pose proof (cap_queue_body_shrinks sq) as Hb.
  destruct (cap_queue_body sq) as [[sq1 ev]| |]; simpl; try done.
  specialize (IH sq1).
  destruct (cap_queue_loop fuel size sq1) as [[? ?]| |]; simpl; try done.
  intros _. apply IH; [lia|done].
Qed.

(** Under the invariant [cap_queue] returns, and keeps exactly the
    [search_queue_size] most recent entries. *)
Lemma cap_queue_loop_spec fuel size sq :
  sq_inv sq → 0 ≤ size → (length (searches sq) < fuel)%nat →
  ∃ sq' evs,
    cap_queue_loop fuel size sq = Ok (sq', evs)
    ∧ sq_inv sq'
    ∧ searches sq' = take (Z.to_nat size) (searches sq)
    ∧ n_dropped sq' = n_dropped sq + (count sq - count sq')
    ∧ length evs = (length (searches sq) - length (searches sq'))%nat.
Proof.
  revert sq. induction fuel as [|fuel IH]; intros sq Hinv Hsz Hlen; [lia|].
  simpl. case_bool_decide as Hlt.
  - pose proof (inv_count _ Hinv) as Hc.
    destruct (cap_queue_body sq) as [[sq1 ev]| |] eqn:Hbody.
    + apply cap_queue_body_inv in Hbody
        as (Hinv1 & (sb & Hl & _ & _) & Hc1 & Hd1 & _); [|done].
      simpl.
      destruct (IH sq1) as (sq' & evs & -> & Hinv' & Hs & Hd & Hev);
        [done|done|rewrite Hl, length_app in Hlen; simpl in Hlen; lia|].
      simpl. exists sq', (ev :: evs). split; [done|]. split; [done|].
      pose proof (inv_count _ Hinv1) as Hc1'.
      split; [|split].
      * rewrite Hs, Hl. rewrite take_app_le; [done|]. lia.
      * lia.
      * simpl. rewrite Hev, Hl, length_app. simpl.
        assert (length (searches sq') ≤ length (searches sq1))%nat; [|lia].
        rewrite Hs, length_take. lia.
    + exfalso. unfold cap_queue_body in Hbody.
      destruct (last (searches sq)) as [sb|] eqn:Hlast.
      * rewrite bool_decide_eq_true_2 in Hbody by lia. simpl in Hbody.
        rewrite sqh_remove_ok in Hbody; [done|]. simpl.
        apply (inv_handles _ Hinv). unfold queued_handles.
        apply last_Some in Hlast as [l ->]. rewrite map_app. set_solver.
      * apply last_None in Hlast. rewrite Hlast in Hc. simpl in Hc. lia.
    + pose proof (cap_queue_body_shrinks sq) as Hb. by rewrite Hbody in Hb.
  - exists sq, []. split; [done|]. split; [done|].
    pose proof (inv_count _ Hinv) as Hc.
    rewrite take_ge by lia. split; [done|]. split; [lia|]. simpl. lia.
Qed.

(** *** [sq_puthere] *)

Lemma sq_puthere_known env sq sh m q :
  sh ∈ handles sq → sq_puthere env sq sh m q = Ok (sq, []).
Proof.
  intros H. unfold sq_puthere, sqh_exists.
  by rewrite bool_decide_eq_true_2.
Qed.

(** A handle that is not recorded is enqueued at the head, recorded, and
    the queue is cut to [search_queue_size] entries. *)
Lemma sq_puthere_fresh env sq sh m q :
  sq_inv sq → 0 ≤ search_queue_size env → sh ∉ handles sq →
  ∃ sq' evs,
    sq_puthere env sq sh m q = Ok (sq', evs)
    ∧ sq_inv sq'
    ∧ searches sq' =
        take (Z.to_nat (search_queue_size env))
             (smsg_alloc sh m q :: searches sq)
    ∧ count sq' = Z.min (count sq + 1) (search_queue_size env)
    ∧ n_dropped sq' = n_dropped sq + (count sq + 1 - count sq')
    ∧ handles sq' ⊆ {[sh]} ∪ handles sq.
Proof.
  intros Hinv Hsz Hnin. unfold sq_puthere, sqh_exists, sqh_put, sqh_exists.
  rewrite bool_decide_eq_false_2 by done. simpl.
  set (sq2 := {| searches := smsg_alloc sh m q :: searches sq;
                 handles := {[sh]} ∪ handles sq; node := node sq;
                 count := count sq + 1; last_sent := last_sent sq;
                 n_sent := n_sent sq; n_dropped := n_dropped sq |}).
  assert (Hinv2 : sq_inv sq2).
  { destruct Hinv as [Hnd Hh Hc]. split; unfold queued_handles in *; simpl.
    - constructor; [|done]. intros Hin. apply Hnin, Hh, Hin.
    - intros h [->|Hin]%elem_of_cons; [set_solver|].
      apply elem_of_union_r, Hh, Hin.
    - rewrite Hc. lia. }
  pose proof (inv_count _ Hinv) as Hc.
  case_bool_decide as Hlt.
  - unfold cap_queue.
    destruct (cap_queue_loop_spec (S (length (searches sq2)))
                (search_queue_size env) sq2)
      as (sq' & evs & Hrun & Hinv' & Hs & Hd & _); [done|done|lia|].
    exists sq', evs. split; [done|]. split; [done|]. split; [done|].
    pose proof (inv_count _ Hinv') as Hc'.
    apply cap_queue_loop_inv in Hrun as (_ & _ & _ & Hsub); [|done].
    split; [|split; [done|done]].
    rewrite Hc', Hs, length_take. simpl in *. lia.
  - exists sq2, []. split; [done|]. split; [done|]. simpl in *.
    split; [|split; [lia|split; [lia|done]]].
    rewrite take_ge; [done|]. simpl. lia.
Qed.

Lemma sq_puthere_inv env sq sh m q sq' evs :
  sq_inv sq →
  sq_puthere env sq sh m q = Ok (sq', evs) →
  sq_inv sq'.
Proof.
  intros Hinv. unfold sq_puthere, sqh_exists, sqh_put, sqh_exists.
  case_bool_decide as Hin; [by intros [= <- <-]|]. simpl.
  match goal with
  | |- context [cap_queue env ?s] => set (sq2 := s)
  end.
  assert (Hinv2 : sq_inv sq2).
  { destruct Hinv as [Hnd Hh Hc]. split; unfold queued_handles in *; simpl.
    - constructor; [|done]. intros Hq. apply Hin, Hh, Hq.
    - intros h [->|Hq]%elem_of_cons; [set_solver|].
      apply elem_of_union_r, Hh, Hq.
    - rewrite Hc. lia. }
  case_bool_decide; [|by intros [= <- <-]].
  intros Hrun. by apply cap_queue_loop_inv in Hrun as [? _].
Qed.

(** *** [sq_process] *)

Lemma sq_process_body_inv env sq now r :
  sq_inv sq →
  sq_process_body env sq now = Ok r →
  match r with
  | inl (sq', evs) => sq_inv sq' ∧ (evs = [] → sq' = sq)
  | inr (sq', evs) =>
      sq_inv sq' ∧ S (length (searches sq')) = length (searches sq)
      ∧ Forall (λ e, is_dispatch e = false) evs
  end.
Proof.
  intros Hinv. unfold sq_process_body.
  case_bool_decide; [by intros [= <-]|].
  case_bool_decide; [by intros [= <-]|].
  match goal with |- context [if ?b then Ok (inl (sq, [])) else _] =>
    destruct b end; [by intros [= <-]|].
  destruct (searches sq) as [|sb rest] eqn:Hs; [done|].
  destruct (g_assert _); simpl; try done.
  destruct (sq_hand_over env (node sq) sb now) as [[sent evs]| |] eqn:Hho;
    simpl; try done.
  unfold sqh_remove. simpl.
  case_bool_decide as Hin; simpl; [|done].
  intros [= <-].
  assert (Hinv' : ∀ c ls ns,
    sq_inv {| searches := rest; handles := handles sq ∖ {[shandle sb]};
              node := node sq; count := c - 1; last_sent := ls;
              n_sent := ns; n_dropped := n_dropped sq |} ∨ c ≠ count sq).
  { intros c ls ns. destruct (decide (c = count sq)) as [->|]; [left|by right].
    destruct Hinv as [Hnd Hh Hc]. unfold queued_handles in *.
    rewrite Hs in *. simpl in *. apply NoDup_cons in Hnd as [Hnin Hnd].
    split; unfold queued_handles; simpl; [done| |lia].
    intros h Hq. apply elem_of_difference. split; [apply Hh; set_solver|].
    intros ->%elem_of_singleton. done. }
  destruct sent.
  - split.
    + by destruct (Hinv' (count sq) now (n_sent sq + 1)).
    + unfold sq_hand_over in Hho. intros ->.
      destruct (node sq); [destruct (search_query_allowed _ _)|];
        [destruct (g_assert _)| |destruct (qhv sb)]; simpl in Hho; done.
  - split; [by destruct (Hinv' (count sq) (last_sent sq) (n_sent sq))|].
    split; [done|].
    unfold sq_hand_over in Hho.
    destruct (node sq); [destruct (search_query_allowed _ _)|];
      [destruct (g_assert _)| |destruct (qhv sb)]; simpl in Hho;
      try done.
    injection Hho as <-. by repeat constructor.
Qed.

Lemma sq_process_loop_inv fuel env sq now sq' evs :
  sq_inv sq →
  sq_process_loop fuel env sq now = Ok (sq', evs) →
  sq_inv sq'.
Proof.
  revert sq evs. induction fuel as [|fuel IH]; intros sq evs Hinv; [done|].
  simpl. destruct (sq_process_body env sq now) as [r| |] eqn:Hbody;
    simpl; try done.
  apply sq_process_body_inv in Hbody; [|done].
  destruct r as [[sq1 evs1]|[sq1 evs1]].
  - intros [= <- <-]. by destruct Hbody.
  - destruct Hbody as (Hinv1 & _).
    destruct (sq_process_loop fuel env sq1 now) as [[sq2 evs2]| |] eqn:Hrec;
      simpl; try done.
    intros [= <- <-]. by eapply IH.
Qed.

Lemma sq_process_inv env sq now sq' evs :
  sq_inv sq → sq_process env sq now = Ok (sq', evs) → sq_inv sq'.
Proof.
  intros Hinv. unfold sq_process. destruct (g_assert _); [|done..].
  intros Hrun. by eapply sq_process_loop_inv.
Qed.

(** *** [sq_search_closed] *)

Lemma sq_search_closed_loop_inv kept l sq sh sq' evs :
  sq_inv sq →
  searches sq = rev kept ++ l →
  sq_search_closed_loop kept l sq sh = Ok (sq', evs) →
  sq_inv sq'
  ∧ searches sq' = rev kept ++ filter (λ sb, shandle sb ≠ sh) l
  ∧ handles sq' ⊆ handles sq.
Proof.
  revert kept sq evs.
  induction l as [|sb next IH]; intros kept sq evs Hinv Hs; simpl.
  - intros [= <- <-]. done.
  - case_bool_decide as Heq.
    + destruct (g_assert _); simpl; try done.
      unfold sqh_remove. simpl. case_bool_decide as Hin; simpl; [|done].
      match goal with
      | |- context [sq_search_closed_loop kept next ?s sh] => set (sq2 := s)
      end.
      destruct (sq_search_closed_loop kept next sq2 sh)
        as [[sq3 evs3]| |] eqn:Hrec; simpl; try done.
      intros [= <- <-].
      apply IH in Hrec as (Hinv3 & Hkeep & Hsub); [| |done].
      * split; [done|]. rewrite filter_cons_False by (intros ?; done).
        split; [done|]. subst sq2. simpl in Hsub. set_solver.
      * destruct Hinv as [Hnd Hh Hc]. unfold queued_handles in *.
        rewrite Hs in *. rewrite map_app in Hnd, Hh. simpl in Hnd, Hh.
        apply NoDup_app in Hnd as (Hnd1 & Hnd2 & Hnd3).
        apply NoDup_cons in Hnd3 as [Hnin Hnd3].
        split; unfold queued_handles; simpl.
        -- rewrite map_app. apply NoDup_app. split; [done|].
           split; [|done]. intros h Hh1 Hh2. apply (Hnd2 _ Hh1). set_solver.
        -- intros h Hq. rewrite map_app in Hq. apply elem_of_difference.
           split; [apply Hh; set_solver|].
           intros ->%elem_of_singleton.
           apply elem_of_app in Hq as [Hq|Hq]; [|done].
           apply (Hnd2 _ Hq). set_solver.
        -- rewrite Hc. rewrite !length_app. simpl. lia.
    + intros Hrec. apply IH in Hrec as (Hinv3 & Hkeep & Hsub); [|done|].
      * split; [done|]. rewrite filter_cons_True by done.
        split; [|done]. rewrite Hkeep. simpl. by rewrite <- app_assoc.
      * simpl. by rewrite <- app_assoc.
Qed.

Lemma sq_search_closed_inv sq sh sq' evs :
  sq_inv sq → sq_search_closed sq sh = Ok (sq', evs) →
  sq_inv sq' ∧ searches sq' = filter (λ sb, shandle sb ≠ sh) (searches sq).
Proof.
  intros Hinv. unfold sq_search_closed.
  destruct (sq_search_closed_loop [] (searches sq) sq sh)
    as [[sq1 evs1]| |] eqn:Hloop; simpl; try done.
  destruct (g_assert _); simpl; try done. intros [= <- <-].
  apply sq_search_closed_loop_inv in Hloop as (? & ? & _); done.
Qed.

(** *** The gate of the global queue *)

Definition env_c6 : sq_env :=
  {| current_peermode := NODE_P_ULTRA; search_queue_spacing := 0;
     search_queue_size := 256; up_connections := 30;
     node_ultra_count := 15;
     search_query_allowed := λ _, true;
     search_get_id := λ sh, (sh, sh) |}.

Definition sq_c6 : squeue :=
  {| searches := [ {| mb := [1; 2]; shandle := 7; qhv := Some [3] |} ];
     handles := {[ 7 ]}; node := None; count := 1; last_sent := 0;
     n_sent := 0; n_dropped := 0 |}.

(** C6, as stated, fails: with 15 of 30 wanted ultrapeer peers connected,
    which is fewer than two thirds of [up_connections] (20), the global
    queue launches its head query. *)
Lemma sq_process_two_thirds_counterexample :
  node sq_c6 = None
  ∧ 3 * node_ultra_count env_c6 < 2 * up_connections env_c6
  ∧ sq_process env_c6 sq_c6 100 =
      Ok ({| searches := []; handles := ∅; node := None; count := 0;
             last_sent := 100; n_sent := 1; n_dropped := 0 |},
          [Ev_dq_launch_local 7 [1; 2] [3]]).
Proof. split; [reflexivity|]. split; [reflexivity|]. vm_compute. reflexivity. Qed.

(** C6 (amended): the global queue (no node bound) returns without any
    hand-over and without any change when it is empty, when less than
    [search_queue_spacing] seconds passed since the last dispatch, when the
    node is not an ultrapeer, or when more than two thirds of the
    [up_connections] target are still missing
    ([node_keep_missing() * 3 > 2 * up_connections]), which is the case when
    fewer than one third of [up_connections] ultrapeer peers are
    connected. *)
Theorem sq_process_global_gate (env : sq_env) (sq : squeue) (now : Z) :
  node sq = None →
  count sq = 0
  ∨ delta_time now (last_sent sq) < search_queue_spacing env
  ∨ current_peermode env ≠ NODE_P_ULTRA
  ∨ 2 * up_connections env < node_keep_missing env * 3
  ∨ 3 * node_ultra_count env < up_connections env →
  sq_process env sq now = Ok (sq, []).
Proof.
  intros Hn Hgate. unfold sq_process. rewrite Hn. simpl.
  unfold sq_process_body. rewrite Hn.
  case_bool_decide as H1; [done|].
  case_bool_decide as H2; [done|].
  destruct Hgate as [?|[?|[H3|H4]]]; [done|done| |].
  - rewrite (bool_decide_eq_false_2 _ H3). done.
  - assert (2 * up_connections env < node_keep_missing env * 3) as H5.
    { destruct H4 as [?|?]; [done|]. unfold node_keep_missing. lia. }
    rewrite (bool_decide_eq_true_2 _ H5), orb_true_r. done.
Qed.

Lemma sq_process_global_gate_witness :
  sq_process
    {| current_peermode := NODE_P_ULTRA; search_queue_spacing := 0;
       search_queue_size := 256; up_connections := 30;
       node_ultra_count := 9;
       search_query_allowed := λ _, true;
       search_get_id := λ sh, (sh, sh) |}
    sq_c6 100 = Ok (sq_c6, []).
Proof.
  apply sq_process_global_gate; [reflexivity|].
  right. right. right. left. vm_compute. reflexivity.
Defined.

(** *** Enqueueing after a clear *)

Definition env_c7 : sq_env :=
  {| current_peermode := NODE_P_ULTRA; search_queue_spacing := 0;
     search_queue_size := 10; up_connections := 30;
     node_ultra_count := 30;
     search_query_allowed := λ _, true;
     search_get_id := λ sh, (sh, sh) |}.

(** C7: the enqueue is to drop a query only when an entry of the same
    search is queued.  Here a search is enqueued on the fresh global queue,
    the queue is cleared, and the search is enqueued again: no entry of the
    search is queued, yet the second enqueue changes nothing and the query
    is lost. *)
Theorem sq_puthere_lost_after_clear :
  ∃ sq1 : squeue,
    sq_global_putq env_c7 (sq_init 0) 7 [1; 2] [3] = Ok (sq1, [])
    ∧ searches sq1 = [ {| mb := [1; 2]; shandle := 7; qhv := Some [3] |} ]
    ∧ (let sq2 := (sq_clear sq1).1 in
       queued_handles sq2 = []
       ∧ sq_global_putq env_c7 sq2 7 [4; 5] [6] = Ok (sq2, [])).
Proof. eexists. split; [vm_compute; reflexivity|]. vm_compute. done. Qed.

(** *** The handles a clear leaves behind *)

(** C10: [sq_clear], also run by [sq_set_peermode] on leaving ultrapeer
    mode, discards every entry and resets [count] but leaves the recorded
    handles in place; hence a search that was queued before the clear is
    silently dropped by the next enqueue although the queue holds no entry
    for it.  All the operations keep "the handle of every queued entry is
    recorded", the clear does not keep the converse. *)
Theorem sq_clear_keeps_handles (env : sq_env) (sq : squeue)
    (sh : gnet_search_t) (m : pmsg) (q : option query_hashvec)
    (mode : node_peer_t) (now : Z) :
  sq_inv sq →
  sh ∈ queued_handles sq →
  let sq' := (sq_clear sq).1 in
  (* the clear *)
  searches sq' = [] ∧ count sq' = 0 ∧ handles sq' = handles sq
  ∧ (sq_clear sq).2 = map smsg_discard (searches sq)
  ∧ (mode ≠ NODE_P_ULTRA → sq_set_peermode mode sq = sq_clear sq)
  (* the next enqueue of the search is lost *)
  ∧ (sh ∉ queued_handles sq')
  ∧ sq_puthere env sq' sh m q = Ok (sq', [])
  (* one direction is kept by every operation ... *)
  ∧ sq_inv sq'
  ∧ (∀ sh1 m1 q1 sq1 evs,
       sq_puthere env sq sh1 m1 q1 = Ok (sq1, evs) → sq_inv sq1)
  ∧ (∀ sq1 evs, sq_process env sq now = Ok (sq1, evs) → sq_inv sq1)
  ∧ (∀ sh1 sq1 evs, sq_search_closed sq sh1 = Ok (sq1, evs) → sq_inv sq1)
  (* ... the converse is not *)
  ∧ ¬ handles_exact sq'.
Proof.
  intros Hinv Hq sq'. subst sq'. simpl.
  assert (Hh : sh ∈ handles sq) by (by apply (inv_handles _ Hinv)).
  split_and!; try done.
  - unfold sq_set_peermode. intros Hm. by rewrite bool_decide_eq_false_2.
  - unfold queued_handles. simpl. apply not_elem_of_nil.
  - by apply sq_puthere_known.
  - apply sq_clear_inv.
  - intros sh1 m1 q1 sq1 evs. by apply sq_puthere_inv.
  - intros sq1 evs. by apply sq_process_inv.
  - intros sh1 sq1 evs H. by apply sq_search_closed_inv in H as [? _].
  - intros Hex. specialize (Hex sh Hh). unfold queued_handles in Hex.
    simpl in Hex. by apply elem_of_nil in Hex.
Qed.

Lemma sq_c6_inv : sq_inv sq_c6.
Proof.
  split.
  - unfold queued_handles. simpl. apply NoDup_singleton.
  - unfold queued_handles. simpl. intros sh H.
    apply list_elem_of_singleton in H. subst. by apply elem_of_singleton.
  - reflexivity.
Defined.

Lemma sq_clear_keeps_handles_witness :
  sq_puthere env_c7 (sq_clear sq_c6).1 7 [4; 5] (Some [6])
    = Ok ((sq_clear sq_c6).1, [])
  ∧ ¬ handles_exact (sq_clear sq_c6).1.
Proof.
  pose proof (sq_clear_keeps_handles env_c7 sq_c6 7 [4; 5] (Some [6])
                NODE_P_LEAF 0 sq_c6_inv) as H.
  simpl in H. destruct H as (_ & _ & _ & _ & _ & _ & H1 & _ & _ & _ & _ & H2).
  - unfold queued_handles. simpl. apply list_elem_of_singleton. reflexivity.
  - split; [exact H1 | exact H2].
Defined.

End SQProps.

(** ** Background tasks *)

Module BGProps.
Import BG.

(** *** Flags *)

Lemma has_flag_set_other f a b :
  Z.land a b = 0 → has_flag (set_flag f a) b = has_flag f b.
Proof.
  intros H. unfold has_flag, set_flag.
  by rewrite Z.land_lor_distr_l, H, Z.lor_0_r.
Qed.

Lemma has_flag_clear_other f a b :
  Z.land a b = 0 → has_flag (clear_flag f a) b = has_flag f b.
Proof.
  intros H. unfold has_flag, clear_flag. f_equal. f_equal.
  apply Z.bits_inj'. intros n Hn.
  rewrite !Z.land_spec, Z.ldiff_spec.
  assert (Hb : Z.testbit a n && Z.testbit b n = false).
  { rewrite <- Z.land_spec, H. apply Z.bits_0. }
  destruct (Z.testbit f n), (Z.testbit a n), (Z.testbit b n); done.
Qed.

Lemma has_flag_set_same f a : a ≠ 0 → has_flag (set_flag f a) a = true.
Proof.
  intros Ha. unfold has_flag, set_flag.
  rewrite Z.land_lor_distr_l, Z.land_diag.
  apply negb_true_iff, Z.eqb_neq. intros H.
  apply Z.lor_eq_0_iff in H as [_ ?]. done.
Qed.

Lemma has_flag_clear_same f a : has_flag (clear_flag f a) a = false.
Proof.
  unfold has_flag, clear_flag. apply negb_false_iff, Z.eqb_eq.
  apply Z.bits_inj'. intros n Hn.
  rewrite Z.land_spec, Z.ldiff_spec, Z.bits_0.
  destruct (Z.testbit f n), (Z.testbit a n); done.
Qed.

(** *** The tick count *)

(** The tick count before the clamp: [1 + target / tick_cost] as a
    [gint]. *)
Definition raw_ticks (rc : Z) (bt : bgtask) : Z :=
  Qtrunc (1 + inject_Z (bg_target rc) / tick_cost bt).

Lemma bg_target_eq rc :
  0 < rc → bg_target rc = Z.max 40000 (150000 / rc).
Proof.
  intros H. unfold bg_target, MIN_LIFE, MAX_LIFE.
  rewrite Z.quot_div_nonneg by lia. done.
Qed.

Lemma Qtrunc_ge_1 q : (1 <= q)%Q → 1 ≤ Qtrunc q.
Proof.
  destruct q as [n d]. unfold Qle, Qtrunc. simpl. intros H.
  rewrite Z.quot_div_nonneg by lia.
  apply Z.div_le_lower_bound; lia.
Qed.

Lemma raw_ticks_ge_1 rc bt :
  0 < rc → (0 < tick_cost bt)%Q → 1 ≤ raw_ticks rc bt.
Proof.
  intros Hrc Hc. apply Qtrunc_ge_1.
  rewrite <- (Qplus_0_r 1) at 1. apply Qplus_le_r.
  apply Qle_shift_div_l; [done|]. rewrite Qmult_0_l.
  rewrite bg_target_eq by done.
  change 0%Q with (inject_Z 0). rewrite <- Zle_Qle. lia.
Qed.

Lemma gint_ok z : G_MININT ≤ z ≤ G_MAXINT → gint z = Ok z.
Proof. intros H. unfold gint. by rewrite bool_decide_eq_true_2. Qed.

Lemma gint_out z : ¬ (G_MININT ≤ z ≤ G_MAXINT) → gint z = Abort.
Proof. intros H. unfold gint. by rewrite bool_decide_eq_false_2. Qed.

(** The clamp, for a tick count of at least one, when the two products
    that the code computes fit a [gint]. *)
Lemma bg_clamp_ticks_spec t0 prev :
  1 ≤ t0 → 0 ≤ prev → 4 * prev ≤ G_MAXINT →
  (t0 ≤ 4 * prev → 4 * t0 ≤ G_MAXINT) →
  ∃ t, bg_clamp_ticks t0 prev = Ok t
    ∧ 1 ≤ t
    ∧ (prev = 0 → t = t0)
    ∧ (0 < prev →
         t ≤ 4 * prev ∧ prev / 4 ≤ t
         ∧ (4 * prev < t0 → t = 4 * prev)
         ∧ (4 * t0 < prev → t = prev / 4)
         ∧ (t0 ≤ 4 * prev → prev ≤ 4 * t0 → t = t0)).
Proof.
  intros Ht Hp Hr Hr'. unfold bg_clamp_ticks, DELTA_FACTOR.
  unfold G_MAXINT in Hr, Hr'.
  case_bool_decide as H0.
  { exists t0. split; [done|]. split; [done|]. split; [done|lia]. }
  rewrite (gint_ok (prev * 4)) by (unfold G_MININT, G_MAXINT; lia). simpl.
  case_bool_decide as H1.
  { exists (prev * 4). split; [done|]. split; [lia|]. split; [lia|].
    intros _. split; [lia|]. split; [|lia].
    apply Z.div_le_upper_bound; lia. }
  rewrite (gint_ok (4 * t0)) by (unfold G_MININT, G_MAXINT; lia). simpl.
  assert (Hq : Z.quot prev 4 = prev / 4) by (apply Z.quot_div_nonneg; lia).
  case_bool_decide as H2.
  - exists (Z.quot prev 4). rewrite Hq. split; [done|].
    assert (1 ≤ prev / 4) by (apply Z.div_le_lower_bound; lia).
    assert (prev / 4 ≤ prev) by (apply Z.div_le_upper_bound; lia).
    split; [done|]. split; [lia|]. intros _. lia.
  - exists t0. split; [done|]. split; [done|]. split; [lia|]. intros _.
    split; [lia|]. split; [|lia]. apply Z.div_le_upper_bound; lia.
Qed.

(** The tick counts that the arithmetic of [bg_sched_timer] can hold: the
    count [1 + target / tick_cost] fits a [gint], and so do the products
    [prev_ticks * DELTA_FACTOR] and, when the count is not cut to the
    former, [DELTA_FACTOR * ticks]. *)
Definition ticks_in_range (rc : Z) (bt : bgtask) : Prop :=
  raw_ticks rc bt ≤ G_MAXINT
  ∧ 4 * prev_ticks bt ≤ G_MAXINT
  ∧ (0 < prev_ticks bt → raw_ticks rc bt ≤ 4 * prev_ticks bt →
     4 * raw_ticks rc bt ≤ G_MAXINT).

(** As long as the counts are in range the grant is the one of the spec:
    with [target = max(40 ms, 150 ms / runcount)] in usecs, a task whose
    tick cost is null is granted one tick; otherwise the count is
    [1 + target / tick_cost], cut to [4 * prev_ticks] from above and raised
    to [prev_ticks / 4] when four times the count is below [prev_ticks],
    both only when [prev_ticks] is not null; the grant is at least 1. *)
Lemma bg_sched_ticks_in_range (rc : Z) (bt : bgtask) :
  0 < rc →
  (0 <= tick_cost bt)%Q →
  0 ≤ prev_ticks bt →
  (¬ (tick_cost bt == 0)%Q → ticks_in_range rc bt) →
  bg_target rc = Z.max 40000 (150000 / rc)
  ∧ ∃ t, bg_sched_ticks rc bt = Ok t
    ∧ 1 ≤ t
    ∧ ((tick_cost bt == 0)%Q → t = 1)
    ∧ (¬ (tick_cost bt == 0)%Q →
         (prev_ticks bt = 0 → t = raw_ticks rc bt)
         ∧ (0 < prev_ticks bt →
              t ≤ 4 * prev_ticks bt
              ∧ prev_ticks bt / 4 ≤ t
              ∧ (4 * prev_ticks bt < raw_ticks rc bt → t = 4 * prev_ticks bt)
              ∧ (4 * raw_ticks rc bt < prev_ticks bt → t = prev_ticks bt / 4)
              ∧ (raw_ticks rc bt ≤ 4 * prev_ticks bt →
                 prev_ticks bt ≤ 4 * raw_ticks rc bt →
                 t = raw_ticks rc bt))).
Proof.
  intros Hrc Hcost Hprev Hrange. split; [by apply bg_target_eq|].
  unfold bg_sched_ticks.
  destruct (Qeq_bool (tick_cost bt) 0) eqn:Hz.
  - apply Qeq_bool_iff in Hz. exists 1. split; [done|]. split; [done|].
    split; [done|]. intros Hne. done.
  - apply Qeq_bool_neq in Hz. destruct (Hrange Hz) as (Hr1 & Hr2 & Hr3).
    assert (Hpos : (0 < tick_cost bt)%Q).
    { apply Qle_lteq in Hcost as [?|Heq]; [done|]. by symmetry in Heq. }
    pose proof (raw_ticks_ge_1 rc bt Hrc Hpos) as Hraw.
    fold (raw_ticks rc bt).
    rewrite gint_ok by (unfold G_MININT, G_MAXINT in *; lia). simpl.
    destruct (bg_clamp_ticks_spec (raw_ticks rc bt) (prev_ticks bt))
      as (t & -> & Ht & H0 & H1); [done|done|done| |].
    { intros Hle. apply Hr3; [|done]. unfold G_MAXINT in *. lia. }
    simpl. rewrite bool_decide_eq_true_2 by lia. simpl.
    exists t. split; [done|]. split; [done|]. split; [done|].
    intros _. split; done.
Qed.

(** Out of that range the computation of the count overflows. *)
Lemma bg_sched_ticks_out_of_range (rc : Z) (bt : bgtask) :
  0 < rc → (0 < tick_cost bt)%Q → 0 ≤ prev_ticks bt →
  ¬ ticks_in_range rc bt →
  bg_sched_ticks rc bt = Abort.
Proof.
  intros Hrc Hpos Hprev Hout. unfold bg_sched_ticks.
  destruct (Qeq_bool (tick_cost bt) 0) eqn:Hz.
  { apply Qeq_bool_iff in Hz. rewrite Hz in Hpos. by apply Qlt_irrefl in Hpos. }
  pose proof (raw_ticks_ge_1 rc bt Hrc Hpos) as Hraw.
  fold (raw_ticks rc bt).
  destruct (decide (raw_ticks rc bt ≤ G_MAXINT)) as [H1|H1];
    [|by rewrite gint_out by (unfold G_MININT, G_MAXINT in *; lia)].
  rewrite gint_ok by (unfold G_MININT, G_MAXINT in *; lia). simpl.
  unfold bg_clamp_ticks, DELTA_FACTOR.
  case_bool_decide as H0.
  { destruct Hout. unfold ticks_in_range. rewrite H0.
    split; [done|]. split; [done|]. lia. }
  destruct (decide (prev_ticks bt * 4 ≤ G_MAXINT)) as [H2|H2];
    [|by rewrite (gint_out (prev_ticks bt * 4))
        by (unfold G_MININT, G_MAXINT in *; lia)].
  rewrite (gint_ok (prev_ticks bt * 4))
    by (unfold G_MININT, G_MAXINT in *; lia).
  simpl.
  case_bool_decide as H3.
  { destruct Hout. unfold ticks_in_range. split; [done|]. split; lia. }
  rewrite (gint_out (4 * raw_ticks rc bt)); [done|].
  intros H4. apply Hout. unfold ticks_in_range.
  split; [done|]. split; lia.
Qed.

(** A scheduler with no task. *)
Definition sched_none : sched :=
  {| tasks := ∅; runq := []; sleepq := []; runcount := 0; dead_tasks := [];
     current_task := None; calls := [] |}.

(** A turn of the loop of [bg_sched_timer] on a plain task (no daemon, no
    signal queued) whose step comes back with [BGR_MORE] after [measured]
    usecs, without reporting the ticks that it used: what the loop calls,
    in order. *)
Definition bg_sched_turn (measured : Z) (s : sched) : result sched :=
  r ← bg_sched_grant s;
  let h := r.1 in
  s2 ← bg_task_switch (Some h) 0 r.2;
  _ ← g_assert (bool_decide (current_task s2 = Some h));
  bt ← get_task s2 h;
  _ ← g_assert (has_flag (flags bt) TASK_F_RUNNING);
  _ ← g_assert (bool_decide (step bt < stepcnt bt));
  s3 ← bg_task_switch None measured s2;
  c ← bg_sched_analyse BGR_MORE h s3;
  match c with
  | Proceed s4 => Ok s4
  | Longjmp _ _ => Abort
  end.

Fixpoint bg_sched_turns (n : nat) (measured : Z) (s : sched)
    : result sched :=
  match n with
  | O => Ok s
  | S n' => s1 ← bg_sched_turn measured s; bg_sched_turns n' measured s1
  end.

(** A task is created and runs alone; each of its steps takes 2 usecs,
    whatever the ticks it is granted. *)
Definition quick_task_run (n : nat) : result sched :=
  s0 ← bg_task_create 1 1 false sched_none;
  bg_sched_turns n 2 s0.

(** C8: the grant is not at least 1 at every activation.  A task whose
    steps are shorter than the ticks it is granted sees its tick cost go
    down by a fifth at each turn, since [elapsed / ticks_used] is null, and
    its grant grow.  After 34 turns [prev_ticks] is 473316544 and
    [1 + target / tick_cost] is 591645679, below [4 * prev_ticks]: the
    product [DELTA_FACTOR * ticks] of the second test of the clamp does not
    fit a [gint], and no tick count is granted, against the assertion
    [ticks > 0] that follows. *)
Theorem bg_sched_ticks_overflow :
  ∃ s bt,
    quick_task_run 34 = Ok s
    ∧ runcount s = 1 ∧ bg_sched_pick s = Some 1
    ∧ tasks s !! 1 = Some bt
    ∧ has_flag (flags bt) TASK_F_RUNNABLE = true
    ∧ (0 < tick_cost bt)%Q
    ∧ prev_ticks bt = 473316544
    ∧ raw_ticks (runcount s) bt = 591645679
    ∧ gint (DELTA_FACTOR * raw_ticks (runcount s) bt) = Abort
    ∧ bg_sched_ticks (runcount s) bt = Abort
    ∧ bg_sched_grant s = Abort
    ∧ quick_task_run 35 = Abort.
Proof.
  eexists _, _. split; [vm_compute; reflexivity|].
  split; [reflexivity|]. split; [reflexivity|].
  split; [vm_compute; reflexivity|].
  split; [reflexivity|]. split; [reflexivity|].
  split; [reflexivity|].
  split; [vm_compute; reflexivity|].
  split; [vm_compute; reflexivity|].
  split; [vm_compute; reflexivity|].
  split; vm_compute; reflexivity.
Qed.

(** The turns before that one are granted what the spec says. *)
Example bg_sched_ticks_before_overflow :
  ∃ s bt,
    quick_task_run 33 = Ok s ∧ tasks s !! 1 = Some bt
    ∧ prev_ticks bt = 378653235
    ∧ raw_ticks (runcount s) bt = 473316544
    ∧ bg_sched_ticks (runcount s) bt = Ok 473316544.
Proof.
  eexists _, _. split; [vm_compute; reflexivity|].
  split; [vm_compute; reflexivity|]. split; [reflexivity|].
  split; vm_compute; reflexivity.
Qed.

(** *** Termination and the return code of a step *)

Lemma get_task_ok s h bt : tasks s !! h = Some bt → get_task s h = Ok bt.
Proof. intros H. unfold get_task. by rewrite H. Qed.

Lemma get_put_task s h bt : get_task (put_task s h bt) h = Ok bt.
Proof. unfold get_task, put_task. simpl. by rewrite lookup_insert_eq. Qed.

(** A task is ready to be terminated by the scheduler when it has not
    exited, is neither running nor sleeping, and is counted. *)
Definition terminable (s : sched) (bt : bgtask) : Prop :=
  has_flag (flags bt) TASK_F_EXITED = false
  ∧ has_flag (flags bt) TASK_F_RUNNING = false
  ∧ has_flag (flags bt) TASK_F_SLEEPING = false
  ∧ 0 < runcount s.

(** The flags of a terminated task. *)
Definition exited_flags (bt : bgtask) : Z :=
  let f := clear_flag (set_flag (flags bt) TASK_F_EXITED) TASK_F_RUNNABLE in
  if has_done_cb bt then clear_flag f TASK_F_ZOMBIE
  else if bool_decide (bg_status bt = BGS_OK) then f
  else set_flag f TASK_F_ZOMBIE.

Lemma bg_status_flags bt f :
  has_flag f TASK_F_SIGNAL = has_flag (flags bt) TASK_F_SIGNAL →
  bg_status (with_flags bt f) = bg_status bt.
Proof. intros H. unfold bg_status. simpl. by rewrite H. Qed.

Lemma bg_task_terminate_spec h s bt :
  tasks s !! h = Some bt →
  terminable s bt →
  bg_task_terminate h s =
    Ok (Proceed
          {| tasks := <[h := with_magic (with_flags bt (exited_flags bt)) 0]>
                        (tasks s);
             runq := g_slist_remove (runq s) h;
             sleepq := sleepq s;
             runcount := runcount s - 1;
             dead_tasks := h :: dead_tasks s;
             current_task := current_task s;
             calls := Ev_uctx_free h ::
                      (if has_done_cb bt
                       then [Ev_done_cb h (bg_status bt)] else [])
                      ++ calls s |}).
Proof.
  intros Hh (Hex & Hrun & Hsl & Hrc).
  unfold bg_task_terminate. rewrite (get_task_ok _ _ _ Hh). simpl.
  rewrite Hex, Hrun, Hsl. simpl.
  rewrite (get_task_ok _ _ _ Hh). simpl.
  unfold bg_sched_remove. rewrite get_put_task. simpl.
  rewrite bool_decide_eq_true_2 by lia. simpl.
  unfold get_task. simpl. rewrite lookup_insert_eq. simpl.
  rewrite !insert_insert_eq.
  set (f := clear_flag (set_flag (flags bt) TASK_F_EXITED) TASK_F_RUNNABLE).
  assert (Hst : bg_status (with_flags (with_flags bt (set_flag (flags bt) TASK_F_EXITED)) f)
                = bg_status bt).
  { unfold bg_status. simpl. unfold f.
    rewrite has_flag_clear_other, has_flag_set_other by done. done. }
  rewrite Hst. unfold exited_flags. fold f.
  destruct (has_done_cb bt) eqn:Hcb; simpl.
  - rewrite andb_false_r. simpl. rewrite Hcb. simpl.
    rewrite !insert_insert_eq. done.
  - rewrite andb_true_r.
    case_bool_decide as Hok; simpl; rewrite Hcb; simpl;
      rewrite !insert_insert_eq; done.
Qed.

(** The scheduler once the task at [h], whose structure was [bt], has been
    terminated: the task is flagged as exited and no longer runnable, it
    left the run queue for the list of dead tasks, and the user code was
    told (the completion callback first, if any, then the release of the
    context). *)
Definition terminated (h : Z) (bt : bgtask) (s : sched) : sched :=
  {| tasks := <[h := with_magic (with_flags bt (exited_flags bt)) 0]>
                (tasks s);
     runq := g_slist_remove (runq s) h;
     sleepq := sleepq s;
     runcount := runcount s - 1;
     dead_tasks := h :: dead_tasks s;
     current_task := current_task s;
     calls := Ev_uctx_free h ::
              (if has_done_cb bt then [Ev_done_cb h (bg_status bt)] else [])
              ++ calls s |}.

Lemma exited_flags_exited bt :
  has_flag (exited_flags bt) TASK_F_EXITED = true
  ∧ has_flag (exited_flags bt) TASK_F_RUNNABLE = false.
Proof.
  unfold exited_flags.
  set (f := clear_flag (set_flag (flags bt) TASK_F_EXITED) TASK_F_RUNNABLE).
  assert (H1 : has_flag f TASK_F_EXITED = true).
  { unfold f. rewrite has_flag_clear_other by done.
    by apply has_flag_set_same. }
  assert (H2 : has_flag f TASK_F_RUNNABLE = false)
    by apply has_flag_clear_same.
  destruct (has_done_cb bt); [|case_bool_decide].
  - by rewrite !has_flag_clear_other.
  - done.
  - by rewrite !has_flag_set_other.
Qed.

Lemma exited_flags_zombie bt :
  has_flag (exited_flags bt) TASK_F_ZOMBIE =
    negb (has_done_cb bt) && negb (bool_decide (bg_status bt = BGS_OK))
    || negb (has_done_cb bt) && has_flag (flags bt) TASK_F_ZOMBIE.
Proof.
  unfold exited_flags.
  destruct (has_done_cb bt); simpl.
  - apply has_flag_clear_same.
  - case_bool_decide; simpl.
    + by rewrite has_flag_clear_other, has_flag_set_other.
    + by rewrite has_flag_set_same.
Qed.

(** C9: what the scheduler makes of the value that a step of a task that
    is no daemon returns.  [BGR_MORE] adds one to [seqno] and leaves the
    rest of the task and of the scheduler as they are.  [BGR_NEXT] on a
    step that is not the last adds one to [step] and resets [seqno] and
    [tick_cost].  [BGR_NEXT] on the last step ends the task.  [BGR_ERROR]
    sets the exit code to -1 and terminates the task; the status is
    [BGS_KILLED] when the task is flagged [TASK_F_SIGNAL], [BGS_ERROR] when
    the exit code is not null, [BGS_OK] otherwise, hence [BGS_ERROR] after
    [BGR_ERROR] for a task that is not being killed. *)
Theorem bg_sched_analyse_spec (h : Z) (s : sched) (bt : bgtask) :
  tasks s !! h = Some bt →
  has_flag (flags bt) TASK_F_DAEMON = false →
  terminable s bt →
  (* BGR_MORE *)
  (∃ bt1,
     bg_sched_analyse BGR_MORE h s = Ok (Proceed (put_task s h bt1))
     ∧ seqno bt1 = seqno bt + 1
     ∧ step bt1 = step bt ∧ tick_cost bt1 = tick_cost bt
     ∧ with_progress bt1 (step bt) (seqno bt) (tick_cost bt) = bt)
  (* BGR_NEXT, not on the last step *)
  ∧ (step bt ≠ stepcnt bt - 1 →
     ∃ bt1,
       bg_sched_analyse BGR_NEXT h s = Ok (Proceed (put_task s h bt1))
       ∧ step bt1 = step bt + 1 ∧ seqno bt1 = 0 ∧ tick_cost bt1 = 0%Q
       ∧ with_progress bt1 (step bt) (seqno bt) (tick_cost bt) = bt)
  (* BGR_NEXT on the last step *)
  ∧ (step bt = stepcnt bt - 1 →
     bg_sched_analyse BGR_NEXT h s = Ok (Proceed (terminated h bt s)))
  (* BGR_ERROR *)
  ∧ (let bt1 := with_exitcode bt (-1) in
     bg_sched_analyse BGR_ERROR h s = Ok (Proceed (terminated h bt1 s))
     ∧ exitcode bt1 = -1
     ∧ (has_flag (flags bt) TASK_F_SIGNAL = false → bg_status bt1 = BGS_ERROR))
  (* a terminated task *)
  ∧ (∀ bt0,
       has_flag (exited_flags bt0) TASK_F_EXITED = true
       ∧ has_flag (exited_flags bt0) TASK_F_RUNNABLE = false
       ∧ (has_done_cb bt0 = false → bg_status bt0 ≠ BGS_OK →
          has_flag (exited_flags bt0) TASK_F_ZOMBIE = true))
  (* the status *)
  ∧ (∀ bt0,
       (has_flag (flags bt0) TASK_F_SIGNAL = true → bg_status bt0 = BGS_KILLED)
       ∧ (has_flag (flags bt0) TASK_F_SIGNAL = false → exitcode bt0 ≠ 0 →
          bg_status bt0 = BGS_ERROR)
       ∧ (has_flag (flags bt0) TASK_F_SIGNAL = false → exitcode bt0 = 0 →
          bg_status bt0 = BGS_OK)).
Proof.
  intros Hh Hd Hterm.
  unfold bg_sched_analyse. rewrite (get_task_ok _ _ _ Hh). simpl.
  split_and!.
  - eexists. split; [reflexivity|]. split_and!; try done. by destruct bt.
  - intros Hne. rewrite bool_decide_eq_false_2 by done.
    eexists. split; [reflexivity|]. split_and!; try done. by destruct bt.
  - intros Hlast. rewrite bool_decide_eq_true_2 by done.
    unfold bg_task_ended. rewrite (get_task_ok _ _ _ Hh). simpl.
    rewrite Hd. simpl. by apply bg_task_terminate_spec.
  - rewrite (bg_task_terminate_spec h _ (with_exitcode bt (-1))).
    + unfold terminated, put_task. simpl. by rewrite insert_insert_eq.
    + unfold put_task. simpl. by rewrite lookup_insert_eq.
    + done.
  - done.
  - simpl. intros Hs. unfold bg_status. simpl. by rewrite Hs.
  - intros bt0. destruct (exited_flags_exited bt0) as [H1 H2].
    split; [done|]. split; [done|]. intros Hcb Hst.
    rewrite exited_flags_zombie, Hcb. simpl.
    by rewrite bool_decide_eq_false_2.
  - intros bt0. unfold bg_status. split_and!.
    + by intros ->.
    + intros -> Hne. by rewrite bool_decide_eq_false_2.
    + intros -> Heq. by rewrite bool_decide_eq_true_2.
Qed.

Definition task_c9 : bgtask :=
  {| magic := BT_MAGIC; flags := TASK_F_RUNNABLE; step := 0; seqno := 3;
     stepcnt := 2; wtime := 12; has_done_cb := true; exitcode := 0;
     signal := 0; signals := []; ticks := 100; ticks_used := 100;
     prev_ticks := 100; elapsed := 50000; tick_cost := 500 # 1;
     wq := []; has_item_free := false; has_notify := false |}.

Definition sched_c9 : sched :=
  {| tasks := {[ 1 := task_c9 ]}; runq := [1]; sleepq := []; runcount := 1;
     dead_tasks := []; current_task := None; calls := [] |}.

Lemma bg_sched_analyse_spec_witness :
  bg_sched_analyse BGR_ERROR 1 sched_c9 =
    Ok (Proceed (terminated 1 (with_exitcode task_c9 (-1)) sched_c9))
  ∧ bg_status (with_exitcode task_c9 (-1)) = BGS_ERROR.
Proof.
  destruct (bg_sched_analyse_spec 1 sched_c9 task_c9)
    as (_ & _ & _ & (H1 & _ & H2) & _).
  - reflexivity.
  - reflexivity.
  - unfold terminable. simpl. split_and!; try reflexivity.
  - split; [exact H1|]. apply H2. reflexivity.
Defined.

(** The four steps of a task that returns [BGR_MORE], [BGR_NEXT] and, on its
    last step, [BGR_NEXT]. *)
Example bg_sched_analyse_run :
  (s1 ← bg_sched_analyse BGR_MORE 1 sched_c9;
   match s1 with
   | Proceed s1 =>
       s2 ← bg_sched_analyse BGR_NEXT 1 s1;
       match s2 with
       | Proceed s2 => bg_sched_analyse BGR_NEXT 1 s2
       | Longjmp _ _ => Abort
       end
   | Longjmp _ _ => Abort
   end) =
  Ok (Proceed
        {| tasks :=
             {[ 1 := {| magic := 0; flags := TASK_F_EXITED; step := 1;
                        seqno := 0; stepcnt := 2; wtime := 12;
                        has_done_cb := true; exitcode := 0; signal := 0;
                        signals := []; ticks := 100; ticks_used := 100;
                        prev_ticks := 100; elapsed := 50000;
                        tick_cost := 0; wq := []; has_item_free := false;
                        has_notify := false |} ]};
           runq := []; sleepq := []; runcount := 0; dead_tasks := [1];
           current_task := None;
           calls := [Ev_uctx_free 1; Ev_done_cb 1 BGS_OK] |}).
Proof. vm_compute. reflexivity. Qed.

End BGProps.

(** ** Host caches *)

Module HCProps.
Import HCACHE.

(** What the properties below observe of a state. *)
Abbreviation hosts_of s t := (hostlist (caches s t)).
Abbreviation table_of s c := (hcache_ht_by_class s c).

(** *** Running a computation *)

Lemma bind_run {A B} (m : M A) (f : A → M B) s a s' :
  m s = Ok (a, s') → bind m f s = f a s'.
Proof. intros H. unfold bind. by rewrite H. Qed.

Lemma assert_run b s : b = true → assert b s = Ok (tt, s).
Proof. by intros ->. Qed.

(** Unfolds the plumbing of a computation. *)
Ltac mstep := cbv beta iota delta [bind get ret put modify].

(** [runs m s Q]: from the state [s] the computation [m] returns, with a
    value and a state that satisfy [Q]. *)
Definition runs {A} (m : M A) (s : hstate) (Q : A → hstate → Prop) : Prop :=
  ∃ a s', m s = Ok (a, s') ∧ Q a s'.

Lemma runs_ret {A} (a : A) s (Q : A → hstate → Prop) :
  Q a s → runs (ret a) s Q.
Proof. intros HQ. by exists a, s. Qed.

Lemma runs_bind {A B} (m : M A) (f : A → M B) s (Q : B → hstate → Prop) :
  runs m s (λ a s', runs (f a) s' Q) → runs (bind m f) s Q.
Proof.
  intros (a & s' & Hm & b & s'' & Hf & HQ). exists b, s''.
  split; [|done]. unfold bind. by rewrite Hm.
Qed.

Lemma runs_get s (Q : hstate → hstate → Prop) : Q s s → runs get s Q.
Proof. intros HQ. by exists s, s. Qed.

Lemma runs_put s' s (Q : unit → hstate → Prop) : Q tt s' → runs (put s') s Q.
Proof. intros HQ. by exists tt, s'. Qed.

Lemma runs_modify f s (Q : unit → hstate → Prop) :
  Q tt (f s) → runs (modify f) s Q.
Proof. intros HQ. by exists tt, (f s). Qed.

Lemma runs_assert b s (Q : unit → hstate → Prop) :
  b = true → Q tt s → runs (assert b) s Q.
Proof. intros -> HQ. by exists tt, s. Qed.

Lemma runs_update_cache t f s (Q : unit → hstate → Prop) :
  Q tt (set_cache s t (f (caches s t))) → runs (update_cache t f) s Q.
Proof. intros HQ. by eexists tt, _. Qed.

Lemma runs_eq {A} (m : M A) s a s' (Q : A → hstate → Prop) :
  m s = Ok (a, s') → Q a s' → runs m s Q.
Proof. intros Hm HQ. by exists a, s'. Qed.

Lemma runs_mono {A} (m : M A) s (Q Q' : A → hstate → Prop) :
  runs m s Q → (∀ a s', Q a s' → Q' a s') → runs m s Q'.
Proof. intros (a & s' & Hm & HQ) H. exists a, s'. auto. Qed.

(** *** The invariant of the host caches *)

(** A host is on the list of a cache exactly when the table of the class
    of that cache maps it to an entry of that type; the lists have no
    duplicates; no mass update counter is negative. *)
Record hc_inv (s : hstate) : Prop := mk_hc_inv {
  inv_nodup : ∀ t, NoDup (hosts_of s t);
  inv_listed : ∀ t h, h ∈ hosts_of s t →
    ∃ e, table_of s (hcache_class t) !! h = Some e ∧ hce_type e = t;
  inv_known : ∀ c h e, table_of s c !! h = Some e →
    hcache_class (hce_type e) = c ∧ h ∈ hosts_of s (hce_type e);
  inv_mass : ∀ t, 0 ≤ mass_update (caches s t)
}.

Lemma hcache_init_inv : hc_inv hcache_init.
Proof.
  split.
  - intros t. destruct t; simpl; constructor.
  - intros t h H. destruct t; simpl in H; by apply elem_of_nil in H.
  - intros c h e H. destruct c; simpl in H; by rewrite lookup_empty in H.
  - intros t. destruct t; simpl; lia.
Qed.

(** The invariant only reads the lists, the tables and the counters. *)
Lemma hc_inv_ext s s' :
  (∀ t, hosts_of s' t = hosts_of s t) →
  (∀ c, table_of s' c = table_of s c) →
  (∀ t, mass_update (caches s' t) = mass_update (caches s t)) →
  hc_inv s → hc_inv s'.
Proof.
  intros Hl Ht Hm [H1 H2 H3 H4]. split.
  - intros t. rewrite Hl. apply H1.
  - intros t h. rewrite Hl, Ht. apply H2.
  - intros c h e. rewrite Ht, Hl. apply H3.
  - intros t. rewrite Hm. apply H4.
Qed.

(** Neither do the flags and counters of a cache matter. *)
Lemma hc_inv_set_cache s t hc :
  hostlist hc = hosts_of s t → 0 ≤ mass_update hc →
  hc_inv s → hc_inv (set_cache s t hc).
Proof.
  intros Hl Hm [H1 H2 H3 H4].
  assert (Hh : ∀ t', hosts_of (set_cache s t hc) t' = hosts_of s t').
  { intros t'. simpl. case_decide as Hd; [|done]. by rewrite Hd. }
  assert (Ht : ∀ c, table_of (set_cache s t hc) c = table_of s c)
    by (by intros []).
  split.
  - intros t'. rewrite Hh. apply H1.
  - intros t' h. rewrite Hh, Ht. apply H2.
  - intros c h e. rewrite Ht, Hh. apply H3.
  - intros t'. simpl. case_decide; [done|apply H4].
Qed.

(** A host is on one list at most. *)
Lemma hc_inv_one_list s t1 t2 h :
  hc_inv s → hcache_class t1 = hcache_class t2 →
  h ∈ hosts_of s t1 → h ∈ hosts_of s t2 → t1 = t2.
Proof.
  intros Hinv Hc H1 H2.
  destruct (inv_listed _ Hinv _ _ H1) as (e1 & He1 & <-).
  destruct (inv_listed _ Hinv _ _ H2) as (e2 & He2 & <-).
  rewrite Hc in He1. congruence.
Qed.

(** *** Lists *)

Lemma hash_list_remove_not_in (l : list gnet_host) h :
  h ∉ l → hash_list_remove l h = l.
Proof.
  unfold hash_list_remove. induction l as [|x l IH]; [done|]. intros Hn. simpl.
  destruct (decide (h = x)) as [->|]; [set_solver|].
  f_equal. apply IH. set_solver.
Qed.

Lemma elem_of_hash_list_remove (l : list gnet_host) h x :
  NoDup l → x ∈ hash_list_remove l h ↔ x ∈ l ∧ x ≠ h.
Proof.
  unfold hash_list_remove. induction l as [|y l IH]; intros Hnd; simpl.
  - set_solver.
  - apply NoDup_cons in Hnd as [Hy Hnd].
    destruct (decide (h = y)) as [->|Hne].
    + split; [|set_solver]. intros Hx. split; [set_solver|].
      intros ->. done.
    + rewrite elem_of_cons, IH, elem_of_cons by done. split.
      * intros [->|[? ?]]; split; auto.
      * intros [[->|?] ?]; auto.
Qed.

Lemma NoDup_hash_list_remove (l : list gnet_host) h :
  NoDup l → NoDup (hash_list_remove l h).
Proof.
  induction l as [|y l IH]; intros Hnd; [done|].
  apply NoDup_cons in Hnd as [Hy Hnd].
  unfold hash_list_remove in *. simpl.
  destruct (decide (h = y)); [done|].
  apply NoDup_cons. split; [|by apply IH].
  fold (hash_list_remove l h).
  rewrite elem_of_hash_list_remove by done. tauto.
Qed.

Lemma hash_list_remove_last (l : list gnet_host) h :
  h ∉ l → hash_list_remove (l ++ [h]) h = l.
Proof.
  unfold hash_list_remove. induction l as [|y l IH]; intros Hn; simpl.
  - by rewrite decide_True.
  - rewrite decide_False by set_solver. f_equal. apply IH. set_solver.
Qed.

Lemma hash_list_remove_head (l : list gnet_host) h :
  hash_list_remove (h :: l) h = l.
Proof. unfold hash_list_remove. simpl. by rewrite decide_True. Qed.

(** *** Reading a state that was updated *)

Lemma caches_set_cache s t hc t' :
  caches (set_cache s t hc) t' = if decide (t' = t) then hc else caches s t'.
Proof. done. Qed.

Lemma table_set_ht s c m c' :
  table_of (set_ht s c m) c' = if decide (c' = c) then m else table_of s c'.
Proof. by destruct c, c'. Qed.

Lemma table_set_ht_same s c m : table_of (set_ht s c m) c = m.
Proof. by destruct c. Qed.

Lemma table_set_ht_other s c m c' :
  c' ≠ c → table_of (set_ht s c m) c' = table_of s c'.
Proof. by destruct c, c'. Qed.

Lemma table_set_cache s t hc c :
  table_of (set_cache s t hc) c = table_of s c.
Proof. by destruct c. Qed.

Lemma table_set_catcher s p v c :
  table_of (set_catcher s p v) c = table_of s c.
Proof. by destruct c. Qed.

Lemma table_set_misc s low sc si sl d w c :
  table_of (set_misc s low sc si sl d w) c = table_of s c.
Proof. by destruct c. Qed.

(** *** Moving the entries of a cache *)

Definition retype (to : hcache_type_t) (e : hostcache_entry)
    : hostcache_entry :=
  {| hce_type := to; time_added := time_added e |}.

Lemma foldl_retype_caches class to l s :
  caches (foldl (hcache_retype class to) s l) = caches s
  ∧ hcache_close_running (foldl (hcache_retype class to) s l)
    = hcache_close_running s
  ∧ host_low_on_pongs (foldl (hcache_retype class to) s l)
    = host_low_on_pongs s
  ∧ drawn (foldl (hcache_retype class to) s l) = drawn s.
Proof.
  revert s. induction l as [|x l IH]; intros s; simpl; [done|].
  destruct (IH (hcache_retype class to s x)) as (-> & -> & -> & ->).
  unfold hcache_retype. by destruct (table_of s class !! x).
Qed.

Lemma foldl_retype_table class to l s c h :
  table_of (foldl (hcache_retype class to) s l) c !! h =
    if decide (c = class ∧ h ∈ l)
    then retype to <$> table_of s c !! h
    else table_of s c !! h.
Proof.
  revert s. induction l as [|x l IH]; intros s; simpl.
  - rewrite decide_False; [done|]. intros [_ H]. by apply elem_of_nil in H.
  - rewrite IH. unfold hcache_retype.
    destruct (decide (c = class)) as [->|Hc].
    + destruct (decide (h = x)) as [->|Hne].
      * rewrite (decide_True _ _ (conj eq_refl (list_elem_of_here x l))).
        destruct (table_of s class !! x) as [e|] eqn:He.
        -- rewrite table_set_ht_same, lookup_insert_eq.
           case_decide; done.
        -- rewrite He. case_decide; done.
      * assert (Hl : h ∈ x :: l ↔ h ∈ l) by set_solver.
        destruct (table_of s class !! x) as [e|] eqn:He.
        -- rewrite table_set_ht_same, lookup_insert_ne by done.
           repeat case_decide; tauto.
        -- repeat case_decide; tauto.
    + rewrite !decide_False by tauto.
      destruct (table_of s class !! x); [|done].
      by rewrite table_set_ht_other.
Qed.

(** The state that [hcache_move_entries] leaves. *)
Definition moved_state (to from : hcache_type_t) (s : hstate) : hstate :=
  let moved := hostlist (caches s from) in
  let s1 := set_cache s to (set_hostlist (caches s to) moved) in
  let s2 := set_cache s1 from (set_hostlist (caches s1 from) []) in
  foldl (hcache_retype (hcache_class from) to) s2 (hostlist (caches s2 to)).

Lemma hcache_move_entries_run to from s :
  hash_list_length s to = 0 →
  hcache_class to = hcache_class from →
  hcache_move_entries to from s = Ok (tt, moved_state to from s).
Proof.
  intros Hlen Hc. unfold hcache_move_entries, bind, get, assert.
  rewrite !bool_decide_eq_true_2 by done. done.
Qed.

Lemma moved_state_hosts to from s t :
  hosts_of (moved_state to from s) t =
    if decide (t = from) then []
    else if decide (t = to) then hosts_of s from
    else hosts_of s t.
Proof.
  unfold moved_state.
  destruct (foldl_retype_caches (hcache_class from) to
    (hostlist (caches (set_cache (set_cache s to (set_hostlist (caches s to) (hostlist (caches s from)))) from
       (set_hostlist (caches (set_cache s to (set_hostlist (caches s to) (hostlist (caches s from)))) from) [])) to))
    (set_cache (set_cache s to (set_hostlist (caches s to) (hostlist (caches s from)))) from
       (set_hostlist (caches (set_cache s to (set_hostlist (caches s to) (hostlist (caches s from)))) from) [])))
    as (-> & _).
  rewrite !caches_set_cache.
  destruct (decide (t = from)); [done|]. by destruct (decide (t = to)).
Qed.

Lemma moved_state_aux to from s t :
  mass_update (caches (moved_state to from s) t) = mass_update (caches s t)
  ∧ hcache_close_running (moved_state to from s) = hcache_close_running s
  ∧ host_low_on_pongs (moved_state to from s) = host_low_on_pongs s
  ∧ drawn (moved_state to from s) = drawn s.
Proof.
  unfold moved_state.
  match goal with
  | |- context [foldl ?f ?s0 ?l] =>
      destruct (foldl_retype_caches (hcache_class from) to l s0)
        as (-> & -> & -> & ->)
  end.
  rewrite !caches_set_cache. split; [|done].
  repeat case_decide; subst; done.
Qed.

Lemma moved_state_table to from s c h :
  to ≠ from →
  table_of (moved_state to from s) c !! h =
    if decide (c = hcache_class from ∧ h ∈ hosts_of s from)
    then retype to <$> table_of s c !! h
    else table_of s c !! h.
Proof.
  intros Hne. unfold moved_state. rewrite foldl_retype_table.
  rewrite !table_set_cache, !caches_set_cache.
  rewrite (decide_False (P := to = from)) by done.
  rewrite (decide_True (P := to = to)) by done. done.
Qed.

Lemma moved_state_self t s c :
  hosts_of s t = [] →
  table_of (moved_state t t s) c = table_of s c.
Proof.
  intros Hl. unfold moved_state. apply map_eq. intros h.
  rewrite foldl_retype_table, !table_set_cache, !caches_set_cache.
  rewrite (decide_True (P := t = t)) by done. simpl.
  rewrite decide_False; [done|]. intros [_ H]. by apply elem_of_nil in H.
Qed.

Lemma moved_state_inv to from s :
  hc_inv s → hosts_of s to = [] → hcache_class to = hcache_class from →
  hc_inv (moved_state to from s).
Proof.
  intros Hinv Hto Hc. destruct (decide (to = from)) as [->|Hne].
  { eapply hc_inv_ext; [| |intros t; apply moved_state_aux|done].
    - intros t. rewrite moved_state_hosts.
      destruct (decide (t = from)) as [->|]; done.
    - intros c. by apply moved_state_self. }
  split.
  - intros t. rewrite moved_state_hosts.
    repeat case_decide; try constructor; apply (inv_nodup _ Hinv).
  - intros t h. rewrite moved_state_hosts, moved_state_table by done.
    destruct (decide (t = from)) as [->|Hf];
      [intros H; by apply elem_of_nil in H|].
    destruct (decide (t = to)) as [->|Ht]; intros Hin.
    + destruct (inv_listed _ Hinv _ _ Hin) as (e & He & Hty).
      rewrite decide_True by done. rewrite Hc, He. by eexists.
    + destruct (inv_listed _ Hinv _ _ Hin) as (e & He & Hty).
      rewrite decide_False; [by eexists|].
      intros [Hcl Hin']. apply Hf.
      by apply (hc_inv_one_list s t from h).
  - intros c h e. rewrite moved_state_table, moved_state_hosts by done.
    case_decide as Hd.
    + destruct Hd as [-> Hin].
      destruct (table_of s (hcache_class from) !! h) as [e0|] eqn:He0;
        [|done].
      intros [= <-]. simpl. split; [done|].
      rewrite decide_False, decide_True by done. done.
    + intros He. destruct (inv_known _ Hinv _ _ _ He) as [Hcl Hin].
      split; [done|].
      destruct (decide (hce_type e = from)) as [Hf|Hf].
      { exfalso. apply Hd. rewrite <- Hf. done. }
      destruct (decide (hce_type e = to)) as [Ht|Ht]; [|done].
      rewrite Ht, Hto in Hin. by apply elem_of_nil in Hin.
  - intros t. destruct (moved_state_aux to from s t) as [-> _].
    apply (inv_mass _ Hinv).
Qed.

(** *** [hcache_require_caught] *)

(** The valid half that refills an empty cache of good hosts. *)
Definition reserve_of (t : hcache_type_t) : option hcache_type_t :=
  match t with
  | HCACHE_FRESH_ANY | HCACHE_VALID_ANY => Some HCACHE_VALID_ANY
  | HCACHE_FRESH_ULTRA | HCACHE_VALID_ULTRA => Some HCACHE_VALID_ULTRA
  | _ => None
  end.

(** The state that [hcache_require_caught] leaves. *)
Definition caught_state (t : hcache_type_t) (s : hstate) : hstate :=
  match reserve_of t with
  | Some from =>
      if bool_decide (hash_list_length s t = 0) then moved_state t from s
      else s
  | None => s
  end.

Lemma hcache_require_caught_run t s :
  hcache_require_caught t s =
    Ok (negb (bool_decide (hash_list_length (caught_state t s) t = 0)),
        caught_state t s).
Proof.
  unfold hcache_require_caught, caught_state.
  destruct t; simpl; unfold bind, get, ret; simpl; try done;
    case_bool_decide as Hlen; simpl;
    rewrite ?hcache_move_entries_run by done; done.
Qed.

Lemma reserve_of_class t from :
  reserve_of t = Some from → hcache_class t = hcache_class from.
Proof. destruct t; simpl; intros [= <-]; done. Qed.

Lemma length_zero_nil s t : hash_list_length s t = 0 → hosts_of s t = [].
Proof.
  unfold hash_list_length. intros H.
  destruct (hosts_of s t); [done|]. simpl in H. lia.
Qed.

Lemma caught_state_inv t s : hc_inv s → hc_inv (caught_state t s).
Proof.
  intros Hinv. unfold caught_state.
  destruct (reserve_of t) as [from|] eqn:Hr; [|done].
  case_bool_decide as Hlen; [|done].
  apply moved_state_inv; [done|by apply length_zero_nil|].
  by apply reserve_of_class.
Qed.

Lemma caught_state_aux t s t' :
  mass_update (caches (caught_state t s) t') = mass_update (caches s t')
  ∧ hcache_close_running (caught_state t s) = hcache_close_running s
  ∧ host_low_on_pongs (caught_state t s) = host_low_on_pongs s
  ∧ drawn (caught_state t s) = drawn s.
Proof.
  unfold caught_state. destruct (reserve_of t); [|done].
  case_bool_decide; [|done]. apply moved_state_aux.
Qed.

(** A cache that is no cache of good hosts is left alone. *)
Lemma caught_state_other t s : is_good_type t = false → caught_state t s = s.
Proof. by destruct t. Qed.

Lemma caught_state_table_none t s c h :
  table_of s c !! h = None → table_of (caught_state t s) c !! h = None.
Proof.
  intros Hn. unfold caught_state.
  destruct (reserve_of t) as [from|] eqn:Hr; [|done].
  case_bool_decide as Hlen; [|done].
  destruct (decide (t = from)) as [->|Hne].
  - rewrite moved_state_self; [done|]. by apply length_zero_nil.
  - rewrite moved_state_table by done. rewrite Hn. by case_decide.
Qed.

(** *** [hcache_unlink_host] *)

(** The state that [hcache_unlink_host] leaves before it looks for a
    refill. *)
Definition unlinked_state (t : hcache_type_t) (h : gnet_host) (s : hstate)
    : hstate :=
  let s1 :=
    set_cache s t
      (set_hostlist (caches s t) (hash_list_remove (hosts_of s t) h)) in
  let s2 :=
    if bool_decide (mass_update (caches s1 t) = 0)
    then set_catcher s1 (hosts_in_catcher (caches s1 t))
           (to_guint (catcher s1 (hosts_in_catcher (caches s1 t)) - 1))
    else s1 in
  let s3 := set_cache s2 t (set_dirty (caches s2 t) true) in
  set_ht s3 (hcache_class t) (delete h (table_of s3 (hcache_class t))).

Lemma hcache_unlink_host_run t h s :
  h ∈ hosts_of s t →
  is_Some (table_of s (hcache_class t) !! h) →
  hcache_unlink_host t h s =
    Ok (tt, if hcache_close_running s then unlinked_state t h s
            else caught_state t (unlinked_state t h s)).
Proof.
  intros Hin [e He]. unfold hcache_unlink_host.
  unfold bind at 1. unfold get at 1.
  assert (Hlen : 0 < hash_list_length s t).
  { unfold hash_list_length. destruct (hosts_of s t); [|simpl; lia].
    by apply elem_of_nil in Hin. }
  unfold bind at 1. rewrite assert_run by (by apply bool_decide_eq_true_2).
  unfold bind at 1. rewrite assert_run by (by apply bool_decide_eq_true_2).
  unfold bind at 1. unfold update_cache at 1, modify.
  unfold bind at 1. unfold get at 1.
  set (s1 := set_cache s t _).
  assert (Hs2 :
    (if bool_decide (mass_update (caches s1 t) = 0)
     then gnet_prop_set_guint32_val (hosts_in_catcher (caches s1 t))
            (catcher s1 (hosts_in_catcher (caches s1 t)) - 1)
     else ret tt) s1 =
    Ok (tt, if bool_decide (mass_update (caches s1 t) = 0)
            then set_catcher s1 (hosts_in_catcher (caches s1 t))
                   (to_guint (catcher s1 (hosts_in_catcher (caches s1 t)) - 1))
            else s1)).
  { by case_bool_decide. }
  unfold bind at 1. rewrite Hs2.
  set (s2 := if bool_decide _ then _ else _).
  unfold bind at 1. unfold update_cache at 1, modify.
  set (s3 := set_cache s2 t _).
  assert (He3 : table_of s3 (hcache_class t) !! h = Some e).
  { unfold s3. rewrite table_set_cache. unfold s2.
    case_bool_decide; rewrite ?table_set_catcher; unfold s1;
      by rewrite table_set_cache. }
  unfold bind at 1. unfold hcache_ht_remove, bind at 1, get at 1.
  rewrite He3. unfold put.
  unfold bind at 1. unfold get at 1.
  assert (Hcl : hcache_close_running
                  (set_ht s3 (hcache_class t)
                     (delete h (table_of s3 (hcache_class t))))
                = hcache_close_running s).
  { simpl. unfold s2. by case_bool_decide. }
  rewrite Hcl. fold s1 in s2. unfold unlinked_state. fold s1 s2 s3.
  destruct (hcache_close_running s); [done|].
  unfold bind. by rewrite hcache_require_caught_run.
Qed.

Lemma caches_set_ht s c m : caches (set_ht s c m) = caches s.
Proof. done. Qed.

Lemma caches_if_catcher (b : bool) s p v :
  caches (if b then set_catcher s p v else s) = caches s.
Proof. by destruct b. Qed.

Lemma table_if_catcher (b : bool) s p v c :
  table_of (if b then set_catcher s p v else s) c = table_of s c.
Proof. destruct b; [apply table_set_catcher|done]. Qed.

Lemma unlinked_state_caches t h s t' :
  caches (unlinked_state t h s) t' =
    if decide (t' = t)
    then set_dirty (set_hostlist (caches s t)
                      (hash_list_remove (hosts_of s t) h)) true
    else caches s t'.
Proof.
  unfold unlinked_state.
  rewrite caches_set_ht, caches_set_cache, caches_if_catcher.
  rewrite !caches_set_cache.
  destruct (decide (t' = t)) as [->|Hne]; [|done].
  by rewrite decide_True.
Qed.

Lemma unlinked_state_hosts t h s t' :
  hosts_of (unlinked_state t h s) t' =
    if decide (t' = t) then hash_list_remove (hosts_of s t) h
    else hosts_of s t'.
Proof. rewrite unlinked_state_caches. by case_decide. Qed.

Lemma unlinked_state_table t h s c :
  table_of (unlinked_state t h s) c =
    if decide (c = hcache_class t) then delete h (table_of s c)
    else table_of s c.
Proof.
  unfold unlinked_state.
  destruct (decide (c = hcache_class t)) as [->|Hne].
  - by rewrite table_set_ht_same, table_set_cache, table_if_catcher,
      table_set_cache.
  - by rewrite table_set_ht_other, table_set_cache, table_if_catcher,
      table_set_cache.
Qed.

Lemma unlinked_state_aux t h s t' :
  mass_update (caches (unlinked_state t h s) t') = mass_update (caches s t')
  ∧ hcache_close_running (unlinked_state t h s) = hcache_close_running s
  ∧ host_low_on_pongs (unlinked_state t h s) = host_low_on_pongs s
  ∧ drawn (unlinked_state t h s) = drawn s.
Proof.
  rewrite unlinked_state_caches. split; [by case_decide; subst|].
  unfold unlinked_state. simpl. by case_bool_decide.
Qed.

Lemma unlinked_state_inv t h s :
  hc_inv s → h ∈ hosts_of s t → hc_inv (unlinked_state t h s).
Proof.
  intros Hinv Hht. split.
  - intros t'. rewrite unlinked_state_hosts. case_decide.
    + apply NoDup_hash_list_remove, (inv_nodup _ Hinv).
    + apply (inv_nodup _ Hinv).
  - intros t' h'. rewrite unlinked_state_hosts, unlinked_state_table.
    destruct (decide (t' = t)) as [->|Hne].
    + rewrite elem_of_hash_list_remove by apply (inv_nodup _ Hinv).
      intros [Hin Hh]. rewrite decide_True by done.
      rewrite lookup_delete_ne by done. by apply (inv_listed _ Hinv).
    + intros Hin. destruct (inv_listed _ Hinv _ _ Hin) as (e & He & Hty).
      exists e. split; [|done]. case_decide as Hc; [|done].
      rewrite lookup_delete_ne; [done|]. intros <-.
      apply Hne. by apply (hc_inv_one_list s t' t h).
  - intros c h' e. rewrite unlinked_state_table, unlinked_state_hosts.
    destruct (decide (c = hcache_class t)) as [->|Hc].
    + intros Hl. apply lookup_delete_Some in Hl as [Hh He].
      destruct (inv_known _ Hinv _ _ _ He) as [Hcl Hin].
      split; [done|]. case_decide as Ht; [|done].
      rewrite elem_of_hash_list_remove by apply (inv_nodup _ Hinv).
      rewrite <- Ht. done.
    + intros He. destruct (inv_known _ Hinv _ _ _ He) as [Hcl Hin].
      split; [done|]. rewrite decide_False; [done|]. intros Ht.
      apply Hc. rewrite <- Hcl, Ht. done.
  - intros t'. destruct (unlinked_state_aux t h s t') as [-> _].
    apply (inv_mass _ Hinv).
Qed.

(** The state that [hcache_unlink_host] leaves. *)
Definition removed_state (t : hcache_type_t) (h : gnet_host) (s : hstate)
    : hstate :=
  if hcache_close_running s then unlinked_state t h s
  else caught_state t (unlinked_state t h s).

Lemma removed_state_aux t h s t' :
  mass_update (caches (removed_state t h s) t') = mass_update (caches s t')
  ∧ hcache_close_running (removed_state t h s) = hcache_close_running s
  ∧ host_low_on_pongs (removed_state t h s) = host_low_on_pongs s
  ∧ drawn (removed_state t h s) = drawn s.
Proof.
  unfold removed_state.
  destruct (unlinked_state_aux t h s t') as (H1 & H2 & H3 & H4).
  destruct (hcache_close_running s); [done|].
  destruct (caught_state_aux t (unlinked_state t h s) t')
    as (-> & -> & -> & ->).
  done.
Qed.

(** A cache that gets no refill just loses the host. *)
Lemma removed_state_plain t h s :
  is_good_type t = false ∨ hcache_close_running s = true →
  removed_state t h s = unlinked_state t h s.
Proof.
  unfold removed_state. intros [Ht| ->]; [|done].
  destruct (hcache_close_running s); [done|]. by apply caught_state_other.
Qed.

Lemma hcache_unlink_host_spec t h s :
  hc_inv s → h ∈ hosts_of s t →
  hcache_unlink_host t h s = Ok (tt, removed_state t h s)
  ∧ hc_inv (removed_state t h s)
  ∧ table_of (removed_state t h s) (hcache_class t) !! h = None.
Proof.
  intros Hinv Hin.
  destruct (inv_listed _ Hinv _ _ Hin) as (e & He & _).
  split; [by apply hcache_unlink_host_run|].
  pose proof (unlinked_state_inv t h s Hinv Hin) as Hinv1.
  assert (Hn : table_of (unlinked_state t h s) (hcache_class t) !! h = None).
  { rewrite unlinked_state_table, decide_True by done.
    apply lookup_delete_eq. }
  unfold removed_state. destruct (hcache_close_running s); [done|].
  split; [by apply caught_state_inv|by apply caught_state_table_none].
Qed.

Lemma hcache_remove_run class h s e :
  hc_inv s → table_of s class !! h = Some e →
  hcache_remove class h s = Ok (tt, removed_state (hce_type e) h s).
Proof.
  intros Hinv He. unfold hcache_remove, hcache_get_metadata. mstep.
  rewrite He.
  destruct (inv_known _ Hinv _ _ _ He) as [_ Hin].
  by apply hcache_unlink_host_spec.
Qed.

(** Removing a host that is on the list of the cache [t]. *)
Lemma hcache_remove_listed t h s :
  hc_inv s → h ∈ hosts_of s t →
  hcache_remove (hcache_class t) h s = Ok (tt, removed_state t h s)
  ∧ hc_inv (removed_state t h s).
Proof.
  intros Hinv Hin.
  destruct (inv_listed _ Hinv _ _ Hin) as (e & He & Hty).
  rewrite (hcache_remove_run _ _ _ e) by done. rewrite Hty.
  split; [done|]. by apply hcache_unlink_host_spec.
Qed.

(** *** Random draws *)

Section WithEnv.
Context (env : henv).

(** The state after a call of [random_u32()]. *)
Definition drew (s : hstate) : hstate :=
  set_misc s (host_low_on_pongs s) (stats_already_connected s)
    (stats_invalid_host s) (stats_local_instance s) (S (drawn s)) (woken s).

(** The value that the next call of [random_u32()] yields. *)
Definition next_random (s : hstate) : Z :=
  random_source env (drawn s) mod 2 ^ 32.

Lemma random_u32_run s : random_u32 env s = Ok (next_random s, drew s).
Proof. done. Qed.

Lemma hc_inv_set_misc s low sc si sl d w :
  hc_inv s → hc_inv (set_misc s low sc si sl d w).
Proof.
  apply hc_inv_ext; [done| |done]. intros c. apply table_set_misc.
Qed.

(** *** [hcache_prune] *)

Lemma hcache_prune_victim_run t s :
  ∃ v s',
    hcache_prune_victim env t s = Ok (v, s')
    ∧ (s' = s ∨ s' = drew s)
    ∧ (∀ h, v = Some h → h ∈ hosts_of s t)
    ∧ (v = None → hosts_of s t = []).
Proof.
  unfold hcache_prune_victim, bind.
  assert (Hlast : ∀ h, last (hosts_of s t) = Some h → h ∈ hosts_of s t).
  { intros h [l ->]%last_Some. set_solver. }
  assert (Hnone : last (hosts_of s t) = None → hosts_of s t = []).
  { apply last_None. }
  case_bool_decide as Hg; [rewrite random_u32_run|]; unfold ret, get.
  - case_bool_decide as Hr.
    + eexists _, _. split; [done|]. split; [by right|].
      change (hosts_of (drew s) t) with (hosts_of s t).
      destruct (hosts_of s t) as [|x l] eqn:Hl; simpl; [done|].
      rewrite decide_True by done.
      destruct l as [|y l]; simpl; (split; [|done]);
        intros h [= <-]; set_solver.
    + eexists _, _. split; [done|]. split; [by right|].
      change (hosts_of (drew s) t) with (hosts_of s t). done.
  - eexists _, _. split; [done|]. split; [by left|]. done.
Qed.

Lemma hcache_prune_loop_total n t s :
  hc_inv s →
  ∃ s', hcache_prune_loop env n t s = Ok (tt, s')
    ∧ hc_inv s'
    ∧ (∀ t', mass_update (caches s' t') = mass_update (caches s t'))
    ∧ host_low_on_pongs s' = host_low_on_pongs s.
Proof.
  revert s. induction n as [|n IH]; intros s Hinv; simpl.
  { by exists s. }
  destruct (hcache_prune_victim_run t s) as (v & s1 & Hv & Hs1 & Hin & _).
  rewrite (bind_run _ _ _ _ _ Hv).
  assert (Hinv1 : hc_inv s1).
  { destruct Hs1 as [->| ->]; [done|]. by apply hc_inv_set_misc. }
  assert (Hsame : ∀ t', caches s1 t' = caches s t').
  { destruct Hs1 as [->| ->]; done. }
  assert (Hlow : host_low_on_pongs s1 = host_low_on_pongs s).
  { destruct Hs1 as [->| ->]; done. }
  destruct v as [h|]; [|exists s1; split; [done|]; split; [done|];
                         split; [intros t'; by rewrite Hsame|done]].
  assert (Hh : h ∈ hosts_of s1 t) by (rewrite Hsame; by apply Hin).
  destruct (hcache_remove_listed t h s1 Hinv1 Hh) as [Hrm Hinv2].
  rewrite (bind_run _ _ _ _ _ Hrm).
  destruct (IH _ Hinv2) as (s' & -> & Hinv' & Hm & Hl).
  exists s'. split; [done|]. split; [done|]. split.
  - intros t'. rewrite Hm.
    destruct (removed_state_aux t h s1 t') as [-> _]. by rewrite Hsame.
  - rewrite Hl. destruct (removed_state_aux t h s1 t) as (_ & _ & -> & _).
    done.
Qed.

Lemma hcache_prune_total type s :
  hc_inv s →
  ∃ s', hcache_prune env type s = Ok (tt, s')
    ∧ hc_inv s'
    ∧ host_low_on_pongs s' = host_low_on_pongs s
    ∧ (0 ≤ hcache_slots_left env s (half_prune s type) → s' = s).
Proof.
  intros Hinv. unfold hcache_prune. unfold bind at 1, get at 1.
  set (hc := half_prune s type).
  case_bool_decide as Hextra.
  { exists s. done. }
  unfold bind at 1. unfold start_mass_update, update_cache, modify.
  set (s1 := set_cache s hc _).
  assert (Hinv1 : hc_inv s1).
  { apply hc_inv_set_cache; [done| |done]. simpl.
    pose proof (inv_mass _ Hinv hc). lia. }
  unfold bind at 1. rewrite hcache_require_caught_run.
  pose proof (caught_state_inv hc s1 Hinv1) as Hinv2.
  destruct (hcache_prune_loop_total
              (Z.to_nat (- hcache_slots_left env s hc)) hc _ Hinv2)
    as (s3 & Hloop & Hinv3 & Hm & Hl).
  unfold bind at 1. rewrite Hloop.
  assert (Hmass : mass_update (caches s3 hc) = mass_update (caches s hc) + 1).
  { rewrite Hm. destruct (caught_state_aux hc s1 hc) as [-> _].
    unfold s1. rewrite caches_set_cache, decide_True by done. done. }
  unfold stop_mass_update. unfold bind at 1, get at 1.
  pose proof (inv_mass _ Hinv hc) as Hm0.
  unfold bind at 1. rewrite assert_run by (apply bool_decide_eq_true_2; lia).
  unfold bind at 1. unfold update_cache at 1, modify.
  unfold bind at 1, get at 1.
  set (s4 := set_cache s3 hc _).
  assert (Hinv4 : hc_inv s4).
  { apply hc_inv_set_cache; [done| |done]. simpl. lia. }
  assert (Hl4 : host_low_on_pongs s4 = host_low_on_pongs s).
  { change (host_low_on_pongs s4) with (host_low_on_pongs s3). rewrite Hl.
    by destruct (caught_state_aux hc s1 hc) as (_ & _ & -> & _). }
  case_bool_decide.
  - eexists. split; [done|]. split; [|split; [done|lia]].
    revert Hinv4. apply hc_inv_ext; [done| |done].
    intros c. apply table_set_catcher.
  - exists s4. split; [done|]. split; [done|]. split; [done|lia].
Qed.

(** *** The slot filter *)

(** What [hcache_request_slot] answers, given the value [r] that
    [random_u32()] would draw. *)
Definition slot_granted (s : hstate) (type : hcache_type_t) (r : Z) : bool :=
  let limit := to_guint (hcache_slots_max env type) in
  let left := to_guint (hcache_slots_left env s type) in
  bool_decide (0 < limit) && bool_decide (0 < left)
  && (bool_decide (limit / 2 < left) || bool_decide (r mod limit < left)).

Lemma slot_granted_ext s s' type r :
  (∀ t, caches s' t = caches s t) →
  slot_granted s' type r = slot_granted s type r.
Proof.
  intros Hc. unfold slot_granted, hcache_slots_left, hcache_size,
    hash_list_length.
  by rewrite !Hc.
Qed.

Lemma hcache_request_slot_run type s :
  ∃ s', hcache_request_slot env type s
          = Ok (slot_granted s type (next_random s), s')
    ∧ (s' = s ∨ s' = drew s).
Proof.
  unfold hcache_request_slot, slot_granted. mstep.
  destruct (bool_decide (0 < to_guint (hcache_slots_max env type)));
    cbn [andb orb]; [|by exists s; split; [|left]].
  destruct (bool_decide (0 < to_guint (hcache_slots_left env s type)));
    cbn [andb orb]; [|by exists s; split; [|left]].
  case_bool_decide; cbn [andb orb]; [by exists s; split; [|left]|].
  rewrite random_u32_run. exists (drew s). split; [done|by right].
Qed.

(** *** A new host *)

Lemma hc_inv_insert s t h e :
  hc_inv s → table_of s (hcache_class t) !! h = None → hce_type e = t →
  hc_inv
    (set_cache
       (set_ht s (hcache_class t) (<[h := e]> (table_of s (hcache_class t))))
       t (set_hostlist (caches s t) (h :: hosts_of s t))).
Proof.
  intros Hinv Hn Hty.
  assert (Hnl : ∀ t', hcache_class t' = hcache_class t → h ∉ hosts_of s t').
  { intros t' Hc Hin. destruct (inv_listed _ Hinv _ _ Hin) as (e' & He' & _).
    rewrite Hc in He'. congruence. }
  split.
  - intros t'. rewrite caches_set_cache. case_decide as Hd.
    + simpl. apply NoDup_cons. split; [by apply Hnl|apply (inv_nodup _ Hinv)].
    + apply (inv_nodup _ Hinv).
  - intros t' h'. rewrite caches_set_cache, table_set_cache.
    destruct (decide (hcache_class t' = hcache_class t)) as [Hc|Hc].
    + rewrite Hc, table_set_ht_same.
      destruct (decide (h' = h)) as [->|Hh].
      * rewrite lookup_insert_eq. case_decide as Hd; [subst t'; by eexists|].
        intros Hin. by apply Hnl in Hin.
      * rewrite lookup_insert_ne by done. rewrite <- Hc.
        case_decide as Hd; simpl.
        -- subst t'. intros [?|Hin]%elem_of_cons; [done|].
           by apply (inv_listed _ Hinv).
        -- apply (inv_listed _ Hinv).
    + rewrite table_set_ht_other by done.
      rewrite decide_False by (by intros ->). apply (inv_listed _ Hinv).
  - intros c h' e'. rewrite caches_set_cache, table_set_cache.
    destruct (decide (c = hcache_class t)) as [->|Hc].
    + rewrite table_set_ht_same.
      destruct (decide (h' = h)) as [->|Hh].
      * rewrite lookup_insert_eq. intros [= <-]. rewrite Hty.
        split; [done|]. rewrite decide_True by done. simpl. set_solver.
      * rewrite lookup_insert_ne by done. intros He'.
        destruct (inv_known _ Hinv _ _ _ He') as [? ?]. split; [done|].
        case_decide as Hd; [|done]. rewrite Hd in *. simpl. set_solver.
    + rewrite table_set_ht_other by done. intros He'.
      destruct (inv_known _ Hinv _ _ _ He') as [Hcl ?]. split; [done|].
      rewrite decide_False; [done|]. intros Hd. apply Hc.
      by rewrite <- Hcl, Hd.
  - intros t'. rewrite caches_set_cache. case_decide; simpl;
      apply (inv_mass _ Hinv).
Qed.

(** The state when the waiters have been told about a new host. *)
Definition told (type : hcache_type_t) (addr port : Z) (s : hstate)
    : hstate :=
  set_misc s (host_low_on_pongs s) (stats_already_connected s)
    (stats_invalid_host s) (stats_local_instance s) (drawn s)
    ({| nh_type := type; nh_addr := addr; nh_port := port |} :: woken s).

Lemma runs_set_catcher_if (b : bool) p v s (Q : unit → hstate → Prop) :
  (∀ s', (∀ t, caches s' t = caches s t) →
         (∀ c, table_of s' c = table_of s c) →
         host_low_on_pongs s' = host_low_on_pongs s →
         Q tt s') →
  runs (if b then gnet_prop_set_guint32_val p v else ret tt) s Q.
Proof.
  intros HQ. destruct b.
  - apply runs_modify, HQ; [done| |done]. intros c. apply table_set_catcher.
  - apply runs_ret, HQ; done.
Qed.

Lemma runs_request_slot type s (Q : bool → hstate → Prop) :
  (∀ s', s' = s ∨ s' = drew s → Q (slot_granted s type (next_random s)) s') →
  runs (hcache_request_slot env type) s Q.
Proof.
  intros HQ. destruct (hcache_request_slot_run type s) as (s' & Hr & Hs').
  eapply runs_eq; [done|]. by apply HQ.
Qed.

Lemma runs_prune type s (Q : unit → hstate → Prop) :
  hc_inv s →
  (∀ s', hc_inv s' → host_low_on_pongs s' = host_low_on_pongs s →
         (0 ≤ hcache_slots_left env s (half_prune s type) → s' = s) →
         Q tt s') →
  runs (hcache_prune env type) s Q.
Proof.
  intros Hinv HQ.
  destruct (hcache_prune_total type s Hinv) as (s' & Hr & Hinv' & Hl & Hs).
  eapply runs_eq; [done|]. by apply HQ.
Qed.

Lemma slots_left_half_prune s type :
  hcache_slots_left env s (half_prune s type) = hcache_slots_left env s type.
Proof.
  unfold half_prune. destruct type; try done; case_bool_decide; done.
Qed.

Lemma slots_left_after_insert s s' type h :
  hosts_of s' type = h :: hosts_of s type →
  (∀ t, t ≠ type → hosts_of s' t = hosts_of s t) →
  hcache_slots_left env s' type = hcache_slots_left env s type - 1.
Proof.
  intros Hl Ho.
  unfold hcache_slots_left, hcache_size, hash_list_length.
  destruct type; rewrite Hl, ?Ho by done; simpl length; lia.
Qed.

(** What [s'] holds when the host [h] has been stored in the cache [type]
    from the state [s], at the time [tm]. *)
Definition stored (type : hcache_type_t) (h : gnet_host) (tm : Z)
    (s s' : hstate) : Prop :=
  hosts_of s' type = h :: hosts_of s type
  ∧ (∀ t, t ≠ type → hosts_of s' t = hosts_of s t)
  ∧ (∀ c, table_of s' c =
            if decide (c = hcache_class type)
            then <[h := {| hce_type := type; time_added := tm |}]>
                   (table_of s c)
            else table_of s c).

Lemma stored_ext type h tm s s1 s2 :
  (∀ t, hosts_of s2 t = hosts_of s1 t) →
  (∀ c, table_of s2 c = table_of s1 c) →
  stored type h tm s s1 → stored type h tm s s2.
Proof.
  intros Hl Ht (H1 & H2 & H3). split; [by rewrite Hl|]. split.
  - intros t Hne. rewrite Hl. by apply H2.
  - intros c. rewrite Ht. apply H3.
Qed.

Lemma hcache_add_new_total type tm addr port s :
  hc_inv s →
  table_of s (hcache_class type) !! (addr, port) = None →
  runs (hcache_add_new env type tm addr port) s (λ b s',
    b = true ∧ hc_inv s'
    ∧ (slot_granted s type (next_random s) = false →
       (∀ t, caches s' t = caches s t)
       ∧ (∀ c, table_of s' c = table_of s c))
    ∧ (slot_granted s type (next_random s) = true →
       0 < hcache_slots_left env s type →
       stored type (addr, port) tm s s')).
Proof.
  intros Hinv Hn. unfold hcache_add_new.
  apply runs_bind, runs_modify. fold (told type addr port s).
  apply runs_bind, runs_request_slot. intros s1 Hs1.
  change (slot_granted (told type addr port s) type
            (next_random (told type addr port s)))
    with (slot_granted s type (next_random s)).
  assert (Hinv1 : hc_inv s1).
  { destruct Hs1 as [->| ->]; repeat apply hc_inv_set_misc; done. }
  assert (Hc1 : ∀ t, caches s1 t = caches s t).
  { destruct Hs1 as [->| ->]; done. }
  assert (Ht1 : ∀ c, table_of s1 c = table_of s c).
  { destruct Hs1 as [->| ->]; intros []; done. }
  clear Hs1.
  destruct (slot_granted s type (next_random s)) eqn:Hg; cbn [negb].
  2:{ apply runs_ret. done. }
  apply runs_bind. unfold hcache_ht_add.
  apply runs_bind, runs_modify, runs_ret.
  apply runs_bind, runs_update_cache.
  match goal with |- runs _ ?st _ => set (s3 := st) end.
  assert (Hinv3 : hc_inv s3).
  { unfold s3. rewrite caches_set_ht.
    apply hc_inv_insert; [done| |done]. by rewrite Ht1. }
  assert (Hst3 : stored type (addr, port) tm s s3).
  { unfold s3. split; [|split].
    - rewrite caches_set_cache, decide_True by done. simpl.
      by rewrite Hc1.
    - intros t Hne. rewrite caches_set_cache, decide_False by done.
      simpl. by rewrite Hc1.
    - intros c. rewrite table_set_cache. case_decide as Hc.
      + by rewrite Hc, table_set_ht_same, Ht1.
      + by rewrite table_set_ht_other, Ht1. }
  clearbody s3.
  apply runs_bind, runs_update_cache.
  match goal with |- runs _ ?st _ => set (s4 := st) end.
  assert (Hinv4 : hc_inv s4).
  { apply hc_inv_set_cache; [done|apply (inv_mass _ Hinv3)|done]. }
  assert (Hst4 : stored type (addr, port) tm s s4).
  { revert Hst3. apply stored_ext.
    - intros t. unfold s4. rewrite caches_set_cache.
      by case_decide as Hd; [rewrite Hd|].
    - intros c. apply table_set_cache. }
  clearbody s4.
  apply runs_bind, runs_update_cache.
  match goal with |- runs _ ?st _ => set (s5 := st) end.
  assert (Hinv5 : hc_inv s5).
  { apply hc_inv_set_cache; [done|apply (inv_mass _ Hinv4)|done]. }
  assert (Hst5 : stored type (addr, port) tm s s5).
  { revert Hst4. apply stored_ext.
    - intros t. unfold s5. rewrite caches_set_cache.
      by case_decide as Hd; [rewrite Hd|].
    - intros c. apply table_set_cache. }
  clearbody s5.
  apply runs_bind, runs_get.
  apply runs_bind, runs_set_catcher_if. intros s6 Hc6 Ht6 _.
  assert (Hinv6 : hc_inv s6).
  { revert Hinv5. apply hc_inv_ext; [|done|]; intros t; by rewrite Hc6. }
  assert (Hst6 : stored type (addr, port) tm s s6).
  { revert Hst5. apply stored_ext; [|done]. intros t. by rewrite Hc6. }
  apply runs_bind, runs_prune; [done|]. intros s7 Hinv7 _ Hs7.
  apply runs_bind. unfold hcache_update_low_on_pongs.
  apply runs_modify, runs_ret.
  split; [done|]. split; [by apply hc_inv_set_misc|]. split; [done|].
  intros _ Hroom.
  rewrite Hs7.
  - revert Hst6. apply stored_ext; [done|]. intros c. apply table_set_misc.
  - rewrite slots_left_half_prune.
    destruct Hst6 as (Hl & Ho & _).
    rewrite (slots_left_after_insert s s6 type (addr, port)) by done. lia.
Qed.

(** *** A known host *)

(** A host that changes lists within its class. *)
Lemma hc_inv_moved s s' from to h e' :
  hc_inv s → h ∈ hosts_of s from → from ≠ to →
  hcache_class from = hcache_class to → hce_type e' = to →
  (∀ t, hosts_of s' t =
          if decide (t = to) then h :: hosts_of s to
          else if decide (t = from) then hash_list_remove (hosts_of s from) h
          else hosts_of s t) →
  (∀ c, table_of s' c =
          if decide (c = hcache_class to) then <[h := e']> (table_of s c)
          else table_of s c) →
  (∀ t, mass_update (caches s' t) = mass_update (caches s t)) →
  hc_inv s'.
Proof.
  intros Hinv Hin Hne Hcl Hty Hl Ht Hm.
  assert (Hnto : h ∉ hosts_of s to).
  { intros Hin'. apply Hne. by apply (hc_inv_one_list s from to h). }
  split.
  - intros t. rewrite Hl. repeat case_decide.
    + apply NoDup_cons. split; [done|apply (inv_nodup _ Hinv)].
    + apply NoDup_hash_list_remove, (inv_nodup _ Hinv).
    + apply (inv_nodup _ Hinv).
  - intros t h'. rewrite Hl, Ht.
    destruct (decide (t = to)) as [->|Hto].
    + rewrite decide_True by done.
      intros [->|Hin']%elem_of_cons.
      * rewrite lookup_insert_eq. by eexists.
      * rewrite lookup_insert_ne by (intros <-; done).
        by apply (inv_listed _ Hinv).
    + destruct (decide (t = from)) as [->|Hfrom].
      * rewrite elem_of_hash_list_remove by apply (inv_nodup _ Hinv).
        intros [Hin' Hh]. rewrite Hcl, decide_True by done.
        rewrite lookup_insert_ne by done. rewrite <- Hcl.
        by apply (inv_listed _ Hinv).
      * intros Hin'. destruct (inv_listed _ Hinv _ _ Hin') as (e & He & Hte).
        exists e. split; [|done]. case_decide as Hc; [|done].
        rewrite lookup_insert_ne; [done|]. intros <-.
        apply Hfrom. apply (hc_inv_one_list s t from h); try done.
        by rewrite Hc.
  - intros c h' e. rewrite Ht, Hl.
    destruct (decide (c = hcache_class to)) as [->|Hc].
    + destruct (decide (h' = h)) as [->|Hh].
      * rewrite lookup_insert_eq. intros [= <-]. rewrite Hty.
        split; [done|]. rewrite decide_True by done. set_solver.
      * rewrite lookup_insert_ne by done. intros He.
        destruct (inv_known _ Hinv _ _ _ He) as [Hce Hin']. split; [done|].
        repeat case_decide.
        -- apply elem_of_cons. right. congruence.
        -- rewrite elem_of_hash_list_remove by apply (inv_nodup _ Hinv).
           split; [congruence|done].
        -- done.
    + intros He. destruct (inv_known _ Hinv _ _ _ He) as [Hce Hin'].
      split; [done|].
      rewrite decide_False by (intros Hd; apply Hc; by rewrite <- Hce, Hd).
      rewrite decide_False; [done|].
      intros Hd; apply Hc. by rewrite <- Hce, Hd, Hcl.
  - intros t. rewrite Hm. apply (inv_mass _ Hinv).
Qed.

(** The state when the hit on the cache [type] has been counted. *)
Definition hit (type : hcache_type_t) (s : hstate) : hstate :=
  set_cache s type (set_hits (caches s type) (hits (caches s type) + 1)).

Lemma hit_inv type s : hc_inv s → hc_inv (hit type s).
Proof.
  intros Hinv. apply hc_inv_set_cache; [done|apply (inv_mass _ Hinv)|done].
Qed.

Lemma hcache_add_known_total type added h e s :
  hc_inv s →
  table_of s (hcache_class type) !! h = Some e →
  runs (hcache_add_known type added h e) s (λ b s',
    b = true ∧ hc_inv s'
    ∧ (hcache_class type = HCACHE_CLASS_GUESS →
       s' = removed_state (hce_type e) h (hit type s))).
Proof.
  intros Hinv He. unfold hcache_add_known.
  apply runs_bind, runs_update_cache. fold (hit type s).
  pose proof (hit_inv type s Hinv) as Hinv0.
  destruct (inv_known _ Hinv _ _ _ He) as [Hcl Hin].
  assert (Hin0 : h ∈ hosts_of (hit type s) (hce_type e)).
  { unfold hit. rewrite caches_set_cache. by case_decide as Hd; [rewrite Hd in *|]. }
  assert (Hmove : hce_type e ≠ type →
    hcache_class type = HCACHE_CLASS_HOST →
    runs
      (do s0 <- get;
       run assert (bool_decide (h ∈ hosts_of s0 (hce_type e)));
       run update_cache (hce_type e)
             (λ hc, set_hostlist hc (hash_list_remove (hostlist hc) h));
       run update_cache type (λ hc, set_hostlist hc (h :: hostlist hc));
       run update_cache type (λ hc, set_dirty hc true);
       run update_cache (hce_type e) (λ hc, set_dirty hc true);
       run modify (λ s0, set_ht s0 (hcache_class type)
                           (<[h := {| hce_type := type; time_added := added |}]>
                              (table_of s0 (hcache_class type))));
       ret true) (hit type s)
      (λ b s', b = true ∧ hc_inv s'
         ∧ (hcache_class type = HCACHE_CLASS_GUESS →
            s' = removed_state (hce_type e) h (hit type s)))).
  { intros Hne Hhost. apply runs_bind, runs_get.
    apply runs_bind, runs_assert; [by apply bool_decide_eq_true_2|].
    do 4 apply runs_bind, runs_update_cache.
    apply runs_bind, runs_modify, runs_ret.
    split; [done|]. split.
    - eapply (hc_inv_moved (hit type s) _ (hce_type e) type h
                {| hce_type := type; time_added := added |});
        [done|done|done|done|done| | |].
      + intros t. rewrite caches_set_ht, !caches_set_cache.
        repeat case_decide; subst; try done.
      + intros c. destruct (decide (c = hcache_class type)) as [->|Hc].
        * by rewrite table_set_ht_same, !table_set_cache.
        * by rewrite table_set_ht_other, !table_set_cache.
      + intros t. rewrite caches_set_ht, !caches_set_cache.
        repeat case_decide; subst; try done.
    - intros Hg. congruence. }
  assert (Htrue : hcache_class type = HCACHE_CLASS_HOST →
    runs (ret true) (hit type s)
      (λ b s', b = true ∧ hc_inv s'
         ∧ (hcache_class type = HCACHE_CLASS_GUESS →
            s' = removed_state (hce_type e) h (hit type s)))).
  { intros Hhost. apply runs_ret. split; [done|]. split; [done|].
    intros Hg. congruence. }
  assert (Hsmear : hcache_class type = HCACHE_CLASS_GUESS →
    runs (run hcache_unlink_host (hce_type e) h; ret true) (hit type s)
      (λ b s', b = true ∧ hc_inv s'
         ∧ (hcache_class type = HCACHE_CLASS_GUESS →
            s' = removed_state (hce_type e) h (hit type s)))).
  { intros Hg.
    destruct (hcache_unlink_host_spec (hce_type e) h _ Hinv0 Hin0)
      as (Hrun & Hinv' & _).
    apply runs_bind. eapply runs_eq; [done|]. apply runs_ret. done. }
  destruct type; try (by apply Htrue); try (by apply Hsmear);
    destruct (hce_type e) eqn:Hte; try (by apply Htrue);
    apply Hmove; done.
Qed.

(** *** The admission checks *)

(** Whether a port calls for the random veto. *)
Definition port_suspect (s : hstate) (port : Z) : bool :=
  bool_decide (6346 ≤ port) && bool_decide (port ≤ 6350)
  && negb (host_low_on_pongs s).

(** The port heuristic: rejects a suspect port when the random byte is
    above 31. *)
Definition port_vetoed (s : hstate) (port : Z) : bool :=
  port_suspect s port && bool_decide (31 < Z.land (next_random s) 0xff).

(** The sanity checks of the admission, in the order of the spec:
    host getting is not stopped; the unstable cache is only fed when
    unstable hosts are monitored and pongs are not low; the host is not this
    node; for the four good caches, the host is not connected; the address
    is routable, or the cache only keeps addresses and the port is valid;
    the address is neither bogus nor hostile; the port heuristic passes. *)
Definition sanity_checks_pass (s : hstate) (type : hcache_type_t)
    (addr port : Z) : bool :=
  negb (stop_host_get env)
  && (negb (bool_decide (type = HCACHE_UNSTABLE))
      || (node_monitor_unstable_ip env && negb (host_low_on_pongs s)))
  && negb (is_my_address_and_port env addr port)
  && (negb (is_good_type type) || negb (node_host_is_connected env addr port))
  && (host_addr_is_routable env addr
      || (addr_only (caches s type) && port_is_valid env port))
  && negb (bogons_check env addr)
  && negb (hostiles_check env addr)
  && negb (port_vetoed s port).

(** The state when the port heuristic has been through. *)
Definition after_port_check (s : hstate) (port : Z) : hstate :=
  if port_suspect s port then drew s else s.

(** What a call of [hcache_add] from the state [s] yields. *)
Definition add_outcome (type : hcache_type_t) (tm addr port : Z) (s : hstate)
    (b : bool) (s' : hstate) : Prop :=
  b = sanity_checks_pass s type addr port
  ∧ hc_inv s'
  ∧ (b = true →
     let s1 := after_port_check s port in
     match table_of s (hcache_class type) !! (addr, port) with
     | Some e =>
         hcache_class type = HCACHE_CLASS_GUESS →
         s' = removed_state (hce_type e) (addr, port) (hit type s1)
     | None =>
         (slot_granted s type (next_random s1) = false →
          (∀ t, hosts_of s' t = hosts_of s t)
          ∧ (∀ c, table_of s' c = table_of s c))
         ∧ (slot_granted s type (next_random s1) = true →
            0 < hcache_slots_left env s type →
            stored type (addr, port) tm s s')
     end).

Lemma hcache_add_runs type tm addr port s :
  hc_inv s →
  runs (hcache_add env type tm addr port) s (add_outcome type tm addr port s).
Proof.
  intros Hinv.
  unfold hcache_add, hcache_add_internal, add_outcome, sanity_checks_pass.
  apply runs_bind, runs_get.
  destruct (stop_host_get env); cbn [negb andb].
  { by apply runs_ret. }
  destruct (bool_decide (type = HCACHE_UNSTABLE)
            && (negb (node_monitor_unstable_ip env) || host_low_on_pongs s))
    eqn:Hunst.
  { apply runs_ret.
    apply andb_true_iff in Hunst as [-> Hor]. cbn [negb orb].
    destruct (node_monitor_unstable_ip env), (host_low_on_pongs s); done. }
  assert (Hu : negb (bool_decide (type = HCACHE_UNSTABLE))
               || node_monitor_unstable_ip env && negb (host_low_on_pongs s)
               = true).
  { destruct (bool_decide (type = HCACHE_UNSTABLE)); [|done].
    destruct (node_monitor_unstable_ip env), (host_low_on_pongs s); done. }
  rewrite Hu. cbn [andb]. clear Hunst Hu.
  destruct (is_my_address_and_port env addr port); cbn [negb andb].
  { apply runs_bind, runs_modify, runs_ret.
    split; [done|]. split; [by apply hc_inv_set_misc|done]. }
  destruct (is_good_type type && node_host_is_connected env addr port)
    eqn:Hconn.
  { apply runs_bind, runs_modify, runs_ret.
    apply andb_true_iff in Hconn as [-> ->].
    split; [done|]. split; [by apply hc_inv_set_misc|done]. }
  assert (Hc : negb (is_good_type type)
               || negb (node_host_is_connected env addr port) = true).
  { destruct (is_good_type type), (node_host_is_connected env addr port);
      done. }
  rewrite Hc. cbn [andb]. clear Hconn Hc.
  destruct (negb (host_addr_is_routable env addr)
            && (negb (addr_only (caches s type))
                || negb (port_is_valid env port))) eqn:Hroute.
  { apply runs_bind, runs_modify, runs_ret.
    split; [|split; [by apply hc_inv_set_misc|]].
    - destruct (host_addr_is_routable env addr),
        (addr_only (caches s type)), (port_is_valid env port); done.
    - destruct (host_addr_is_routable env addr),
        (addr_only (caches s type)), (port_is_valid env port); done. }
  assert (Hr : host_addr_is_routable env addr
               || addr_only (caches s type) && port_is_valid env port = true).
  { destruct (host_addr_is_routable env addr),
      (addr_only (caches s type)), (port_is_valid env port); done. }
  rewrite Hr. cbn [andb]. clear Hroute Hr.
  destruct (bogons_check env addr); cbn [negb andb orb].
  { apply runs_bind, runs_modify, runs_ret.
    split; [done|]. split; [by apply hc_inv_set_misc|done]. }
  destruct (hostiles_check env addr); cbn [negb andb orb].
  { apply runs_bind, runs_modify, runs_ret.
    split; [done|]. split; [by apply hc_inv_set_misc|done]. }
  apply runs_bind.
  unfold port_vetoed, after_port_check. fold (port_suspect s port).
  set (Q := λ (vetoed : bool) (s1 : hstate), _).
  assert (Hveto : ∀ v s1,
    v = port_vetoed s port → s1 = after_port_check s port → Q v s1).
  2:{ unfold port_vetoed, after_port_check in Hveto.
      destruct (port_suspect s port).
      - apply runs_bind. eapply runs_eq; [apply random_u32_run|].
        apply runs_ret. by apply Hveto.
      - apply runs_ret. by apply Hveto. }
  intros v s1 -> ->. unfold Q. clear Q.
  unfold port_vetoed, after_port_check.
  set (s1 := if port_suspect s port then drew s else s).
  assert (Hinv1 : hc_inv s1).
  { unfold s1. destruct (port_suspect s port); [|done].
    by apply hc_inv_set_misc. }
  assert (Hc1 : ∀ t, caches s1 t = caches s t).
  { unfold s1. by destruct (port_suspect s port). }
  assert (Ht1 : ∀ c, table_of s1 c = table_of s c).
  { unfold s1. destruct (port_suspect s port); intros []; done. }
  destruct (port_suspect s port && bool_decide (31 < Z.land (next_random s) 255));
    cbn [negb].
  { by apply runs_ret. }
  apply runs_bind. unfold hcache_ht_get.
  apply runs_bind, runs_get, runs_ret.
  rewrite Ht1.
  destruct (table_of s (hcache_class type) !! (addr, port)) as [e|] eqn:He.
  - eapply runs_mono;
      [apply (hcache_add_known_total type tm (addr, port) e s1 Hinv1);
       by rewrite Ht1|].
    intros b s' (-> & Hinv' & Hg). done.
  - eapply runs_mono;
      [apply (hcache_add_new_total type tm addr port s1 Hinv1);
       by rewrite Ht1|].
    intros b s' (-> & Hinv' & Hrej & Hsto). split; [done|]. split; [done|].
    intros _. rewrite (slot_granted_ext s s1) in Hrej, Hsto by done. split.
    + intros Hslot. destruct (Hrej Hslot) as [Hc' Ht'].
      split; [intros t; by rewrite Hc', Hc1|intros c; by rewrite Ht', Ht1].
    + intros Hslot Hroom.
      assert (Hroom1 : 0 < hcache_slots_left env s1 type).
      { unfold hcache_slots_left, hcache_size, hash_list_length in *.
        by rewrite !Hc1. }
      destruct (Hsto Hslot Hroom1) as (H1 & H2 & H3).
      split; [by rewrite H1, Hc1|]. split.
      * intros t Hne. by rewrite H2, Hc1.
      * intros c. by rewrite H3, Ht1.
Qed.

Lemma runs_unique {A} (m : M A) s a s' (Q : A → hstate → Prop) :
  runs m s Q → m s = Ok (a, s') → Q a s'.
Proof. intros (a0 & s0 & Hm & HQ) Hr. congruence. Qed.

(** C1: [hcache_add] returns TRUE exactly when the sanity checks pass,
    whatever becomes of the host: on every path for a host that is known
    already, and also when the slot filter turns a new host down, in which
    case nothing is stored. *)
Theorem hcache_add_returns_sanity (type : hcache_type_t) (tm addr port : Z)
    (s : hstate) :
  hc_inv s →
  ∃ s',
    hcache_add env type tm addr port s
      = Ok (sanity_checks_pass s type addr port, s')
    ∧ hc_inv s'
    ∧ (sanity_checks_pass s type addr port = true →
       table_of s (hcache_class type) !! (addr, port) = None →
       slot_granted s type (next_random (after_port_check s port)) = false →
       (∀ t, hosts_of s' t = hosts_of s t)
       ∧ (∀ c, table_of s' c = table_of s c)).
Proof.
  intros Hinv.
  destruct (hcache_add_runs type tm addr port s Hinv)
    as (b & s' & Hrun & -> & Hinv' & Hout).
  exists s'. split; [done|]. split; [done|].
  intros Hpass Hnone Hslot. specialize (Hout Hpass). cbv zeta in Hout.
  rewrite Hnone in Hout. by apply Hout.
Qed.

(** *** A known GUESS host *)

Lemma after_port_check_same s port :
  (∀ t, caches (after_port_check s port) t = caches s t)
  ∧ (∀ c, table_of (after_port_check s port) c = table_of s c).
Proof.
  unfold after_port_check. destruct (port_suspect s port); [|done].
  split; [done|]. by intros [].
Qed.

Lemma hit_hosts type s t : hosts_of (hit type s) t = hosts_of s t.
Proof.
  unfold hit. rewrite caches_set_cache.
  by case_decide as Hd; [rewrite Hd|].
Qed.

Lemma guess_class_not_good t :
  hcache_class t = HCACHE_CLASS_GUESS → is_good_type t = false.
Proof. by destruct t. Qed.

(** A host that no table knows is on no list of that class. *)
Lemma hc_inv_unlisted s c h t :
  hc_inv s → table_of s c !! h = None → hcache_class t = c →
  h ∉ hosts_of s t.
Proof.
  intros Hinv Hn Hc Hin.
  destruct (inv_listed _ Hinv _ _ Hin) as (e & He & _). congruence.
Qed.

Lemma hcache_add_known_guess type tm addr port s e :
  hc_inv s →
  hcache_class type = HCACHE_CLASS_GUESS →
  table_of s HCACHE_CLASS_GUESS !! (addr, port) = Some e →
  sanity_checks_pass s type addr port = true →
  ∃ s',
    hcache_add env type tm addr port s = Ok (true, s')
    ∧ hc_inv s'
    ∧ hosts_of s' (hce_type e)
      = hash_list_remove (hosts_of s (hce_type e)) (addr, port)
    ∧ (∀ t, t ≠ hce_type e → hosts_of s' t = hosts_of s t)
    ∧ table_of s' HCACHE_CLASS_GUESS
      = delete (addr, port) (table_of s HCACHE_CLASS_GUESS)
    ∧ table_of s' HCACHE_CLASS_HOST = table_of s HCACHE_CLASS_HOST
    ∧ ((addr, port) ∉ hosts_of s' HCACHE_GUESS)
    ∧ ((addr, port) ∉ hosts_of s' HCACHE_GUESS_INTRO).
Proof.
  intros Hinv Hcl He Hpass.
  destruct (hcache_add_runs type tm addr port s Hinv)
    as (b & s' & Hrun & Hb & Hinv' & Hout).
  rewrite Hpass in Hb. subst b. specialize (Hout eq_refl).
  cbv zeta in Hout.
  rewrite Hcl, He in Hout. specialize (Hout eq_refl).
  destruct (after_port_check_same s port) as [Hc1 Ht1].
  destruct (inv_known _ Hinv _ _ _ He) as [Hce Hin].
  rewrite removed_state_plain in Hout
    by (left; by apply guess_class_not_good).
  assert (Hl : ∀ t, hosts_of s' t =
            if decide (t = hce_type e)
            then hash_list_remove (hosts_of s (hce_type e)) (addr, port)
            else hosts_of s t).
  { intros t. rewrite Hout, unlinked_state_hosts, !hit_hosts, !Hc1. done. }
  assert (Htab : ∀ c, table_of s' c =
            if decide (c = HCACHE_CLASS_GUESS)
            then delete (addr, port) (table_of s c) else table_of s c).
  { intros c. rewrite Hout, unlinked_state_table, Hce.
    unfold hit. by rewrite table_set_cache, Ht1. }
  assert (Hnone : table_of s' HCACHE_CLASS_GUESS !! (addr, port) = None).
  { rewrite Htab, decide_True by done. apply lookup_delete_eq. }
  exists s'. split_and!.
  - done.
  - done.
  - by rewrite Hl, decide_True.
  - intros t Hne. by rewrite Hl, decide_False.
  - by rewrite Htab, decide_True.
  - by rewrite Htab, decide_False.
  - by apply (hc_inv_unlisted s' HCACHE_CLASS_GUESS).
  - by apply (hc_inv_unlisted s' HCACHE_CLASS_GUESS).
Qed.

(** C3: a host that the table of GUESS hosts knows is removed by the next
    [hcache_add] that targets one of the two GUESS caches and passes the
    sanity checks: it leaves the list of its cache and the table, the call
    returns TRUE and stores nothing.  Hence a host that is inserted into
    the running GUESS cache, and then again, is not in that cache after the
    second call. *)
Theorem hcache_add_guess_smearing (type : hcache_type_t)
    (tm tm2 addr port : Z) (s : hstate) :
  hc_inv s →
  hcache_class type = HCACHE_CLASS_GUESS →
  sanity_checks_pass s type addr port = true →
  (* the host is known *)
  (∀ e, table_of s HCACHE_CLASS_GUESS !! (addr, port) = Some e →
     ∃ s',
       hcache_add env type tm addr port s = Ok (true, s')
       ∧ hosts_of s' (hce_type e)
         = hash_list_remove (hosts_of s (hce_type e)) (addr, port)
       ∧ (∀ t, t ≠ hce_type e → hosts_of s' t = hosts_of s t)
       ∧ table_of s' HCACHE_CLASS_GUESS
         = delete (addr, port) (table_of s HCACHE_CLASS_GUESS)
       ∧ ((addr, port) ∉ hosts_of s' HCACHE_GUESS)
       ∧ ((addr, port) ∉ hosts_of s' HCACHE_GUESS_INTRO))
  (* the host is inserted, then added again *)
  ∧ (type = HCACHE_GUESS →
     table_of s HCACHE_CLASS_GUESS !! (addr, port) = None →
     slot_granted s HCACHE_GUESS (next_random (after_port_check s port))
       = true →
     0 < hcache_slots_left env s HCACHE_GUESS →
     ∃ s1,
       hcache_add env HCACHE_GUESS tm addr port s = Ok (true, s1)
       ∧ hosts_of s1 HCACHE_GUESS = (addr, port) :: hosts_of s HCACHE_GUESS
       ∧ (sanity_checks_pass s1 HCACHE_GUESS addr port = true →
          ∃ s2,
            hcache_add env HCACHE_GUESS tm2 addr port s1 = Ok (true, s2)
            ∧ ((addr, port) ∉ hosts_of s2 HCACHE_GUESS)
            ∧ table_of s2 HCACHE_CLASS_GUESS !! (addr, port) = None)).
Proof.
  intros Hinv Hcl Hpass. split.
  - intros e He.
    destruct (hcache_add_known_guess type tm addr port s e)
      as (s' & H1 & _ & H2 & H3 & H4 & _ & H5 & H6); try done.
    by exists s'.
  - intros -> Hnone Hslot Hroom.
    destruct (hcache_add_runs HCACHE_GUESS tm addr port s Hinv)
      as (b & s1 & Hrun & Hb & Hinv1 & Hout).
    rewrite Hpass in Hb. subst b. specialize (Hout eq_refl).
    cbv zeta in Hout.
    change (hcache_class HCACHE_GUESS) with HCACHE_CLASS_GUESS in Hout.
    rewrite Hnone in Hout. destruct Hout as [_ Hsto].
    destruct (Hsto Hslot Hroom) as (Hl & _ & Htab).
    exists s1. split; [done|]. split; [done|]. intros Hpass1.
    specialize (Htab HCACHE_CLASS_GUESS). rewrite decide_True in Htab by done.
    destruct (hcache_add_known_guess HCACHE_GUESS tm2 addr port s1
                {| hce_type := HCACHE_GUESS; time_added := tm |})
      as (s2 & H1 & _ & _ & _ & H4 & _ & H5 & _); try done.
    { rewrite Htab. apply lookup_insert_eq. }
    exists s2. split; [done|]. split; [done|].
    rewrite H4. apply lookup_delete_eq.
Qed.

(** *** Getting a host *)

Definition valid_of (type : host_type_t) : hcache_type_t :=
  match type with
  | HOST_ANY => HCACHE_VALID_ANY
  | HOST_ULTRA => HCACHE_VALID_ULTRA
  | HOST_GUESS => HCACHE_GUESS_INTRO
  end.

(** The lists and the table after [hcache_require_caught] on the fresh
    cache of a kind of good hosts. *)
Lemma caught_state_fresh kind s :
  kind ≠ HOST_GUESS →
  let f := fresh_of kind in
  let v := valid_of kind in
  (hosts_of s f ≠ [] → caught_state f s = s)
  ∧ (hosts_of s f = [] →
     hosts_of (caught_state f s) f = hosts_of s v
     ∧ hosts_of (caught_state f s) v = []
     ∧ (∀ t, t ≠ f → t ≠ v → hosts_of (caught_state f s) t = hosts_of s t)
     ∧ (∀ c h, table_of (caught_state f s) c !! h =
               if decide (c = HCACHE_CLASS_HOST ∧ h ∈ hosts_of s v)
               then retype f <$> table_of s c !! h
               else table_of s c !! h)).
Proof.
  intros Hk f v. unfold caught_state.
  assert (Hr : reserve_of f = Some v) by (by destruct kind).
  assert (Hfv : f ≠ v) by (by destruct kind).
  assert (Hcl : hcache_class v = HCACHE_CLASS_HOST) by (by destruct kind).
  rewrite Hr. split.
  - intros Hne. rewrite bool_decide_eq_false_2; [done|].
    unfold hash_list_length. destruct (hosts_of s f); [done|]. simpl. lia.
  - intros He. rewrite bool_decide_eq_true_2
      by (unfold hash_list_length; by rewrite He).
    split_and!.
    + rewrite moved_state_hosts, decide_False, decide_True by done. done.
    + rewrite moved_state_hosts, decide_True by done. done.
    + intros t H1 H2. by rewrite moved_state_hosts, !decide_False.
    + intros c h. rewrite moved_state_table, Hcl by done. done.
Qed.

Lemma runs_unlink t h s (Q : unit → hstate → Prop) :
  hc_inv s → h ∈ hosts_of s t →
  Q tt (removed_state t h s) →
  runs (hcache_unlink_host t h) s Q.
Proof.
  intros Hinv Hin HQ.
  destruct (hcache_unlink_host_spec t h s Hinv Hin) as (Hrun & _).
  by eapply runs_eq.
Qed.

(** What [hcache_get_caught] leaves when it takes the host [h] from the
    fresh cache [f] in the state [s]. *)
Lemma removed_state_fresh kind h s :
  kind ≠ HOST_GUESS → hc_inv s →
  let f := fresh_of kind in
  let v := valid_of kind in
  h ∈ hosts_of s f →
  hc_inv (removed_state f h s)
  ∧ table_of (removed_state f h s) HCACHE_CLASS_HOST !! h = None
  ∧ (hosts_of s v = [] →
     hosts_of (removed_state f h s) f = hash_list_remove (hosts_of s f) h
     ∧ hosts_of (removed_state f h s) v = []
     ∧ table_of (removed_state f h s) HCACHE_CLASS_HOST
       = delete h (table_of s HCACHE_CLASS_HOST)).
Proof.
  intros Hk Hinv f v Hin.
  assert (Hcf : hcache_class f = HCACHE_CLASS_HOST) by (by destruct kind).
  assert (Hfv : f ≠ v) by (by destruct kind).
  destruct (hcache_unlink_host_spec f h s Hinv Hin) as (_ & Hinv' & Hn).
  rewrite Hcf in Hn. split; [done|]. split; [done|].
  intros Hv. unfold removed_state.
  assert (Hu1 : hosts_of (unlinked_state f h s) f
                = hash_list_remove (hosts_of s f) h).
  { by rewrite unlinked_state_hosts, decide_True. }
  assert (Hu2 : hosts_of (unlinked_state f h s) v = []).
  { by rewrite unlinked_state_hosts, decide_False. }
  assert (Hu3 : table_of (unlinked_state f h s) HCACHE_CLASS_HOST
                = delete h (table_of s HCACHE_CLASS_HOST)).
  { by rewrite unlinked_state_table, Hcf, decide_True. }
  destruct (hcache_close_running s); [done|].
  destruct (caught_state_fresh kind (unlinked_state f h s) Hk) as [Hne He].
  fold f v in Hne, He.
  destruct (hosts_of (unlinked_state f h s) f) as [|x l] eqn:Hl.
  - destruct (He eq_refl) as (H1 & H2 & _ & H4). rewrite H1, H2, Hu2.
    split; [by rewrite <- Hu1|]. split; [done|].
    apply map_eq. intros h'. rewrite H4, Hu2, decide_False, Hu3; [done|].
    intros [_ H]. by apply elem_of_nil in H.
  - rewrite Hne by done. by rewrite Hl, Hu2, Hu3, <- Hu1.
Qed.

(** C4: as long as the fresh and the valid cache of a kind of good hosts
    hold a host between them, [hcache_get_caught] returns TRUE with a host
    of theirs, which is then on no list of the class and unknown to the
    table.  When the fresh cache is empty, [hcache_require_caught] first
    makes the whole list of the valid cache the list of the fresh cache and
    points the metadata of every moved host at the fresh cache. *)
Theorem hcache_get_caught_available (kind : host_type_t) (s : hstate) :
  hc_inv s →
  kind ≠ HOST_GUESS →
  let f := fresh_of kind in
  let v := valid_of kind in
  hosts_of s f ++ hosts_of s v ≠ [] →
  (∃ h s',
     hcache_get_caught env kind s = Ok (Some h, s')
     ∧ h ∈ hosts_of s f ++ hosts_of s v
     ∧ hc_inv s'
     ∧ table_of s' HCACHE_CLASS_HOST !! h = None
     ∧ (∀ t, hcache_class t = HCACHE_CLASS_HOST → h ∉ hosts_of s' t)
     ∧ (hosts_of s f = [] →
        hosts_of s' f = hash_list_remove (hosts_of s v) h
        ∧ hosts_of s' v = []
        ∧ (∀ h', h' ∈ hosts_of s' f →
             ∃ e, table_of s HCACHE_CLASS_HOST !! h' = Some e
                  ∧ hce_type e = v
                  ∧ table_of s' HCACHE_CLASS_HOST !! h'
                    = Some (retype f e))))
  ∧ (hosts_of s f = [] →
     hcache_require_caught f s = Ok (true, caught_state f s)
     ∧ hosts_of (caught_state f s) f = hosts_of s v
     ∧ hosts_of (caught_state f s) v = []
     ∧ (∀ h e, h ∈ hosts_of s v →
          table_of s HCACHE_CLASS_HOST !! h = Some e →
          table_of (caught_state f s) HCACHE_CLASS_HOST !! h
            = Some (retype f e))).
Proof.
  intros Hinv Hk f v Hne.
  assert (Hcf : hcache_class f = HCACHE_CLASS_HOST) by (by destruct kind).
  assert (Hfv : f ≠ v) by (by destruct kind).
  destruct (caught_state_fresh kind s Hk) as [Hfull Hempty].
  fold f v in Hfull, Hempty.
  pose proof (caught_state_inv f s Hinv) as Hinv1.
  set (s1 := caught_state f s) in *.
  assert (Hl1 : hosts_of s1 f ≠ []
                ∧ (∀ h, h ∈ hosts_of s1 f → h ∈ hosts_of s f ++ hosts_of s v)).
  { destruct (hosts_of s f) as [|x l] eqn:Hf.
    - destruct (Hempty eq_refl) as (-> & _). split; [done|]. set_solver.
    - rewrite Hfull by done. rewrite Hf. split; [done|]. set_solver. }
  destruct Hl1 as [Hl1 Hsub].
  split.
  2:{ intros Hf. destruct (Hempty Hf) as (H1 & H2 & _ & H4).
      split_and!; try done.
      - rewrite hcache_require_caught_run. fold s1. do 2 f_equal.
        rewrite bool_decide_eq_false_2; [done|].
        unfold hash_list_length. destruct (hosts_of s1 f); [done|].
        simpl. lia.
      - intros h e Hin He. rewrite H4, decide_True, He by done. done. }
  cut (runs (hcache_get_caught env kind) s (λ r s',
         ∃ h s2, r = Some h ∧ h ∈ hosts_of s2 f
           ∧ hc_inv s2
           ∧ (∀ t, hosts_of s2 t = hosts_of s1 t)
           ∧ (∀ c, table_of s2 c = table_of s1 c)
           ∧ s' = removed_state f h s2)).
  { intros (r & s' & Hrun & h & s2 & -> & Hin & Hinv2 & Hl2 & Ht2 & ->).
    destruct (removed_state_fresh kind h s2 Hk Hinv2 Hin)
      as (Hinv' & Hnone & Hrest).
    fold f v in Hrest.
    exists h, (removed_state f h s2). split; [done|].
    split; [apply Hsub; by rewrite <- Hl2|].
    split; [done|]. split; [done|]. split.
    - intros t Hc. by apply (hc_inv_unlisted _ HCACHE_CLASS_HOST).
    - intros Hf. destruct (Hempty Hf) as (H1 & H2 & _ & H4).
      destruct Hrest as (R1 & R2 & R3); [by rewrite Hl2|].
      rewrite R1, R2, Hl2, H1. split; [done|]. split; [done|].
      intros h' Hin'.
      apply elem_of_hash_list_remove in Hin' as [Hin' Hh];
        [|apply (inv_nodup _ Hinv)].
      destruct (inv_listed _ Hinv _ _ Hin') as (e & He & Hty).
      assert (Hcv : hcache_class v = HCACHE_CLASS_HOST) by (by destruct kind).
      rewrite Hcv in He.
      exists e. split; [done|]. split; [done|].
      rewrite R3, lookup_delete_ne, Ht2, H4 by done.
      fold s1. by rewrite decide_True, He. }
  unfold hcache_get_caught.
  apply runs_bind, runs_get.
  assert (Hhc : match kind with
                | HOST_GUESS =>
                    if bool_decide (hash_list_length s HCACHE_GUESS = 0)
                    then HCACHE_GUESS_INTRO else HCACHE_GUESS
                | _ => fresh_of kind
                end = f) by (by destruct kind).
  rewrite Hhc. clear Hhc.
  apply runs_bind. eapply runs_eq; [apply hcache_require_caught_run|].
  fold s1.
  rewrite (bool_decide_eq_false_2 (hash_list_length s1 f = 0)).
  2:{ unfold hash_list_length. destruct (hosts_of s1 f); [done|].
      simpl. lia. }
  apply runs_bind. unfold hcache_update_low_on_pongs. apply runs_modify.
  match goal with |- runs _ ?st _ => set (s2 := st) end.
  assert (Hinv2 : hc_inv s2) by (by apply hc_inv_set_misc).
  assert (Hl2 : ∀ t, hosts_of s2 t = hosts_of s1 t) by done.
  assert (Ht2 : ∀ c, table_of s2 c = table_of s1 c)
    by (intros c; apply table_set_misc).
  clearbody s2. cbn [negb].
  apply runs_bind.
  assert (Hhead : runs
    (do s0 <- get;
     match head (hosts_of s0 f) with
     | Some h => run hcache_unlink_host f h; ret (Some h)
     | None => ret None
     end) s2
    (λ r s', ∃ h s3, r = Some h ∧ h ∈ hosts_of s3 f ∧ hc_inv s3
       ∧ (∀ t, hosts_of s3 t = hosts_of s1 t)
       ∧ (∀ c, table_of s3 c = table_of s1 c)
       ∧ s' = removed_state f h s3)).
  { apply runs_bind, runs_get.
    destruct (hosts_of s2 f) as [|x l] eqn:Hx.
    { exfalso. apply Hl1. by rewrite <- Hl2. }
    simpl. apply runs_bind, runs_unlink; [done|rewrite Hx; set_solver|].
    apply runs_ret. exists x, s2. split_and!; try done.
    rewrite Hx. set_solver. }
  destruct (use_netmasks env
            && negb (bool_decide (number_local_networks env = 0))
            && negb (bool_decide (kind = HOST_GUESS))).
  - unfold hcache_find_nearby. apply runs_bind, runs_get.
    destruct (list_find (λ h : gnet_host, host_is_nearby env h.1 = true)
                (hosts_of s2 (fresh_of kind))) as [[i h]|] eqn:Hfind.
    + apply list_find_Some in Hfind as (Hi & _).
      apply list_elem_of_lookup_2 in Hi.
      apply runs_bind, runs_unlink; [done|done|].
      apply runs_ret, runs_ret. exists h, s2. done.
    + apply runs_ret. exact Hhead.
  - apply runs_ret. exact Hhead.
Qed.

End WithEnv.

(** *** Expiry *)

(** Whether the host [h] of the cache [t] has expired at the time [now]. *)
Definition expired (s : hstate) (t : hcache_type_t) (now : Z)
    (h : gnet_host) : bool :=
  match table_of s (hcache_class t) !! h with
  | Some e => bool_decide (HOSTCACHE_EXPIRY < delta_time now (time_added e))
  | None => false
  end.

(** A list without its longest tail of hosts that satisfy [P]. *)
Fixpoint strip_tail (P : gnet_host → bool) (l : list gnet_host)
    : list gnet_host :=
  match l with
  | [] => []
  | x :: l' =>
      match strip_tail P l' with
      | [] => if P x then [] else [x]
      | r => x :: r
      end
  end.

Lemma strip_tail_snoc P l h :
  strip_tail P (l ++ [h]) = if P h then strip_tail P l else l ++ [h].
Proof.
  induction l as [|x l IH]; simpl; [by destruct (P h)|].
  rewrite IH. destruct (P h); [done|].
  destruct l; simpl; done.
Qed.

Lemma strip_tail_ext P P' l :
  (∀ x, x ∈ l → P x = P' x) → strip_tail P l = strip_tail P' l.
Proof.
  induction l as [|x l IH]; intros H; simpl; [done|].
  rewrite IH by (intros y Hy; apply H; set_solver).
  rewrite (H x) by set_solver. done.
Qed.

Lemma strip_tail_spec P l :
  ∃ dropped,
    l = strip_tail P l ++ dropped
    ∧ Forall (λ x, P x = true) dropped
    ∧ (∀ x, last (strip_tail P l) = Some x → P x = false).
Proof.
  induction l as [|h l IH] using rev_ind.
  - exists []. simpl. split; [done|]. split; [constructor|done].
  - rewrite strip_tail_snoc. destruct (P h) eqn:Hh.
    + destruct IH as (d & Hl & Hd & Hlast). exists (d ++ [h]).
      split; [by rewrite app_assoc, <- Hl|].
      split; [|done]. apply Forall_app. split; [done|]. by constructor.
    + exists []. rewrite app_nil_r. split; [done|]. split; [constructor|].
      intros x. rewrite last_snoc. by intros [= <-].
Qed.

Lemma expired_removed_other s t h x now :
  x ≠ h → hcache_close_running s = hcache_close_running s →
  is_good_type t = false →
  expired (removed_state t h s) t now x = expired s t now x.
Proof.
  intros Hne _ Hg. unfold expired.
  rewrite removed_state_plain by (by left).
  rewrite unlinked_state_table, decide_True by done.
  by rewrite lookup_delete_ne.
Qed.

Lemma removed_state_plain_facts t h s :
  is_good_type t = false → hc_inv s → h ∈ hosts_of s t →
  hc_inv (removed_state t h s)
  ∧ hosts_of (removed_state t h s) t = hash_list_remove (hosts_of s t) h
  ∧ (∀ t', t' ≠ t →
       hosts_of (removed_state t h s) t' = hosts_of s t')
  ∧ (∀ c, table_of (removed_state t h s) c ⊆ table_of s c).
Proof.
  intros Hg Hinv Hin.
  destruct (hcache_unlink_host_spec t h s Hinv Hin) as (_ & Hinv' & _).
  split; [done|]. rewrite removed_state_plain by (by left).
  split; [by rewrite unlinked_state_hosts, decide_True|]. split.
  - intros t' Hne. by rewrite unlinked_state_hosts, decide_False.
  - intros c. rewrite unlinked_state_table.
    case_decide; [apply delete_subseteq|done].
Qed.

Lemma hcache_expire_cache_loop_runs fuel t now s :
  hc_inv s → is_good_type t = false →
  (length (hosts_of s t) ≤ fuel)%nat →
  runs (hcache_expire_cache_loop fuel t now) s (λ _ s',
    hc_inv s'
    ∧ hosts_of s' t = strip_tail (expired s t now) (hosts_of s t)
    ∧ (∀ t', t' ≠ t → hosts_of s' t' = hosts_of s t')
    ∧ (∀ c, table_of s' c ⊆ table_of s c)).
Proof.
  revert s. induction fuel as [|fuel IH]; intros s Hinv Hg Hlen.
  - assert (Hnil : hosts_of s t = []).
    { destruct (hosts_of s t); [done|]. simpl in Hlen. lia. }
    simpl. apply runs_bind, runs_get. rewrite Hnil. simpl.
    apply runs_ret. done.
  - simpl. apply runs_bind, runs_get.
    destruct (last (hosts_of s t)) as [h|] eqn:Hlast.
    2:{ apply last_None in Hlast. rewrite Hlast. by apply runs_ret. }
    apply last_Some in Hlast as [l Hl].
    assert (Hin : h ∈ hosts_of s t) by (rewrite Hl; set_solver).
    destruct (inv_listed _ Hinv _ _ Hin) as (e & He & Hty).
    apply runs_bind. unfold hcache_get_metadata.
    apply runs_bind, runs_get, runs_ret. rewrite He.
    assert (Hexp : expired s t now h
                   = bool_decide (HOSTCACHE_EXPIRY
                                  < delta_time now (time_added e))).
    { unfold expired. by rewrite He. }
    rewrite <- Hexp. rewrite Hl, strip_tail_snoc.
    destruct (expired s t now h) eqn:Hx.
    2:{ apply runs_ret. by rewrite <- Hl. }
    destruct (hcache_remove_listed t h s Hinv Hin) as [Hrm _].
    destruct (removed_state_plain_facts t h s Hg Hinv Hin)
      as (Hinv1 & Hl1 & Ho1 & Ht1).
    apply runs_bind. eapply runs_eq; [exact Hrm|].
    pose proof (inv_nodup _ Hinv t) as Hnd. rewrite Hl in Hnd.
    apply NoDup_app in Hnd as (_ & Hnd & _).
    assert (Hnl : h ∉ l) by (intros H; apply (Hnd _ H); set_solver).
    rewrite Hl, hash_list_remove_last in Hl1 by done.
    apply runs_bind.
    eapply runs_mono; [apply (IH _ Hinv1 Hg)|].
    { rewrite Hl1. rewrite Hl, length_app in Hlen. simpl in Hlen. lia. }
    intros n s' (Hinv' & Hl' & Ho' & Ht'). apply runs_ret.
    split; [done|]. split.
    + rewrite Hl', Hl1. apply strip_tail_ext. intros x Hxl.
      apply expired_removed_other; [|done|done]. by intros ->.
    + split.
      * intros t' Hne. by rewrite Ho', Ho1.
      * intros c. etrans; [apply Ht'|apply Ht1].
Qed.

Lemma hcache_expire_cache_runs t now s :
  hc_inv s → is_good_type t = false →
  runs (hcache_expire_cache t now) s (λ _ s',
    hc_inv s'
    ∧ hosts_of s' t = strip_tail (expired s t now) (hosts_of s t)
    ∧ (∀ t', t' ≠ t → hosts_of s' t' = hosts_of s t')
    ∧ (∀ c, table_of s' c ⊆ table_of s c)).
Proof.
  intros Hinv Hg. unfold hcache_expire_cache.
  apply runs_bind, runs_get. by apply hcache_expire_cache_loop_runs.
Qed.

(** The entries of the listed hosts are those of the earlier state when
    entries only went. *)
Lemma table_kept s s' t h :
  hc_inv s' → (∀ c, table_of s' c ⊆ table_of s c) →
  h ∈ hosts_of s' t →
  table_of s' (hcache_class t) !! h = table_of s (hcache_class t) !! h.
Proof.
  intros Hinv' Hsub Hin.
  destruct (inv_listed _ Hinv' _ _ Hin) as (e & He & _).
  rewrite He. symmetry.
  by apply (lookup_weaken _ _ _ _ He (Hsub _)).
Qed.

(** A pass of [hcache_expire_cache] in the course of a timer run that
    started in the state [s0]. *)
Lemma hcache_expire_cache_step t now s0 s :
  is_good_type t = false → hc_inv s →
  (∀ c, table_of s c ⊆ table_of s0 c) →
  hosts_of s t = hosts_of s0 t →
  runs (hcache_expire_cache t now) s (λ _ s',
    hc_inv s'
    ∧ hosts_of s' t = strip_tail (expired s0 t now) (hosts_of s0 t)
    ∧ (∀ t', t' ≠ t → hosts_of s' t' = hosts_of s t')
    ∧ (∀ c, table_of s' c ⊆ table_of s0 c)).
Proof.
  intros Hg Hinv Hsub Hl.
  eapply runs_mono; [by apply hcache_expire_cache_runs|].
  intros _ s' (Hinv' & Hl' & Ho' & Ht'). split; [done|]. split.
  - rewrite Hl', <- Hl. apply strip_tail_ext. intros x Hx.
    unfold expired. by rewrite (table_kept s0 s t x).
  - split; [done|]. intros c. etrans; [apply Ht'|apply Hsub].
Qed.

(** The caches that the timer expires. *)
Definition expiring (t : hcache_type_t) : bool :=
  match t with
  | HCACHE_TIMEOUT | HCACHE_BUSY | HCACHE_UNSTABLE => true
  | _ => false
  end.

(** The time at which the host [h] of the cache [t] was added. *)
Definition added_at (s : hstate) (t : hcache_type_t) (h : gnet_host) : Z :=
  match table_of s (hcache_class t) !! h with
  | Some e => time_added e
  | None => 0
  end.

(** The list of the cache [t] is sorted by descending time of addition. *)
Definition sorted_by_added_time (s : hstate) (t : hcache_type_t) : Prop :=
  ∀ (i j : nat) a b, (i ≤ j)%nat →
    hosts_of s t !! i = Some a → hosts_of s t !! j = Some b →
    added_at s t b ≤ added_at s t a.

(** C5: the timer expires the caches of hosts that timed out, were busy
    or unstable, and no other: in each of the three the tail of the list
    goes as long as it is older than [HOSTCACHE_EXPIRY] (1800 seconds), up
    to the first tail that is not; the lists of the other caches and the
    metadata of the hosts that stay are as before.  When the list was
    sorted by descending time of addition, no host that stays is older than
    1800 seconds. *)
Theorem hcache_timer_expiry (now : Z) (s : hstate) :
  hc_inv s →
  ∃ s',
    hcache_timer now s = Ok (true, s')
    ∧ hc_inv s'
    ∧ (∀ t, expiring t = false → hosts_of s' t = hosts_of s t)
    ∧ (∀ t h, h ∈ hosts_of s' t →
         table_of s' (hcache_class t) !! h
         = table_of s (hcache_class t) !! h)
    ∧ (∀ t, expiring t = true →
         ∃ dropped,
           hosts_of s t = hosts_of s' t ++ dropped
           ∧ Forall (λ h, expired s t now h = true) dropped
           ∧ (∀ h, last (hosts_of s' t) = Some h → expired s t now h = false)
           ∧ (∀ h, h ∈ dropped →
                table_of s' (hcache_class t) !! h = None)
           ∧ (sorted_by_added_time s t →
              ∀ h e, h ∈ hosts_of s' t →
                table_of s' (hcache_class t) !! h = Some e →
                delta_time now (time_added e) ≤ 1800)).
Proof.
  intros Hinv.
  cut (runs (hcache_timer now) s (λ b s',
         b = true ∧ hc_inv s'
         ∧ (∀ t, hosts_of s' t =
                 if expiring t
                 then strip_tail (expired s t now) (hosts_of s t)
                 else hosts_of s t)
         ∧ (∀ c, table_of s' c ⊆ table_of s c))).
  { intros (b & s' & Hrun & -> & Hinv' & Hl & Hsub).
    exists s'. split; [done|]. split; [done|]. split.
    { intros t Ht. by rewrite Hl, Ht. }
    split.
    { intros t h. by apply table_kept. }
    intros t Ht. specialize (Hl t). rewrite Ht in Hl.
    destruct (strip_tail_spec (expired s t now) (hosts_of s t))
      as (dropped & Hsplit & Hdrop & Hlast).
    rewrite <- Hl in Hsplit, Hlast.
    exists dropped. split; [done|]. split; [done|]. split; [done|]. split.
    - intros h Hd.
      destruct (table_of s' (hcache_class t) !! h) as [e'|] eqn:He'; [|done].
      exfalso.
      pose proof (lookup_weaken _ _ _ _ He' (Hsub _)) as He.
      destruct (inv_known _ Hinv' _ _ _ He') as [Hc' Hin'].
      assert (Hin : h ∈ hosts_of s t) by (rewrite Hsplit; set_solver).
      destruct (inv_listed _ Hinv _ _ Hin) as (e0 & He0 & Hty).
      assert (e0 = e') by congruence. subst e0. rewrite Hty in Hin'.
      pose proof (inv_nodup _ Hinv t) as Hnd. rewrite Hsplit in Hnd.
      apply NoDup_app in Hnd as (_ & Hnd & _). by apply (Hnd h).
    - intros Hsorted h e Hin He.
      assert (Hk : table_of s (hcache_class t) !! h = Some e).
      { by rewrite <- (table_kept s s' t h). }
      destruct (last (hosts_of s' t)) as [y|] eqn:Hla.
      2:{ apply last_None in Hla. rewrite Hla in Hin.
          by apply elem_of_nil in Hin. }
      specialize (Hlast y eq_refl).
      apply last_Some in Hla as [l Hs'].
      assert (Hy : y ∈ hosts_of s' t) by (rewrite Hs'; set_solver).
      destruct (inv_listed _ Hinv' _ _ Hy) as (ey & Hey' & _).
      assert (Hey : table_of s (hcache_class t) !! y = Some ey).
      { by rewrite <- (table_kept s s' t y). }
      unfold expired in Hlast. rewrite Hey in Hlast.
      apply bool_decide_eq_false in Hlast.
      apply list_elem_of_lookup in Hin as [i Hi].
      assert (Hilt : (i < length (l ++ [y]))%nat).
      { rewrite <- Hs'. by apply lookup_lt_Some in Hi. }
      rewrite length_app in Hilt. simpl in Hilt.
      specialize (Hsorted i (length l) h y).
      unfold added_at in Hsorted. rewrite Hk, Hey in Hsorted.
      unfold delta_time, HOSTCACHE_EXPIRY in *.
      assert (time_added ey ≤ time_added e); [|lia].
      apply Hsorted; [lia| |].
      + rewrite Hsplit. by apply lookup_app_l_Some.
      + rewrite Hsplit. apply lookup_app_l_Some. rewrite Hs'.
        rewrite lookup_app_r by lia. by rewrite Nat.sub_diag. }
  unfold hcache_timer, hcache_expire_all.
  apply runs_bind, runs_bind.
  eapply runs_mono;
    [apply (hcache_expire_cache_step HCACHE_TIMEOUT now s s); done|].
  intros n1 s1 (Hinv1 & Hl1 & Ho1 & Ht1).
  apply runs_bind.
  eapply runs_mono;
    [apply (hcache_expire_cache_step HCACHE_BUSY now s s1);
     [done|done|done|by apply Ho1]|].
  intros n2 s2 (Hinv2 & Hl2 & Ho2 & Ht2).
  apply runs_bind.
  eapply runs_mono;
    [apply (hcache_expire_cache_step HCACHE_UNSTABLE now s s2);
     [done|done|done|by rewrite Ho2, Ho1]|].
  intros n3 s3 (Hinv3 & Hl3 & Ho3 & Ht3).
  apply runs_ret, runs_ret. split; [done|]. split; [done|]. split; [|done].
  intros t. destruct t; simpl; try done;
    rewrite ?Ho3, ?Ho2, ?Ho1 by done; done.
Qed.

(** *** Concrete runs *)

(** A node that accepts every routable host, with room for one ultrapeer
    and four GUESS hosts; [f] is the source of [random_u32()]. *)
Definition env_demo (f : nat → Z) : henv :=
  {| stop_host_get := false; node_monitor_unstable_ip := true;
     max_hosts_cached := 100; max_ultra_hosts_cached := 1;
     max_bad_hosts_cached := 3; max_guess_hosts_cached := 4;
     max_guess_intro_hosts_cached := 4;
     use_netmasks := false; number_local_networks := 0;
     is_my_address_and_port := λ _ _, false;
     node_host_is_connected := λ _ _, false;
     host_addr_is_routable := λ _, true;
     port_is_valid := λ p, negb (p =? 0);
     bogons_check := λ _, false; hostiles_check := λ _, false;
     host_is_nearby := λ _, false; ctl_limit := λ _, false;
     random_source := f |}.

Lemma hcache_add_returns_sanity_witness :
  ∃ s',
    hcache_add (env_demo (λ _, 0)) HCACHE_FRESH_ANY 100 5 1234 hcache_init
      = Ok (sanity_checks_pass (env_demo (λ _, 0)) hcache_init
              HCACHE_FRESH_ANY 5 1234, s').
Proof.
  destruct (hcache_add_returns_sanity (env_demo (λ _, 0)) HCACHE_FRESH_ANY
              100 5 1234 hcache_init hcache_init_inv) as (s' & H & _).
  exists s'. exact H.
Defined.

(** The filter following the words of the spec: with [left = limit -
    current] over the integers, accept iff [limit > 0], [left > 0] and
    ([left > limit / 2] or [r mod limit < left]). *)
Definition slot_filter_spec (limit current r : Z) : bool :=
  let left := limit - current in
  bool_decide (0 < limit) && bool_decide (0 < left)
  && (bool_decide (limit / 2 < left) || bool_decide (r mod limit < left)).

(** As long as a cache is not over its limit the code is the filter of the
    spec. *)
Lemma slot_granted_within_limit env s type r :
  0 ≤ hcache_slots_max env type < 2 ^ 32 →
  0 ≤ hcache_slots_left env s type →
  slot_granted env s type r
  = slot_filter_spec (hcache_slots_max env type)
      (hcache_slots_max env type - hcache_slots_left env s type) r.
Proof.
  intros Hmax Hleft. unfold slot_granted, slot_filter_spec, to_guint.
  assert (Hl : hcache_slots_left env s type < 2 ^ 32).
  { unfold hcache_slots_left in *.
    assert (0 ≤ hcache_size s HOST_ANY ∧ 0 ≤ hcache_size s HOST_ULTRA
            ∧ 0 ≤ hash_list_length s type) as (? & ? & ?).
    { unfold hcache_size, hash_list_length. lia. }
    destruct type; lia. }
  rewrite !Z.mod_small by lia.
  replace (hcache_slots_max env type
           - (hcache_slots_max env type - hcache_slots_left env s type))
    with (hcache_slots_left env s type) by lia.
  done.
Qed.

(** Three calls of [hcache_add] that leave two hosts in the caches of
    ultrapeers, for a limit of one: the second one is a host that moves
    over from the cache of any hosts. *)
Definition overfull_run (f : nat → Z) : M bool :=
  run hcache_add (env_demo f) HCACHE_FRESH_ANY 100 5 1234;
  run hcache_add (env_demo f) HCACHE_FRESH_ULTRA 101 6 1234;
  hcache_add (env_demo f) HCACHE_FRESH_ULTRA 102 5 1234.

(** C2: the filter is to turn a host down whenever the cache holds as many
    hosts as its limit allows, or more.  Here the caches of ultrapeers hold
    two hosts for a limit of one, [hcache_slots_left] is -1, which
    [hcache_request_slot] reads as the unsigned 4294967295: the slot is
    granted, whatever [random_u32()] would draw. *)
Theorem hcache_request_slot_over_limit (f : nat → Z) :
  ∃ s,
    overfull_run f hcache_init = Ok (true, s)
    ∧ hcache_slots_max (env_demo f) HCACHE_FRESH_ULTRA = 1
    ∧ hcache_size s HOST_ULTRA = 2
    ∧ hcache_slots_left (env_demo f) s HCACHE_FRESH_ULTRA = -1
    ∧ (∃ s', hcache_request_slot (env_demo f) HCACHE_FRESH_ULTRA s
             = Ok (true, s'))
    ∧ (∀ r, slot_filter_spec 1 2 r = false).
Proof.
  eexists. split; [vm_compute; reflexivity|].
  split; [reflexivity|]. split; [vm_compute; reflexivity|].
  split; [vm_compute; reflexivity|].
  split; [eexists; vm_compute; reflexivity|].
  intros r. reflexivity.
Qed.

(** The new host then takes the place of both hosts of the cache. *)
Example hcache_add_over_limit :
  ∃ s,
    (run overfull_run (λ _, 0);
     hcache_add (env_demo (λ _, 0)) HCACHE_FRESH_ULTRA 103 7 1234)
      hcache_init = Ok (true, s)
    ∧ hosts_of s HCACHE_FRESH_ULTRA = [(7, 1234)]
    ∧ hosts_of s HCACHE_VALID_ULTRA = [].
Proof. eexists. split; [vm_compute; reflexivity|]. done. Qed.

Lemma hcache_add_guess_smearing_witness :
  ∃ s1,
    hcache_add (env_demo (λ _, 0)) HCACHE_GUESS 100 5 1234 hcache_init
      = Ok (true, s1)
    ∧ hosts_of s1 HCACHE_GUESS = [(5, 1234)].
Proof.
  destruct (hcache_add_guess_smearing (env_demo (λ _, 0)) HCACHE_GUESS
              100 101 5 1234 hcache_init hcache_init_inv)
    as [_ H].
  - reflexivity.
  - vm_compute. reflexivity.
  - destruct H as (s1 & H1 & H2 & _).
    + reflexivity.
    + reflexivity.
    + vm_compute. reflexivity.
    + vm_compute. reflexivity.
    + exists s1. split; [exact H1 | exact H2].
Defined.

(** Scenario 3 of the spec. *)
Example hcache_add_guess_twice :
  ∃ s,
    (run hcache_add (env_demo (λ _, 0)) HCACHE_GUESS 100 5 1234;
     hcache_add (env_demo (λ _, 0)) HCACHE_GUESS 101 5 1234)
      hcache_init = Ok (true, s)
    ∧ hosts_of s HCACHE_GUESS = []
    ∧ ht_guess_hosts s = ∅.
Proof. eexists. split; [vm_compute; reflexivity|]. done. Qed.

(** A state with one host, in the cache [t], added at the time [tm]. *)
Definition one_host (t : hcache_type_t) (h : gnet_host) (tm : Z) : hstate :=
  set_cache
    (set_ht hcache_init (hcache_class t)
       (<[h := {| hce_type := t; time_added := tm |}]>
          (table_of hcache_init (hcache_class t))))
    t (set_hostlist (caches hcache_init t) (h :: hosts_of hcache_init t)).

Lemma one_host_inv t h tm : hc_inv (one_host t h tm).
Proof.
  apply hc_inv_insert; [apply hcache_init_inv| |done].
  by destruct t.
Qed.

Lemma hcache_get_caught_available_witness :
  ∃ h s',
    hcache_get_caught (env_demo (λ _, 0)) HOST_ANY
      (one_host HCACHE_VALID_ANY (5, 1234) 100) = Ok (Some h, s').
Proof.
  destruct (hcache_get_caught_available (env_demo (λ _, 0)) HOST_ANY
              (one_host HCACHE_VALID_ANY (5, 1234) 100)
              (one_host_inv _ _ _)) as [(h & s' & H & _) _].
  - discriminate.
  - simpl. discriminate.
  - exists h, s'. exact H.
Defined.

Example hcache_get_caught_from_valid :
  ∃ s',
    hcache_get_caught (env_demo (λ _, 0)) HOST_ANY
      (one_host HCACHE_VALID_ANY (5, 1234) 100) = Ok (Some (5, 1234), s')
    ∧ hosts_of s' HCACHE_FRESH_ANY = []
    ∧ hosts_of s' HCACHE_VALID_ANY = []
    ∧ ht_known_hosts s' = ∅.
Proof. eexists. split; [vm_compute; reflexivity|]. done. Qed.

Lemma hcache_timer_expiry_witness :
  ∃ s', hcache_timer 5000 (one_host HCACHE_BUSY (5, 0) 100) = Ok (true, s').
Proof.
  destruct (hcache_timer_expiry 5000 (one_host HCACHE_BUSY (5, 0) 100)
              (one_host_inv _ _ _)) as (s' & H & _).
  exists s'. exact H.
Defined.

Example hcache_timer_expires_busy :
  ∃ s',
    hcache_timer 5000 (one_host HCACHE_BUSY (5, 0) 100) = Ok (true, s')
    ∧ hosts_of s' HCACHE_BUSY = []
    ∧ ht_known_hosts s' = ∅.
Proof. eexists. split; [vm_compute; reflexivity|]. done. Qed.

Example hcache_timer_keeps_recent :
  ∃ s',
    hcache_timer 1900 (one_host HCACHE_BUSY (5, 0) 100) = Ok (true, s')
    ∧ hosts_of s' HCACHE_BUSY = [(5, 0)].
Proof. eexists. split; [vm_compute; reflexivity|]. done. Qed.

End HCProps.

(** * More of the search queue *)

Module SQMore.
Import SQ SQProps.

(** The handles of a list of entries, as a set. *)
Definition handles_of (l : list smsg) : gset Z := list_to_set (map shandle l).

(** [cap_queue] in full: the entries beyond the first [size] go, oldest
    first. *)
Lemma cap_queue_loop_full fuel size sq :
  sq_inv sq → 0 ≤ size → (length (searches sq) < fuel)%nat →
  let n := Z.to_nat size in
  ∃ sq' evs,
    cap_queue_loop fuel size sq = Ok (sq', evs)
    ∧ sq_inv sq'
    ∧ searches sq' = take n (searches sq)
    ∧ evs = map smsg_discard (rev (drop n (searches sq)))
    ∧ handles sq' = handles sq ∖ handles_of (drop n (searches sq))
    ∧ count sq' = Z.min (count sq) size
    ∧ n_dropped sq' = n_dropped sq + Z.of_nat (length (drop n (searches sq)))
    ∧ node sq' = node sq ∧ last_sent sq' = last_sent sq
    ∧ n_sent sq' = n_sent sq.
Proof.
  intros Hinv Hsz Hlen n. revert sq Hinv Hlen.
  induction fuel as [|fuel IH]; intros sq Hinv Hlen; [lia|].
  pose proof (inv_count _ Hinv) as Hc.
  simpl. case_bool_decide as Hlt.
  - destruct (cap_queue_body sq) as [[sq1 ev]| |] eqn:Hbody.
    + apply cap_queue_body_inv in Hbody
        as (Hinv1 & (sb & Hl & -> & Hh1) & Hc1 & Hd1 & Hn1 & Hls1 & Hns1);
        [|done].
      simpl.
      destruct (IH sq1) as (sq' & evs & -> & Hinv' & Hs & -> & Hh & Hcnt & Hd
                            & Hn & Hls & Hns);
        [done|rewrite Hl, length_app in Hlen; simpl in Hlen; lia|].
      simpl. exists sq', (smsg_discard sb :: map smsg_discard
                            (rev (drop n (searches sq1)))).
      assert (Hn1' : (n ≤ length (searches sq1))%nat).
      { rewrite Hl, length_app in Hc. simpl in Hc. lia. }
      split; [done|]. split; [done|].
      rewrite Hl. rewrite take_app_le by done. rewrite drop_app_le by done.
      rewrite rev_app_distr. simpl.
      split_and!; try done.
      * rewrite Hh, Hh1. unfold handles_of. rewrite map_app, list_to_set_app_L.
        simpl. set_solver.
      * lia.
      * rewrite Hd, Hd1, length_app. simpl. lia.
      * congruence.
      * congruence.
      * congruence.
    + exfalso. unfold cap_queue_body in Hbody.
      destruct (last (searches sq)) as [sb|] eqn:Hlast.
      * rewrite bool_decide_eq_true_2 in Hbody by lia. simpl in Hbody.
        rewrite sqh_remove_ok in Hbody; [done|]. simpl.
        apply (inv_handles _ Hinv). unfold queued_handles.
        apply last_Some in Hlast as [l ->]. rewrite map_app. set_solver.
      * apply last_None in Hlast. rewrite Hlast in Hc. simpl in Hc. lia.
    + pose proof (cap_queue_body_shrinks sq) as Hb. by rewrite Hbody in Hb.
  - exists sq, []. split; [done|]. split; [done|].
    rewrite take_ge by lia. rewrite drop_ge by lia.
    split_and!; try done.
    + unfold handles_of. simpl. set_solver.
    + lia.
    + simpl. lia.
Qed.

Lemma sq_puthere_fresh_full (env : sq_env) (sq : squeue) (sh : gnet_search_t)
    (m : pmsg) (q : option query_hashvec) :
  sq_inv sq → 0 ≤ search_queue_size env → sh ∉ handles sq →
  let n := Z.to_nat (search_queue_size env) in
  let l := smsg_alloc sh m q :: searches sq in
  ∃ sq',
    sq_puthere env sq sh m q = Ok (sq', map smsg_discard (rev (drop n l)))
    ∧ sq_inv sq'
    ∧ searches sq' = take n l
    ∧ handles sq' = ({[sh]} ∪ handles sq) ∖ handles_of (drop n l)
    ∧ count sq' = Z.min (count sq + 1) (search_queue_size env)
    ∧ n_dropped sq' = n_dropped sq + Z.of_nat (length (drop n l))
    ∧ node sq' = node sq ∧ last_sent sq' = last_sent sq
    ∧ n_sent sq' = n_sent sq.
Proof.
  intros Hinv Hsz Hnin n l.
  unfold sq_puthere, sqh_exists, sqh_put, sqh_exists.
  rewrite bool_decide_eq_false_2 by done. simpl.
  set (sq2 := {| searches := smsg_alloc sh m q :: searches sq;
                 handles := {[sh]} ∪ handles sq; node := node sq;
                 count := count sq + 1; last_sent := last_sent sq;
                 n_sent := n_sent sq; n_dropped := n_dropped sq |}).
  assert (Hinv2 : sq_inv sq2).
  { destruct Hinv as [Hnd Hh Hc]. split; unfold queued_handles in *; simpl.
    - constructor; [|done]. intros Hin. apply Hnin, Hh, Hin.
    - intros h [->|Hin]%elem_of_cons; [set_solver|].
      apply elem_of_union_r, Hh, Hin.
    - rewrite Hc. lia. }
  pose proof (inv_count _ Hinv) as Hc.
  case_bool_decide as Hlt.
  - unfold cap_queue.
    destruct (cap_queue_loop_full (S (length (searches sq2)))
                (search_queue_size env) sq2)
      as (sq' & evs & Hrun & Hinv' & Hs & -> & Hh & Hcnt & Hd & Hrest);
      [done|done|lia|].
    exists sq'. done.
  - exists sq2. subst l n. simpl in Hlt.
    rewrite take_ge by (simpl; lia). rewrite drop_ge by (simpl; lia).
    simpl. split_and!; try done.
    + unfold handles_of. simpl. set_solver.
    + lia.
    + lia.
Qed.

(** A queue that keeps one query. *)
Definition env_one : sq_env :=
  {| current_peermode := NODE_P_ULTRA; search_queue_spacing := 0;
     search_queue_size := 1; up_connections := 30;
     node_ultra_count := 30;
     search_query_allowed := λ sh, bool_decide (sh ≠ 7);
     search_get_id := λ sh, (sh, sh) |}.

(** X1: a query for a search whose handle is not recorded is enqueued at
    the head, then the queue is cut to its [search_queue_size] most recent
    entries: the older ones are discarded, the oldest first, their handles
    are forgotten and each counts as dropped. *)
Theorem sq_puthere_enqueues (env : sq_env) (sq : squeue) (sh : gnet_search_t)
    (m : pmsg) (q : option query_hashvec) :
  sq_inv sq → 0 ≤ search_queue_size env → sh ∉ handles sq →
  let n := Z.to_nat (search_queue_size env) in
  let l := smsg_alloc sh m q :: searches sq in
  ∃ sq',
    sq_puthere env sq sh m q = Ok (sq', map smsg_discard (rev (drop n l)))
    ∧ sq_inv sq'
    ∧ searches sq' = take n l
    ∧ handles sq' = ({[sh]} ∪ handles sq) ∖ handles_of (drop n l)
    ∧ count sq' = Z.min (count sq + 1) (search_queue_size env)
    ∧ n_dropped sq' = n_dropped sq + Z.of_nat (length (drop n l))
    ∧ node sq' = node sq ∧ last_sent sq' = last_sent sq
    ∧ n_sent sq' = n_sent sq.
Proof. apply sq_puthere_fresh_full. Qed.

Lemma sq_puthere_enqueues_witness :
  ∃ sq',
    sq_puthere env_one sq_c6 8 [4] (Some [5])
      = Ok (sq', [Ev_discard [1; 2] (Some [3])])
    ∧ searches sq' = [ {| mb := [4]; shandle := 8; qhv := Some [5] |} ]
    ∧ count sq' = 1 ∧ n_dropped sq' = 1.
Proof.
  destruct (sq_puthere_enqueues env_one sq_c6 8 [4] (Some [5]) sq_c6_inv)
    as (sq' & H1 & _ & H2 & _ & H3 & H4 & _).
  - vm_compute. discriminate.
  - vm_compute. discriminate.
  - exists sq'. split; [exact H1|]. split; [exact H2|].
    split; [exact H3 | exact H4].
Defined.

(** *** Closing a search *)

Lemma sq_search_closed_loop_full kept l sq sh :
  sq_inv sq → searches sq = rev kept ++ l →
  ∃ sq',
    sq_search_closed_loop kept l sq sh
      = Ok (sq', map smsg_discard (filter (λ sb, shandle sb = sh) l))
    ∧ sq_inv sq'
    ∧ searches sq' = rev kept ++ filter (λ sb, shandle sb ≠ sh) l
    ∧ handles sq' = (if decide (sh ∈ map shandle l)
                     then handles sq ∖ {[sh]} else handles sq)
    ∧ node sq' = node sq ∧ last_sent sq' = last_sent sq
    ∧ n_sent sq' = n_sent sq ∧ n_dropped sq' = n_dropped sq.
Proof.
  revert kept sq.
  induction l as [|sb next IH]; intros kept sq Hinv Hs; simpl.
  - exists sq. by split_and!.
  - case_bool_decide as Heq.
    + pose proof (inv_count _ Hinv) as Hc.
      rewrite bool_decide_eq_true_2
        by (rewrite Hc, Hs, length_app; simpl; lia).
      simpl.
      rewrite sqh_remove_ok; simpl.
      2:{ apply (inv_handles _ Hinv). unfold queued_handles.
          rewrite Hs, map_app. simpl. set_solver. }
      match goal with
      | |- context [sq_search_closed_loop kept next ?s sh] => set (sq2 := s)
      end.
      assert (Hinv2 : sq_inv sq2).
      { destruct Hinv as [Hnd Hh Hc']. unfold queued_handles in *.
        rewrite Hs in *. rewrite map_app in Hnd, Hh. simpl in Hnd, Hh.
        apply NoDup_app in Hnd as (Hnd1 & Hnd2 & Hnd3).
        apply NoDup_cons in Hnd3 as [Hnin Hnd3].
        split; unfold queued_handles; simpl.
        - rewrite map_app. apply NoDup_app. split; [done|].
          split; [|done]. intros h Hh1 Hh2. apply (Hnd2 _ Hh1). set_solver.
        - intros h Hq. rewrite map_app in Hq. apply elem_of_difference.
          split; [apply Hh; set_solver|].
          intros ->%elem_of_singleton.
          apply elem_of_app in Hq as [Hq|Hq]; [|done].
          apply (Hnd2 _ Hq). set_solver.
        - rewrite Hc'. rewrite !length_app. simpl. lia. }
      destruct (IH kept sq2 Hinv2 eq_refl)
        as (sq' & -> & Hinv' & Hs' & Hh' & Hrest).
      simpl. exists sq'.
      rewrite filter_cons_True by done.
      rewrite filter_cons_False by (intros ?; done).
      split; [done|]. split; [done|]. split; [done|]. split; [|done].
      rewrite Hh'. subst sq2. simpl.
      rewrite (decide_True (P := sh ∈ shandle sb :: map shandle next))
        by (rewrite Heq; set_solver).
      destruct (decide (sh ∈ map shandle next)); set_solver.
    + destruct (IH (sb :: kept) sq Hinv) as (sq' & -> & Hinv' & Hs' & Hh' & Hrest).
      { simpl. by rewrite <- app_assoc. }
      exists sq'.
      rewrite filter_cons_False by done.
      rewrite filter_cons_True by done.
      split; [done|]. split; [done|].
      split; [rewrite Hs'; simpl; by rewrite <- app_assoc|].
      split; [|done]. rewrite Hh'.
      destruct (decide (sh ∈ map shandle next)) as [Hin|Hnin].
      * rewrite decide_True by set_solver. done.
      * rewrite decide_False; [done|]. set_solver.
Qed.

Lemma squeue_eq (a b : squeue) :
  searches a = searches b → handles a = handles b → node a = node b →
  count a = count b → last_sent a = last_sent b → n_sent a = n_sent b →
  n_dropped a = n_dropped b → a = b.
Proof. destruct a, b. simpl. by intros -> -> -> -> -> -> ->. Qed.

Lemma filter_absent (l : list smsg) sh :
  sh ∉ map shandle l →
  filter (λ sb, shandle sb ≠ sh) l = l
  ∧ filter (λ sb, shandle sb = sh) l = [].
Proof.
  induction l as [|sb l IH]; simpl; intros Hn; [done|].
  apply not_elem_of_cons in Hn as [Hne Hn].
  rewrite filter_cons_True by done.
  rewrite filter_cons_False by done.
  destruct (IH Hn) as [-> ->]. done.
Qed.

Lemma filter_present_once (l : list smsg) sh :
  NoDup (map shandle l) →
  (length (filter (λ sb, shandle sb = sh) l) ≤ 1)%nat.
Proof.
  induction l as [|sb l IH]; simpl; intros Hnd; [lia|].
  apply NoDup_cons in Hnd as [Hnin Hnd].
  destruct (decide (shandle sb = sh)) as [Heq|Hne].
  - rewrite filter_cons_True by done. rewrite Heq in Hnin.
    destruct (filter_absent l sh Hnin) as [_ ->]. simpl. lia.
  - rewrite filter_cons_False by done. by apply IH.
Qed.

Lemma sq_search_closed_full (sq : squeue) (sh : gnet_search_t) :
  sq_inv sq →
  let gone := filter (λ sb, shandle sb = sh) (searches sq) in
  ∃ sq',
    sq_search_closed sq sh = Ok (sq', map smsg_discard gone)
    ∧ sq_inv sq'
    ∧ searches sq' = filter (λ sb, shandle sb ≠ sh) (searches sq)
    ∧ (length gone ≤ 1)%nat
    ∧ count sq' = count sq - Z.of_nat (length gone)
    ∧ handles sq' = (if decide (sh ∈ queued_handles sq)
                     then handles sq ∖ {[sh]} else handles sq)
    ∧ n_sent sq' = n_sent sq ∧ n_dropped sq' = n_dropped sq
    ∧ last_sent sq' = last_sent sq
    ∧ (sh ∉ queued_handles sq → sq' = sq).
Proof.
  intros Hinv gone. unfold sq_search_closed.
  destruct (sq_search_closed_loop_full [] (searches sq) sq sh Hinv eq_refl)
    as (sq' & -> & Hinv' & Hs' & Hh' & Hn & Hls & Hns & Hnd).
  simpl in Hs'. simpl.
  pose proof (inv_count _ Hinv') as Hc'.
  pose proof (inv_count _ Hinv) as Hc.
  assert (Hassert : negb (bool_decide (searches sq' = []))
                    || bool_decide (count sq' = 0) = true).
  { destruct (searches sq') eqn:E; simpl; [|done].
    apply bool_decide_eq_true_2. rewrite Hc'. done. }
  rewrite Hassert. simpl. exists sq'.
  assert (Hlen : (length (searches sq) =
                  length (filter (λ sb, shandle sb ≠ sh) (searches sq))
                  + length gone)%nat).
  { subst gone. clear. induction (searches sq) as [|sb l IH]; [done|].
    destruct (decide (shandle sb = sh)).
    - rewrite filter_cons_False by (intros ?; done).
      rewrite filter_cons_True by done. simpl. lia.
    - rewrite filter_cons_True by done.
      rewrite filter_cons_False by done. simpl. lia. }
  split_and!; try done.
  - apply filter_present_once, Hinv.
  - rewrite Hc', Hc, Hs'. lia.
  - intros Hnin. destruct (filter_absent _ _ Hnin) as [Hf1 Hf2].
    apply squeue_eq; try done.
    + by rewrite Hs', Hf1.
    + rewrite Hh'. by rewrite decide_False.
    + rewrite Hc', Hc, Hs', Hf1. done.
Qed.

(** The node of a queue never changes. *)
Lemma sq_search_closed_node sq sh sq' evs :
  sq_search_closed sq sh = Ok (sq', evs) → node sq' = node sq.
Proof.
  unfold sq_search_closed.
  assert (H : ∀ l kept s s' e,
    sq_search_closed_loop kept l s sh = Ok (s', e) → node s' = node s).
  { induction l as [|sb next IH]; intros kept s s' e; simpl.
    - by intros [= <- <-].
    - case_bool_decide.
      + destruct (g_assert _); simpl; try done.
        unfold sqh_remove. simpl. destruct (g_assert _); simpl; try done.
        destruct (sq_search_closed_loop _ _ _ _) as [[s3 e3]| |] eqn:Hrec;
          simpl; try done.
        intros [= <- <-]. apply IH in Hrec. done.
      + apply IH. }
  destruct (sq_search_closed_loop _ _ _ _) as [[s1 e1]| |] eqn:Hloop;
    simpl; try done.
  destruct (g_assert _); simpl; try done. intros [= <- <-].
  by apply H in Hloop.
Qed.

(** X2: closing a search always succeeds on a consistent queue.  The
    entry of the search, of which there is at most one, is discarded and
    its handle forgotten; the other entries stay in order.  When no entry
    of the search is queued nothing changes: in particular a handle that is
    recorded without an entry stays recorded. *)
Theorem sq_search_closed_drops (sq : squeue) (sh : gnet_search_t) :
  sq_inv sq →
  let gone := filter (λ sb, shandle sb = sh) (searches sq) in
  ∃ sq',
    sq_search_closed sq sh = Ok (sq', map smsg_discard gone)
    ∧ sq_inv sq'
    ∧ searches sq' = filter (λ sb, shandle sb ≠ sh) (searches sq)
    ∧ (length gone ≤ 1)%nat
    ∧ count sq' = count sq - Z.of_nat (length gone)
    ∧ handles sq' = (if decide (sh ∈ queued_handles sq)
                     then handles sq ∖ {[sh]} else handles sq)
    ∧ n_sent sq' = n_sent sq ∧ n_dropped sq' = n_dropped sq
    ∧ last_sent sq' = last_sent sq
    ∧ (sh ∉ queued_handles sq → sq' = sq).
Proof. apply sq_search_closed_full. Qed.

Lemma sq_search_closed_drops_witness :
  ∃ sq',
    sq_search_closed sq_c6 7
      = Ok (sq', [Ev_discard [1; 2] (Some [3])])
    ∧ searches sq' = [] ∧ handles sq' = ∅.
Proof.
  destruct (sq_search_closed_drops sq_c6 7 sq_c6_inv)
    as (sq' & H1 & _ & H2 & _ & _ & H3 & _).
  exists sq'. split; [exact H1|]. split; [exact H2|].
  rewrite H3. vm_compute. reflexivity.
Defined.

(** *** Sending *)

(** The leading entries that the searches veto. *)
Fixpoint vetoed_prefix (env : sq_env) (l : list smsg) : list smsg :=
  match l with
  | [] => []
  | sb :: l' =>
      if search_query_allowed env (shandle sb) then []
      else sb :: vetoed_prefix env l'
  end.

(** The hook that a query to the peer [n] carries. *)
Definition sent_hook (env : sq_env) (sb : smsg) (n : gnutella_node)
    : option smsg_info :=
  if bool_decide (current_peermode env = NODE_P_LEAF)
  then Some (smsg_mutate env sb n) else None.

Lemma sq_process_loop_peer env n now fuel sq :
  sq_inv sq → node sq = Some n →
  (∀ sb, sb ∈ searches sq → qhv sb = None) →
  n_received n ≠ 0 → n_query_hops_ok n = true → n_writable n = true →
  n_tx_flow_control n = false →
  search_queue_spacing env ≤ delta_time now (last_sent sq) →
  (length (searches sq) < fuel)%nat →
  let v := vetoed_prefix env (searches sq) in
  let rest := drop (length v) (searches sq) in
  ∃ sq',
    sq_process_loop fuel env sq now
      = Ok (sq', map smsg_discard v
                 ++ match rest with
                    | [] => []
                    | sb :: _ => [Ev_mq_putq (n_id n) (mb sb) (sent_hook env sb n)]
                    end)
    ∧ sq_inv sq'
    ∧ searches sq' = tail rest
    ∧ handles sq'
      = handles sq ∖ handles_of (take (S (length v)) (searches sq))
    ∧ node sq' = node sq
    ∧ n_sent sq' = match rest with [] => n_sent sq | _ :: _ => n_sent sq + 1 end
    ∧ last_sent sq' = match rest with [] => last_sent sq | _ :: _ => now end
    ∧ n_dropped sq' = n_dropped sq.
Proof.
  revert sq. induction fuel as [|fuel IH];
    intros sq Hinv Hnode Hq Hrx Hhops Hwr Hfc Hsp Hlen; [lia|].
  pose proof (inv_count _ Hinv) as Hc.
  cbn [sq_process_loop]. unfold sq_process_body.
  destruct (searches sq) as [|sb l] eqn:Hs.
  - simpl in Hc. rewrite bool_decide_eq_true_2 by done. simpl.
    exists sq. split_and!; try done.
    unfold handles_of. simpl. set_solver.
  - simpl in Hc. rewrite bool_decide_eq_false_2 by lia.
    rewrite bool_decide_eq_false_2 by lia.
    rewrite Hnode. rewrite (bool_decide_eq_false_2 _ Hrx), Hhops, Hwr, Hfc.
    cbn [orb negb]. rewrite bool_decide_eq_true_2 by lia. simpl.
    assert (Hin : shandle sb ∈ handles sq).
    { apply (inv_handles _ Hinv). unfold queued_handles. rewrite Hs.
      simpl. set_solver. }
    assert (Hq0 : qhv sb = None) by (apply Hq; set_solver).
    assert (Hinv' : ∀ ls ns,
      sq_inv {| searches := l; handles := handles sq ∖ {[shandle sb]};
                node := Some n; count := count sq - 1; last_sent := ls;
                n_sent := ns; n_dropped := n_dropped sq |}).
    { intros ls ns. destruct Hinv as [Hnd Hh _]. unfold queued_handles in *.
      rewrite Hs in *. simpl in *. apply NoDup_cons in Hnd as [Hnin Hnd].
      split; unfold queued_handles; simpl; [done| |lia].
      intros h Hq'. apply elem_of_difference. split; [apply Hh; set_solver|].
      intros ->%elem_of_singleton. done. }
    destruct (search_query_allowed env (shandle sb)) eqn:Hal.
    + rewrite Hq0. simpl. unfold sqh_remove. simpl.
      rewrite (bool_decide_eq_true_2 _ Hin). simpl.
      eexists. split; [reflexivity|]. simpl. split_and!; try done.
      unfold handles_of. simpl. set_solver.
    + simpl. unfold sqh_remove. simpl.
      rewrite (bool_decide_eq_true_2 _ Hin). simpl.
      match goal with
      | |- context [sq_process_loop fuel env ?s now] => set (sq1 := s)
      end.
      destruct (IH sq1) as (sq' & -> & Hinv1 & Hs1 & Hh1 & Hn1 & Hns1 & Hls1 & Hd1);
        try done.
      { apply Hinv'. }
      { intros sb' Hin'. apply Hq. set_solver. }
      { simpl in Hlen. simpl. lia. }
      subst sq1. simpl in *. rewrite Hq0. exists sq'.
      split; [unfold smsg_discard at 2; by rewrite Hq0|]. split; [done|]. split; [done|].
      split; [|done].
      rewrite Hh1. unfold handles_of. simpl. set_solver.
Qed.

(** X3: a peer queue whose node is ready and whose spacing has elapsed
    skips the leading queries that their searches veto, discarding each,
    and hands the first allowed one to the message queue of the node: at
    most one query is sent per call.  The vetoed ones are not counted as
    dropped; when every entry is vetoed the queue ends up empty and
    [last_sent] stays. *)
Theorem sq_process_peer (env : sq_env) (sq : squeue) (n : gnutella_node)
    (now : Z) :
  sq_inv sq → node sq = Some n → n_has_outq n = true →
  (∀ sb, sb ∈ searches sq → qhv sb = None) →
  n_received n ≠ 0 → n_query_hops_ok n = true → n_writable n = true →
  n_tx_flow_control n = false →
  search_queue_spacing env ≤ delta_time now (last_sent sq) →
  let v := vetoed_prefix env (searches sq) in
  let rest := drop (length v) (searches sq) in
  ∃ sq',
    sq_process env sq now
      = Ok (sq', map smsg_discard v
                 ++ match rest with
                    | [] => []
                    | sb :: _ => [Ev_mq_putq (n_id n) (mb sb) (sent_hook env sb n)]
                    end)
    ∧ sq_inv sq'
    ∧ searches sq' = tail rest
    ∧ handles sq'
      = handles sq ∖ handles_of (take (S (length v)) (searches sq))
    ∧ n_sent sq' = match rest with [] => n_sent sq | _ :: _ => n_sent sq + 1 end
    ∧ last_sent sq' = match rest with [] => last_sent sq | _ :: _ => now end
    ∧ n_dropped sq' = n_dropped sq.
Proof.
  intros Hinv Hnode Houtq Hq Hrx Hhops Hwr Hfc Hsp v rest.
  unfold sq_process. rewrite Hnode, Houtq. simpl.
  destruct (sq_process_loop_peer env n now (S (length (searches sq))) sq)
    as (sq' & Hrun & Hinv' & Hs & Hh & _ & Hns & Hls & Hd); try done; [lia|].
  exists sq'. done.
Qed.

(** A peer that is ready for queries, and its queue: the search 7 of the
    head is vetoed by [env_one]. *)
Definition peer_ready : gnutella_node :=
  {| n_id := 3; n_has_outq := true; n_received := 1;
     n_query_hops_ok := true; n_writable := true;
     n_tx_flow_control := false |}.

Definition sq_peer : squeue :=
  {| searches := [ {| mb := [1]; shandle := 7; qhv := None |};
                   {| mb := [2]; shandle := 8; qhv := None |};
                   {| mb := [3]; shandle := 9; qhv := None |} ];
     handles := {[ 7; 8; 9 ]}; node := Some peer_ready; count := 3;
     last_sent := 0; n_sent := 0; n_dropped := 0 |}.

Lemma sq_peer_inv : sq_inv sq_peer.
Proof.
  split.
  - unfold queued_handles. simpl. apply NoDup_ListNoDup.
    repeat constructor; simpl; intuition discriminate.
  - unfold queued_handles. simpl. intros sh H. set_solver.
  - reflexivity.
Qed.

Lemma sq_process_peer_witness :
  ∃ sq',
    sq_process env_one sq_peer 100
      = Ok (sq', [Ev_discard [1] None; Ev_mq_putq 3 [2] None])
    ∧ searches sq' = [ {| mb := [3]; shandle := 9; qhv := None |} ]
    ∧ n_sent sq' = 1 ∧ n_dropped sq' = 0.
Proof.
  destruct (sq_process_peer env_one sq_peer peer_ready 100 sq_peer_inv)
    as (sq' & H1 & _ & H2 & _ & H3 & _ & H4).
  - reflexivity.
  - reflexivity.
  - intros sb H. simpl in H.
    repeat (apply elem_of_cons in H as [->|H]; [reflexivity|]).
    by apply elem_of_nil in H.
  - discriminate.
  - reflexivity.
  - reflexivity.
  - reflexivity.
  - vm_compute. discriminate.
  - exists sq'. split; [exact H1|]. split; [exact H2|].
    split; [exact H3 | exact H4].
Defined.

(** The global queue, when its gate is open. *)
Lemma sq_process_global_run env sq now sb rest q :
  sq_inv sq → node sq = None → searches sq = sb :: rest →
  qhv sb = Some q →
  current_peermode env = NODE_P_ULTRA →
  node_keep_missing env * 3 ≤ 2 * up_connections env →
  search_queue_spacing env ≤ delta_time now (last_sent sq) →
  let sq' :=
    {| searches := rest; handles := handles sq ∖ {[shandle sb]};
       node := None; count := count sq - 1; last_sent := now;
       n_sent := n_sent sq + 1; n_dropped := n_dropped sq |} in
  sq_process env sq now = Ok (sq', [Ev_dq_launch_local (shandle sb) (mb sb) q])
  ∧ sq_inv sq'.
Proof.
  intros Hinv Hnode Hs Hq Hul Hgate Hsp sq'.
  pose proof (inv_count _ Hinv) as Hc. rewrite Hs in Hc. simpl in Hc.
  assert (Hin : shandle sb ∈ handles sq).
  { apply (inv_handles _ Hinv). unfold queued_handles. rewrite Hs.
    simpl. set_solver. }
  split.
  - unfold sq_process. rewrite Hnode. simpl. unfold sq_process_body.
    rewrite bool_decide_eq_false_2 by lia.
    rewrite bool_decide_eq_false_2 by lia.
    rewrite Hnode, Hs.
    rewrite (bool_decide_eq_true_2 _ Hul).
    rewrite (bool_decide_eq_false_2
               (2 * up_connections env < node_keep_missing env * 3)) by lia.
    cbn [orb negb]. rewrite bool_decide_eq_true_2 by lia. simpl.
    rewrite Hq. simpl. unfold sqh_remove. simpl.
    rewrite (bool_decide_eq_true_2 _ Hin). simpl. done.
  - destruct Hinv as [Hnd Hh _]. unfold queued_handles in *.
    rewrite Hs in *. simpl in *. apply NoDup_cons in Hnd as [Hnin Hnd].
    split; unfold queued_handles; simpl; [done| |lia].
    intros h Hq'. apply elem_of_difference. split; [apply Hh; set_solver|].
    intros ->%elem_of_singleton. done.
Qed.

(** X4: once its gate is open (ultrapeer mode, no more than two thirds of
    the connections missing, spacing elapsed) the global queue launches the
    dynamic query of its head entry, the one enqueued last, whatever
    [search_query_allowed] says of the search: the veto only applies to the
    queues of the peers. *)
Theorem sq_process_global_launch (env : sq_env) (sq : squeue) (now : Z)
    (sb : smsg) (rest : list smsg) (q : query_hashvec) :
  sq_inv sq → node sq = None → searches sq = sb :: rest →
  qhv sb = Some q →
  current_peermode env = NODE_P_ULTRA →
  node_keep_missing env * 3 ≤ 2 * up_connections env →
  search_queue_spacing env ≤ delta_time now (last_sent sq) →
  sq_process env sq now
    = Ok ({| searches := rest; handles := handles sq ∖ {[shandle sb]};
             node := None; count := count sq - 1; last_sent := now;
             n_sent := n_sent sq + 1; n_dropped := n_dropped sq |},
          [Ev_dq_launch_local (shandle sb) (mb sb) q]).
Proof. intros. by apply sq_process_global_run. Qed.

Lemma sq_process_global_launch_witness :
  search_query_allowed env_one 7 = false
  ∧ sq_process env_one sq_c6 100
    = Ok ({| searches := []; handles := {[7]} ∖ {[7]}; node := None;
             count := 1 - 1; last_sent := 100; n_sent := 0 + 1;
             n_dropped := 0 |},
          [Ev_dq_launch_local 7 [1; 2] [3]]).
Proof.
  split; [reflexivity|].
  apply (sq_process_global_launch env_one sq_c6 100
           {| mb := [1; 2]; shandle := 7; qhv := Some [3] |} [] [3]
           sq_c6_inv);
    try reflexivity.
  - vm_compute. discriminate.
  - vm_compute. discriminate.
Defined.

(** *** Sequences of calls on the global queue *)

(** What the rest of the program calls on the global queue.  Each call
    comes with the settings that hold when it is made. *)
Inductive sq_call :=
| Call_global_putq (sh : gnet_search_t) (m : pmsg) (q : query_hashvec)
| Call_process (now : Z)
| Call_search_closed (sh : gnet_search_t)
| Call_set_peermode (mode : node_peer_t).

Definition sq_exec (env : sq_env) (c : sq_call) (global_sq : squeue)
    : result (squeue * list sq_event) :=
  match c with
  | Call_global_putq sh m q => sq_global_putq env global_sq sh m q
  | Call_process now => sq_process env global_sq now
  | Call_search_closed sh => sq_search_closed global_sq sh
  | Call_set_peermode mode => Ok (sq_set_peermode mode global_sq)
  end.

Fixpoint sq_exec_all (calls : list (sq_env * sq_call)) (global_sq : squeue)
    : result (squeue * list sq_event) :=
  match calls with
  | [] => Ok (global_sq, [])
  | (env, c) :: calls' =>
      '(sq1, evs) ← sq_exec env c global_sq;
      '(sq2, evs') ← sq_exec_all calls' sq1;
      Ok (sq2, evs ++ evs')
  end.

(** The hand-overs among the events. *)
Definition dispatches (evs : list sq_event) : Z :=
  Z.of_nat (length (filter (λ e, is_dispatch e = true) evs)).

(** The call does not clear the queue. *)
Definition keeps_queue (c : sq_call) : Prop :=
  match c with
  | Call_set_peermode mode => mode = NODE_P_ULTRA
  | _ => True
  end.

(** A consistent global queue: every entry came through
    [sq_global_putq]. *)
Definition global_ok (sq : squeue) : Prop :=
  sq_inv sq ∧ node sq = None ∧ ∀ sb, sb ∈ searches sq → qhv sb ≠ None.

Lemma dispatches_app evs evs' :
  dispatches (evs ++ evs') = dispatches evs + dispatches evs'.
Proof. unfold dispatches. rewrite filter_app, length_app. lia. Qed.

Lemma dispatches_discards (l : list smsg) :
  dispatches (map smsg_discard l) = 0.
Proof.
  unfold dispatches. induction l as [|sb l IH]; [done|]. simpl.
  rewrite filter_cons_False by done. done.
Qed.

Lemma sq_exec_global_ok env c sq :
  global_ok sq → 0 ≤ search_queue_size env →
  ∃ sq' evs,
    sq_exec env c sq = Ok (sq', evs)
    ∧ global_ok sq'
    ∧ count sq' ≤ Z.max (count sq) (search_queue_size env)
    ∧ n_sent sq' = n_sent sq + dispatches evs
    ∧ (keeps_queue c → handles_exact sq → handles_exact sq').
Proof.
  intros (Hinv & Hnode & Hq) Hsz.
  pose proof (inv_count _ Hinv) as Hc.
  destruct c as [sh m q|now|sh|mode]; simpl.
  - (* sq_global_putq *)
    unfold sq_global_putq.
    destruct (decide (sh ∈ handles sq)) as [Hin|Hnin].
    + rewrite sq_puthere_known by done. exists sq, [].
      split; [done|]. split; [done|]. split; [lia|].
      split; [unfold dispatches; simpl; lia|done].
    + destruct (sq_puthere_fresh_full env sq sh m (Some q) Hinv Hsz Hnin)
        as (sq' & -> & Hinv' & Hs & Hh & Hcnt & Hd & Hn & Hls & Hns).
      eexists _, _. split; [done|]. split; [|split; [|split]].
      * split; [done|]. split; [congruence|].
        intros sb Hin. rewrite Hs in Hin. apply elem_of_take in Hin
          as (i & Hi & _).
        apply list_elem_of_lookup_2 in Hi.
        apply elem_of_cons in Hi as [->|Hi]; [done|by apply Hq].
      * lia.
      * rewrite dispatches_discards. lia.
      * intros _ Hex h Hin. rewrite Hh in Hin.
        apply elem_of_difference in Hin as [Hin Hnd].
        assert (Hl : h ∈ map shandle (smsg_alloc sh m (Some q) :: searches sq)).
        { simpl. apply elem_of_union in Hin as [->%elem_of_singleton|Hin].
          - set_solver.
          - apply elem_of_cons. right. by apply Hex. }
        rewrite <- (take_drop (Z.to_nat (search_queue_size env))
                      (smsg_alloc sh m (Some q) :: searches sq)) in Hl.
        rewrite map_app in Hl. apply elem_of_app in Hl as [Hl|Hl].
        -- unfold queued_handles. by rewrite Hs.
        -- exfalso. apply Hnd. unfold handles_of.
           by apply elem_of_list_to_set.
  - (* sq_process *)
    destruct (decide (count sq = 0 ∨
                      delta_time now (last_sent sq) < search_queue_spacing env
                      ∨ current_peermode env ≠ NODE_P_ULTRA
                      ∨ 2 * up_connections env < node_keep_missing env * 3))
      as [Hgate|Hopen].
    + exists sq, [].
      split.
      { unfold sq_process. rewrite Hnode. simpl. unfold sq_process_body.
        rewrite Hnode.
        case_bool_decide as H1; [done|].
        case_bool_decide as H2; [done|].
        destruct Hgate as [?|[?|[H3|H4]]]; [done|done| |].
        - rewrite (bool_decide_eq_false_2 _ H3). done.
        - rewrite (bool_decide_eq_true_2 _ H4), orb_true_r. done. }
      split; [done|]. split; [lia|].
      split; [unfold dispatches; simpl; lia|done].
    + destruct (searches sq) as [|sb rest] eqn:Hs.
      { exfalso. apply Hopen. left. rewrite Hc. done. }
      destruct (qhv sb) as [q|] eqn:Hqs.
      2:{ exfalso. apply (Hq sb); [set_solver|done]. }
      destruct (sq_process_global_run env sq now sb rest q) as [-> Hinv'];
        try done.
      { destruct (current_peermode env); try done;
          exfalso; apply Hopen; right; right; left; done. }
      { destruct (decide (node_keep_missing env * 3 ≤ 2 * up_connections env));
          [done|]. exfalso. apply Hopen. right. right. right. lia. }
      { destruct (decide (search_queue_spacing env
                          ≤ delta_time now (last_sent sq))); [done|].
        exfalso. apply Hopen. right. left. lia. }
      eexists _, _. split; [done|]. split; [|split; [|split]].
      * split; [done|]. split; [done|]. simpl.
        intros sb' Hin. apply Hq. set_solver.
      * simpl. lia.
      * simpl. unfold dispatches. simpl. lia.
      * intros _ Hex h Hin. simpl in Hin.
        apply elem_of_difference in Hin as [Hin Hne].
        apply Hex in Hin. unfold queued_handles in *. rewrite Hs in Hin.
        simpl in *. apply elem_of_cons in Hin as [->|Hin]; [|done].
        exfalso. apply Hne. set_solver.
  - (* sq_search_closed *)
    destruct (sq_search_closed_full sq sh Hinv)
      as (sq' & Hrun & Hinv' & Hs & Hlen & Hcnt & Hh & Hns & Hd & Hls & Hsame).
    rewrite Hrun. eexists _, _. split; [done|].
    split; [|split; [|split]].
    * split; [done|]. split.
      -- apply sq_search_closed_node in Hrun. congruence.
      -- intros sb Hin. rewrite Hs in Hin.
         apply list_elem_of_filter in Hin as [_ Hin]. by apply Hq.
    * lia.
    * rewrite dispatches_discards. lia.
    * intros _ Hex h Hin. unfold queued_handles. rewrite Hs.
      assert (Hne : h ≠ sh).
      { intros ->. destruct (decide (sh ∈ queued_handles sq)) as [Hy|Hn].
        - rewrite Hh in Hin. set_solver.
        - apply Hn, Hex. by rewrite Hh in Hin. }
      assert (Hin' : h ∈ queued_handles sq).
      { apply Hex. rewrite Hh in Hin.
        destruct (decide (sh ∈ queued_handles sq)); set_solver. }
      unfold queued_handles in Hin'.
      apply list_elem_of_fmap in Hin' as (sb & -> & Hin').
      apply list_elem_of_fmap. exists sb. split; [done|].
      apply list_elem_of_filter. done.
  - (* sq_set_peermode *)
    unfold sq_set_peermode. case_bool_decide as Hm.
    + exists sq, []. split; [done|]. split; [done|]. split; [lia|].
      split; [unfold dispatches; simpl; lia|done].
    + eexists _, _. split; [done|]. simpl.
      split; [|split; [|split]].
      * split; [apply sq_clear_inv|]. split; [done|]. simpl.
        intros sb Hin. by apply elem_of_nil in Hin.
      * lia.
      * rewrite dispatches_discards. lia.
      * intros Hk. done.
Qed.

Lemma sq_exec_all_global_ok calls cap sq :
  Forall (λ ec, 0 ≤ search_queue_size ec.1 ≤ cap) calls →
  global_ok sq →
  ∃ sq' evs,
    sq_exec_all calls sq = Ok (sq', evs)
    ∧ global_ok sq'
    ∧ count sq' ≤ Z.max (count sq) cap
    ∧ n_sent sq' = n_sent sq + dispatches evs
    ∧ (Forall (λ ec, keeps_queue ec.2) calls →
       handles_exact sq → handles_exact sq').
Proof.
  revert sq. induction calls as [|[env c] calls IH]; intros sq Hsz Hok.
  - exists sq, []. simpl. split; [done|]. split; [done|]. split; [lia|].
    split; [unfold dispatches; simpl; lia|done].
  - apply Forall_cons in Hsz as [Hsz1 Hsz]. simpl in Hsz1.
    destruct (sq_exec_global_ok env c sq Hok)
      as (sq1 & evs1 & Hrun1 & Hok1 & Hc1 & Hn1 & Hex1); [lia|].
    destruct (IH sq1 Hsz Hok1) as (sq2 & evs2 & Hrun2 & Hok2 & Hc2 & Hn2 & Hex2).
    exists sq2, (evs1 ++ evs2). simpl. rewrite Hrun1. simpl.
    rewrite Hrun2. simpl. split; [done|]. split; [done|].
    split; [lia|]. split; [rewrite dispatches_app; lia|].
    intros Hk Hex. apply Forall_cons in Hk as [Hk1 Hk].
    apply Hex2; [done|]. by apply Hex1.
Qed.

(** X5: whatever the rest of the program calls on the global queue, in
    whatever order and under whatever settings (with search_queue_size
    between 0 and [cap]), no assertion of sq.c fails; the queue stays
    consistent, never holds more than [cap] entries, and [n_sent] counts
    the queries handed over.  As long as no call clears the queue, the
    recorded handles are exactly those of the queued entries. *)
Theorem sq_global_calls_safe (calls : list (sq_env * sq_call))
    (cap time_now : Z) :
  Forall (λ ec, 0 ≤ search_queue_size ec.1 ≤ cap) calls →
  ∃ sq' evs,
    sq_exec_all calls (sq_init time_now) = Ok (sq', evs)
    ∧ sq_inv sq'
    ∧ node sq' = None
    ∧ count sq' ≤ Z.max 0 cap
    ∧ n_sent sq' = dispatches evs
    ∧ (Forall (λ ec, keeps_queue ec.2) calls → handles_exact sq').
Proof.
  intros Hsz.
  destruct (sq_make_inv None time_now) as [Hinv Hex].
  destruct (sq_exec_all_global_ok calls cap (sq_init time_now) Hsz)
    as (sq' & evs & Hrun & (Hinv' & Hnode & _) & Hc & Hn & Hex').
  { split; [done|]. split; [done|]. intros sb Hin. by apply elem_of_nil in Hin. }
  exists sq', evs. split; [done|]. split; [done|]. split; [done|].
  split; [done|]. split; [done|]. intros Hk. by apply Hex'.
Qed.

Lemma sq_global_calls_safe_witness :
  ∃ sq' evs,
    sq_exec_all [(env_one, Call_global_putq 7 [1] [2]);
                 (env_one, Call_global_putq 8 [3] [4]);
                 (env_one, Call_process 100);
                 (env_one, Call_set_peermode NODE_P_LEAF);
                 (env_one, Call_search_closed 8)] (sq_init 0)
      = Ok (sq', evs)
    ∧ count sq' ≤ 1 ∧ n_sent sq' = dispatches evs.
Proof.
  destruct (sq_global_calls_safe
              [(env_one, Call_global_putq 7 [1] [2]);
               (env_one, Call_global_putq 8 [3] [4]);
               (env_one, Call_process 100);
               (env_one, Call_set_peermode NODE_P_LEAF);
               (env_one, Call_search_closed 8)] 1 0)
    as (sq' & evs & H1 & _ & _ & H2 & H3 & _).
  - repeat constructor; simpl; lia.
  - exists sq', evs. split; [exact H1|]. split; [exact H2 | exact H3].
Defined.

(** X6: the queue is a stack.  A query enqueued on the global queue whose
    gate is open is the one that the next [sq_process] launches; when the
    queue was not full before, it is then back to what it was, with one
    more query sent. *)
Theorem sq_global_putq_then_process (env : sq_env) (sq : squeue)
    (sh : gnet_search_t) (m : pmsg) (q : query_hashvec) (now : Z) :
  sq_inv sq → node sq = None → sh ∉ handles sq →
  1 ≤ search_queue_size env →
  current_peermode env = NODE_P_ULTRA →
  node_keep_missing env * 3 ≤ 2 * up_connections env →
  search_queue_spacing env ≤ delta_time now (last_sent sq) →
  let n := Z.to_nat (search_queue_size env - 1) in
  ∃ sq1 sq2,
    sq_global_putq env sq sh m q
      = Ok (sq1, map smsg_discard (rev (drop n (searches sq))))
    ∧ sq_process env sq1 now = Ok (sq2, [Ev_dq_launch_local sh m q])
    ∧ searches sq2 = take n (searches sq)
    ∧ handles sq2 = handles sq ∖ handles_of (drop n (searches sq))
    ∧ n_sent sq2 = n_sent sq + 1
    ∧ last_sent sq2 = now
    ∧ (count sq < search_queue_size env →
       searches sq2 = searches sq ∧ handles sq2 = handles sq
       ∧ count sq2 = count sq ∧ n_dropped sq2 = n_dropped sq).
Proof.
  intros Hinv Hnode Hnin Hsz Hul Hgate Hsp n.
  pose proof (inv_count _ Hinv) as Hc.
  destruct (sq_puthere_fresh_full env sq sh m (Some q) Hinv) as
    (sq1 & Hrun1 & Hinv1 & Hs1 & Hh1 & Hc1 & Hd1 & Hn1 & Hls1 & Hns1);
    [lia|done|].
  assert (HS : Z.to_nat (search_queue_size env) = S n) by (subst n; lia).
  rewrite HS in *. simpl in Hs1, Hh1, Hd1, Hrun1.
  destruct (sq_process_global_run env sq1 now (smsg_alloc sh m (Some q))
              (take n (searches sq)) q) as [Hrun2 Hinv2]; try done.
  { congruence. }
  { by rewrite Hls1. }
  eexists sq1, _. split; [exact Hrun1|]. split; [exact Hrun2|]. simpl.
  assert (Hnd : NoDup (sh :: map shandle (searches sq))).
  { constructor; [|apply Hinv]. intros Hin.
    apply Hnin. by apply (inv_handles _ Hinv). }
  assert (Hsub : handles_of (drop n (searches sq)) ⊆ handles sq).
  { intros h Hin. unfold handles_of in Hin.
    apply elem_of_list_to_set in Hin. apply (inv_handles _ Hinv).
    unfold queued_handles. rewrite <- (take_drop n (searches sq)).
    rewrite map_app. set_solver. }
  assert (Hh2 : handles sq1 ∖ {[sh]}
                = handles sq ∖ handles_of (drop n (searches sq))).
  { rewrite Hh1. set_solver. }
  split; [done|]. split; [done|]. split; [lia|]. split; [done|].
  intros Hlt.
  assert (Hge : (length (searches sq) ≤ n)%nat) by (subst n; lia).
  rewrite take_ge by done. rewrite drop_ge in Hh2, Hd1 by done.
  split; [done|]. split.
  - rewrite Hh2. unfold handles_of. simpl. set_solver.
  - split; [lia|]. simpl in Hd1. lia.
Qed.

Lemma sq_global_putq_then_process_witness :
  ∃ sq1 sq2,
    sq_global_putq env_c7 sq_c6 8 [4] [5] = Ok (sq1, [])
    ∧ sq_process env_c7 sq1 100 = Ok (sq2, [Ev_dq_launch_local 8 [4] [5]])
    ∧ searches sq2 = searches sq_c6.
Proof.
  destruct (sq_global_putq_then_process env_c7 sq_c6 8 [4] [5] 100 sq_c6_inv)
    as (sq1 & sq2 & H1 & H2 & _ & _ & _ & _ & H3).
  - reflexivity.
  - vm_compute. discriminate.
  - vm_compute. discriminate.
  - reflexivity.
  - vm_compute. discriminate.
  - vm_compute. discriminate.
  - exists sq1, sq2. split; [exact H1|]. split; [exact H2|].
    apply H3. vm_compute. reflexivity.
Defined.

End SQMore.

(** * More of the background tasks *)

Module BGMore.
Import BG BGProps.

(** *** Flags, bit by bit *)

Lemma has_flag_false f a : has_flag f a = false ↔ Z.land f a = 0.
Proof.
  unfold has_flag. rewrite negb_false_iff. apply Z.eqb_eq.
Qed.

Lemma land_zero_bits f a n :
  Z.land f a = 0 → Z.testbit f n && Z.testbit a n = false.
Proof.
  intros H. rewrite <- Z.land_spec, H. apply Z.bits_0.
Qed.

(** Setting [b], which was not set, after a detour through [a]. *)
Lemma flags_detour f a b :
  Z.land f a = 0 →
  set_flag (clear_flag (set_flag (clear_flag f b) a) a) b = set_flag f b.
Proof.
  intros Ha. unfold set_flag, clear_flag. apply Z.bits_inj'. intros n Hn.
  rewrite !Z.lor_spec, !Z.ldiff_spec, !Z.lor_spec, !Z.ldiff_spec.
  pose proof (land_zero_bits f a n Ha).
  destruct (Z.testbit f n), (Z.testbit a n), (Z.testbit b n); done.
Qed.

Lemma flags_slice f a b :
  Z.land f a = 0 → Z.land a b = 0 →
  clear_flag (set_flag (set_flag (clear_flag f b) a) b) a = set_flag f b.
Proof.
  intros Ha Hab. unfold set_flag, clear_flag. apply Z.bits_inj'. intros n Hn.
  rewrite !Z.ldiff_spec, !Z.lor_spec, !Z.ldiff_spec.
  pose proof (land_zero_bits f a n Ha).
  pose proof (land_zero_bits a b n Hab).
  destruct (Z.testbit f n), (Z.testbit a n), (Z.testbit b n); done.
Qed.

(** *** The primitives, run *)

Lemma bg_sched_add_run h s bt :
  tasks s !! h = Some bt →
  has_flag (flags bt) TASK_F_RUNNABLE = false →
  bg_sched_add h s =
    Ok {| tasks := <[h := with_flags bt (set_flag (flags bt) TASK_F_RUNNABLE)]>
                     (tasks s);
          runq := runq s ++ [h]; sleepq := sleepq s; runcount := runcount s;
          dead_tasks := dead_tasks s; current_task := current_task s;
          calls := calls s |}.
Proof.
  intros Ht Hr. unfold bg_sched_add. rewrite (get_task_ok _ _ _ Ht). simpl.
  rewrite Hr. simpl. done.
Qed.

Lemma bg_sched_remove_run h s bt :
  tasks s !! h = Some bt →
  bg_sched_remove h s =
    Ok {| tasks := <[h := with_flags bt
                             (clear_flag (flags bt) TASK_F_RUNNABLE)]>
                     (tasks s);
          runq := g_slist_remove (runq s) h; sleepq := sleepq s;
          runcount := runcount s; dead_tasks := dead_tasks s;
          current_task := current_task s; calls := calls s |}.
Proof.
  intros Ht. unfold bg_sched_remove. rewrite (get_task_ok _ _ _ Ht). done.
Qed.

Lemma bg_sched_sleep_run h s bt :
  tasks s !! h = Some bt →
  has_flag (flags bt) TASK_F_SLEEPING = false →
  has_flag (flags bt) TASK_F_RUNNING = false →
  0 < runcount s →
  bg_sched_sleep h s =
    Ok {| tasks :=
            <[h := with_flags bt
                     (set_flag (clear_flag (flags bt) TASK_F_RUNNABLE)
                        TASK_F_SLEEPING)]> (tasks s);
          runq := g_slist_remove (runq s) h; sleepq := h :: sleepq s;
          runcount := runcount s - 1; dead_tasks := dead_tasks s;
          current_task := current_task s; calls := calls s |}.
Proof.
  intros Ht Hs Hr Hc. unfold bg_sched_sleep.
  rewrite (get_task_ok _ _ _ Ht). simpl. rewrite Hs, Hr. simpl.
  rewrite bool_decide_eq_true_2 by done. simpl.
  rewrite (bg_sched_remove_run _ _ _ Ht). simpl.
  unfold get_task. simpl. rewrite lookup_insert_eq. simpl.
  unfold put_task. simpl. by rewrite insert_insert_eq.
Qed.

Lemma bg_sched_wakeup_run h s bt :
  tasks s !! h = Some bt →
  has_flag (flags bt) TASK_F_SLEEPING = true →
  has_flag (flags bt) TASK_F_RUNNING = false →
  has_flag (flags bt) TASK_F_RUNNABLE = false →
  bg_sched_wakeup h s =
    Ok {| tasks :=
            <[h := with_flags bt
                     (set_flag (clear_flag (flags bt) TASK_F_SLEEPING)
                        TASK_F_RUNNABLE)]> (tasks s);
          runq := runq s ++ [h]; sleepq := g_slist_remove (sleepq s) h;
          runcount := runcount s + 1; dead_tasks := dead_tasks s;
          current_task := current_task s; calls := calls s |}.
Proof.
  intros Ht Hs Hr Hrb. unfold bg_sched_wakeup.
  rewrite (get_task_ok _ _ _ Ht). simpl. rewrite Hs, Hr. simpl.
  rewrite (bg_sched_add_run h _
             (with_flags bt (clear_flag (flags bt) TASK_F_SLEEPING))).
  - simpl. by rewrite insert_insert_eq.
  - simpl. apply lookup_insert_eq.
  - simpl. rewrite has_flag_clear_other by reflexivity. done.
Qed.

(** X7: putting a task to sleep and waking it up again is a round trip,
    but for the run queue: the task is back at its tail, flagged as
    runnable, and [runcount], which went down by one, is restored. *)
Theorem bg_sched_sleep_wakeup (h : Z) (s : sched) (bt : bgtask) :
  tasks s !! h = Some bt →
  has_flag (flags bt) TASK_F_SLEEPING = false →
  has_flag (flags bt) TASK_F_RUNNING = false →
  0 < runcount s →
  ∃ s1 bt1,
    bg_sched_sleep h s = Ok s1
    ∧ runcount s1 = runcount s - 1
    ∧ sleepq s1 = h :: sleepq s
    ∧ runq s1 = g_slist_remove (runq s) h
    ∧ tasks s1 !! h = Some bt1
    ∧ has_flag (flags bt1) TASK_F_SLEEPING = true
    ∧ has_flag (flags bt1) TASK_F_RUNNABLE = false
    ∧ bg_sched_wakeup h s1 =
        Ok {| tasks :=
                <[h := with_flags bt (set_flag (flags bt) TASK_F_RUNNABLE)]>
                  (tasks s);
              runq := g_slist_remove (runq s) h ++ [h];
              sleepq := sleepq s; runcount := runcount s;
              dead_tasks := dead_tasks s; current_task := current_task s;
              calls := calls s |}.
Proof.
  intros Ht Hs Hr Hc.
  rewrite (bg_sched_sleep_run h s bt) by done.
  eexists _, _. split; [reflexivity|]. simpl.
  split; [done|]. split; [done|]. split; [done|].
  split; [apply lookup_insert_eq|]. simpl.
  split; [by apply has_flag_set_same|].
  split.
  { rewrite has_flag_set_other by reflexivity. apply has_flag_clear_same. }
  rewrite (bg_sched_wakeup_run h _
             (with_flags bt
                (set_flag (clear_flag (flags bt) TASK_F_RUNNABLE)
                   TASK_F_SLEEPING))).
  - simpl. rewrite insert_insert_eq.
    rewrite decide_True by done.
    rewrite flags_detour by (by apply has_flag_false).
    f_equal. f_equal. lia.
  - simpl. apply lookup_insert_eq.
  - simpl. by apply has_flag_set_same.
  - simpl. rewrite has_flag_set_other by reflexivity.
    rewrite has_flag_clear_other by reflexivity. done.
  - simpl. rewrite has_flag_set_other by reflexivity.
    apply has_flag_clear_same.
Qed.

(** A task that waits in the run queue, and a scheduler that holds it. *)
Definition task_idle : bgtask :=
  {| magic := BT_MAGIC; flags := TASK_F_RUNNABLE; step := 0; seqno := 0;
     stepcnt := 2; wtime := 12; has_done_cb := true; exitcode := 0;
     signal := 0; signals := []; ticks := 10; ticks_used := 10;
     prev_ticks := 10; elapsed := 50000; tick_cost := 500 # 1;
     wq := []; has_item_free := false; has_notify := false |}.

Definition sched_two : sched :=
  {| tasks := {[ 1 := task_idle; 2 := task_idle ]}; runq := [1; 2];
     sleepq := []; runcount := 2; dead_tasks := []; current_task := None;
     calls := [] |}.

Lemma bg_sched_sleep_wakeup_witness :
  ∃ s1,
    bg_sched_sleep 1 sched_two = Ok s1
    ∧ runcount s1 = 1 ∧ sleepq s1 = [1] ∧ runq s1 = [2]
    ∧ ∃ s2, bg_sched_wakeup 1 s1 = Ok s2
            ∧ runq s2 = [2; 1] ∧ runcount s2 = 2 ∧ sleepq s2 = [].
Proof.
  destruct (bg_sched_sleep_wakeup 1 sched_two task_idle)
    as (s1 & bt1 & H1 & H2 & H3 & H4 & _ & _ & _ & H5).
  - reflexivity.
  - reflexivity.
  - reflexivity.
  - reflexivity.
  - exists s1. split; [exact H1|]. split; [exact H2|]. split; [exact H3|].
    split; [exact H4|]. eexists. split; [exact H5|].
    split; [reflexivity|]. split; reflexivity.
Defined.

(** *** A time slice *)

Lemma bg_task_resume_run h s bt :
  tasks s !! h = Some bt →
  has_flag (flags bt) TASK_F_RUNNING = false →
  bg_task_resume h s =
    Ok {| tasks :=
            <[h := with_flags bt
                     (set_flag (clear_flag (flags bt) TASK_F_RUNNABLE)
                        TASK_F_RUNNING)]> (tasks s);
          runq := g_slist_remove (runq s) h; sleepq := sleepq s;
          runcount := runcount s; dead_tasks := dead_tasks s;
          current_task := current_task s; calls := calls s |}.
Proof.
  intros Ht Hr. unfold bg_task_resume.
  rewrite (get_task_ok _ _ _ Ht). simpl. rewrite Hr. simpl.
  rewrite (bg_sched_remove_run _ _ _ Ht). simpl.
  unfold get_task. simpl. rewrite lookup_insert_eq. simpl.
  unfold put_task. simpl. by rewrite insert_insert_eq.
Qed.

(** The tick cost after a slice of [el] usecs. *)
Definition next_tick_cost (bt : bgtask) (el : Z) : Q :=
  if has_flag (flags bt) TASK_F_NOTICK then tick_cost bt
  else ((4 * tick_cost bt + inject_Z (Z.quot el (ticks_used bt))) / 5)%Q.

Lemma bg_task_suspend_run h measured s bt :
  tasks s !! h = Some bt →
  has_flag (flags bt) TASK_F_RUNNING = true →
  has_flag (flags bt) TASK_F_RUNNABLE = false →
  0 ≤ measured →
  (has_flag (flags bt) TASK_F_NOTICK = false → ticks_used bt ≠ 0) →
  bg_task_suspend h measured s =
    Ok {| tasks :=
            <[h := with_stats
                     (with_flags bt
                        (clear_flag (set_flag (flags bt) TASK_F_RUNNABLE)
                           TASK_F_RUNNING))
                     measured (wtime bt + Z.quot (measured + 500) 1000)
                     (ticks_used bt) (next_tick_cost bt measured)]>
              (tasks s);
          runq := runq s ++ [h]; sleepq := sleepq s; runcount := runcount s;
          dead_tasks := dead_tasks s; current_task := current_task s;
          calls := calls s |}.
Proof.
  intros Ht Hr Hrb Hm Hu. unfold bg_task_suspend.
  rewrite (get_task_ok _ _ _ Ht). simpl. rewrite Hr. simpl.
  rewrite (bg_sched_add_run _ _ _ Ht Hrb). simpl.
  unfold get_task. simpl. rewrite lookup_insert_eq. simpl.
  rewrite (bool_decide_eq_false_2 (measured < 0)) by lia. simpl.
  rewrite has_flag_clear_other by reflexivity.
  rewrite has_flag_set_other by reflexivity.
  unfold next_tick_cost.
  destruct (has_flag (flags bt) TASK_F_NOTICK) eqn:Hn; simpl.
  - unfold put_task. simpl. by rewrite insert_insert_eq.
  - rewrite (bool_decide_eq_false_2 (ticks_used bt = 0)) by (by apply Hu).
    simpl. unfold put_task. simpl. by rewrite insert_insert_eq.
Qed.

(** X8: a time slice.  The scheduler switches to a task of the run queue,
    then away from it after [measured] usecs: the task is back at the tail
    of the run queue (round robin), runnable and no longer running, and
    its statistics are those of the slice: [elapsed], the wall-clock time
    rounded to the millisecond, [prev_ticks], and the tick cost, a moving
    average of weight one fifth. *)
Theorem bg_task_switch_slice (h : Z) (s : sched) (bt : bgtask)
    (measured : Z) :
  tasks s !! h = Some bt →
  current_task s = None →
  has_flag (flags bt) TASK_F_RUNNING = false →
  0 ≤ measured →
  (has_flag (flags bt) TASK_F_NOTICK = false → ticks_used bt ≠ 0) →
  ∃ s1 bt1,
    bg_task_switch (Some h) 0 s = Ok s1
    ∧ current_task s1 = Some h
    ∧ runq s1 = g_slist_remove (runq s) h
    ∧ tasks s1 !! h = Some bt1
    ∧ has_flag (flags bt1) TASK_F_RUNNING = true
    ∧ has_flag (flags bt1) TASK_F_RUNNABLE = false
    ∧ bg_task_switch None measured s1 =
        Ok {| tasks :=
                <[h := with_stats
                         (with_flags bt
                            (set_flag (flags bt) TASK_F_RUNNABLE))
                         measured (wtime bt + Z.quot (measured + 500) 1000)
                         (ticks_used bt) (next_tick_cost bt measured)]>
                  (tasks s);
              runq := g_slist_remove (runq s) h ++ [h];
              sleepq := sleepq s; runcount := runcount s;
              dead_tasks := dead_tasks s; current_task := None;
              calls := calls s |}.
Proof.
  intros Ht Hcur Hr Hm Hu.
  unfold bg_task_switch at 1. rewrite (get_task_ok _ _ _ Ht). simpl.
  rewrite Hr, Hcur. simpl.
  rewrite (bg_task_resume_run _ _ _ Ht Hr). simpl.
  eexists _, _. split; [reflexivity|]. simpl.
  split; [done|]. split; [done|]. split; [apply lookup_insert_eq|]. simpl.
  split; [by apply has_flag_set_same|].
  split.
  { rewrite has_flag_set_other by reflexivity. apply has_flag_clear_same. }
  unfold bg_task_switch. simpl.
  rewrite (bg_task_suspend_run h measured _
             (with_flags bt
                (set_flag (clear_flag (flags bt) TASK_F_RUNNABLE)
                   TASK_F_RUNNING))).
  - simpl. rewrite insert_insert_eq. unfold set_current. simpl.
    rewrite flags_slice; [|by apply has_flag_false|reflexivity].
    unfold next_tick_cost. simpl.
    rewrite has_flag_set_other by reflexivity.
    rewrite has_flag_clear_other by reflexivity. done.
  - simpl. apply lookup_insert_eq.
  - simpl. by apply has_flag_set_same.
  - simpl. rewrite has_flag_set_other by reflexivity.
    apply has_flag_clear_same.
  - done.
  - simpl. rewrite has_flag_set_other by reflexivity.
    rewrite has_flag_clear_other by reflexivity. done.
Qed.

Lemma bg_task_switch_slice_witness :
  ∃ s1 s2 bt2,
    bg_task_switch (Some 1) 0 sched_two = Ok s1
    ∧ bg_task_switch None 30000 s1 = Ok s2
    ∧ runq s2 = [2; 1] ∧ current_task s2 = None
    ∧ tasks s2 !! 1 = Some bt2
    ∧ elapsed bt2 = 30000 ∧ wtime bt2 = 42 ∧ prev_ticks bt2 = 10
    ∧ tick_cost bt2 = ((4 * (500 # 1) + inject_Z 3000) / 5)%Q.
Proof.
  destruct (bg_task_switch_slice 1 sched_two task_idle 30000)
    as (s1 & bt1 & H1 & _ & _ & _ & _ & _ & H2).
  - reflexivity.
  - reflexivity.
  - reflexivity.
  - lia.
  - discriminate.
  - exists s1. eexists _, _. split; [exact H1|]. split; [exact H2|].
    simpl. split; [reflexivity|]. split; [reflexivity|].
    split; [apply lookup_insert_eq|]. simpl.
    split; [reflexivity|]. split; [reflexivity|]. split; reflexivity.
Defined.

(** X9: the tick cost is smoothed.  After a slice of [measured] usecs in
    which the task used [ticks_used] ticks, the new tick cost is four
    fifths of the old one plus one fifth of the cost per tick of the slice
    (the integer quotient of the two): it lies between the two, and it is
    not negative when the old one was not. *)
Theorem bg_task_suspend_tick_cost (h : Z) (s : sched) (bt : bgtask)
    (measured : Z) :
  tasks s !! h = Some bt →
  has_flag (flags bt) TASK_F_RUNNING = true →
  has_flag (flags bt) TASK_F_RUNNABLE = false →
  has_flag (flags bt) TASK_F_NOTICK = false →
  0 ≤ measured → 0 < ticks_used bt →
  ∃ s' bt',
    bg_task_suspend h measured s = Ok s'
    ∧ tasks s' !! h = Some bt'
    ∧ elapsed bt' = measured
    ∧ prev_ticks bt' = ticks_used bt
    ∧ let slice := inject_Z (measured / ticks_used bt) in
      (tick_cost bt' == (4 * tick_cost bt + slice) / 5)%Q
      ∧ ((tick_cost bt <= slice)%Q →
         (tick_cost bt <= tick_cost bt')%Q ∧ (tick_cost bt' <= slice)%Q)
      ∧ ((slice <= tick_cost bt)%Q →
         (slice <= tick_cost bt')%Q ∧ (tick_cost bt' <= tick_cost bt)%Q)
      ∧ ((0 <= tick_cost bt)%Q → (0 <= tick_cost bt')%Q).
Proof.
  intros Ht Hr Hrb Hn Hm Hu.
  rewrite (bg_task_suspend_run h measured s bt) by (done || lia).
  eexists _, _. split; [reflexivity|]. simpl.
  split; [apply lookup_insert_eq|]. simpl.
  split; [done|]. split; [done|].
  unfold next_tick_cost. rewrite Hn.
  rewrite Z.quot_div_nonneg by lia.
  assert (Hs : (0 <= inject_Z (measured / ticks_used bt))%Q).
  { change 0%Q with (inject_Z 0). rewrite <- Zle_Qle.
    apply Z.div_pos; lia. }
  set (slice := inject_Z (measured / ticks_used bt)) in *.
  set (c := tick_cost bt) in *.
  split; [reflexivity|]. clearbody slice c.
  assert (Heq : ((4 * c + slice) / 5 == (4 * c + slice) * (1 # 5))%Q)
    by field.
  rewrite Heq.
  split; [intros; split; lra|].
  split; [intros; split; lra|].
  intros. lra.
Qed.

Definition task_running : bgtask :=
  {| magic := BT_MAGIC; flags := TASK_F_RUNNING; step := 0; seqno := 0;
     stepcnt := 2; wtime := 12; has_done_cb := true; exitcode := 0;
     signal := 0; signals := []; ticks := 10; ticks_used := 10;
     prev_ticks := 10; elapsed := 50000; tick_cost := 500 # 1;
     wq := []; has_item_free := false; has_notify := false |}.

Definition sched_running : sched :=
  {| tasks := {[ 1 := task_running; 2 := task_idle ]}; runq := [2];
     sleepq := []; runcount := 2; dead_tasks := [];
     current_task := Some 1; calls := [] |}.

Lemma bg_task_suspend_tick_cost_witness :
  ∃ s' bt',
    bg_task_suspend 1 30000 sched_running = Ok s'
    ∧ tasks s' !! 1 = Some bt'
    ∧ (500 # 1 <= tick_cost bt')%Q ∧ (tick_cost bt' <= 3000 # 1)%Q.
Proof.
  destruct (bg_task_suspend_tick_cost 1 sched_running task_running 30000)
    as (s' & bt' & H1 & H2 & _ & _ & _ & H3 & _).
  - reflexivity.
  - reflexivity.
  - reflexivity.
  - reflexivity.
  - lia.
  - reflexivity.
  - exists s', bt'. split; [exact H1|]. split; [exact H2|].
    apply H3. vm_compute. discriminate.
Defined.

(** *** Ticks that were not used *)

(** X10: a running task that reports that it used none of its ticks is
    flagged so that the slice does not enter the statistics: when it is
    suspended the tick cost stays, and no division by the null tick count
    takes place.  Without the flag a slice with no tick used stops the
    program at that division. *)
Theorem bg_task_ticks_used_none (h : Z) (s : sched) (bt : bgtask)
    (measured : Z) :
  h ≠ 0 → tasks s !! h = Some bt → magic bt = BT_MAGIC →
  has_flag (flags bt) TASK_F_RUNNING = true →
  has_flag (flags bt) TASK_F_RUNNABLE = false →
  0 ≤ ticks bt → 0 ≤ measured →
  ∃ s1 s2 bt2,
    bg_task_ticks_used h 0 s = Ok s1
    ∧ bg_task_suspend h measured s1 = Ok s2
    ∧ tasks s2 !! h = Some bt2
    ∧ tick_cost bt2 = tick_cost bt
    ∧ prev_ticks bt2 = 0
    ∧ elapsed bt2 = measured
    ∧ runq s2 = runq s ++ [h]
    ∧ (has_flag (flags bt) TASK_F_NOTICK = false → ticks_used bt = 0 →
       bg_task_suspend h measured s = Abort).
Proof.
  intros Hh Ht Hmg Hr Hrb Htk Hm.
  unfold bg_task_ticks_used.
  rewrite (proj2 (Z.eqb_neq h 0) Hh). simpl.
  rewrite (get_task_ok _ _ _ Ht). simpl.
  rewrite (bool_decide_eq_true_2 _ Hmg). simpl. rewrite Hr. simpl.
  rewrite (bool_decide_eq_true_2 (0 ≤ ticks bt)) by done. simpl.
  set (bt1 := with_flags (with_ticks_used bt 0)
                (set_flag (flags bt) TASK_F_NOTICK)).
  eexists _. exists
    {| tasks :=
         <[h := with_stats
                  (with_flags bt1
                     (clear_flag (set_flag (flags bt1) TASK_F_RUNNABLE)
                        TASK_F_RUNNING))
                  measured (wtime bt1 + Z.quot (measured + 500) 1000)
                  (ticks_used bt1) (next_tick_cost bt1 measured)]>
           (tasks s);
       runq := runq s ++ [h]; sleepq := sleepq s; runcount := runcount s;
       dead_tasks := dead_tasks s; current_task := current_task s;
       calls := calls s |}.
  eexists. split; [reflexivity|].
  split.
  { rewrite (bg_task_suspend_run h measured _ bt1).
    - simpl. by rewrite insert_insert_eq.
    - simpl. apply lookup_insert_eq.
    - subst bt1. simpl. by rewrite has_flag_set_other by reflexivity.
    - subst bt1. simpl. by rewrite has_flag_set_other by reflexivity.
    - done.
    - subst bt1. simpl. by rewrite has_flag_set_same. }
  simpl. split; [apply lookup_insert_eq|]. simpl.
  split.
  { unfold next_tick_cost. subst bt1. simpl.
    by rewrite has_flag_set_same. }
  split; [done|]. split; [done|]. split; [done|].
  intros Hn Hz. unfold bg_task_suspend.
  rewrite (get_task_ok _ _ _ Ht). simpl. rewrite Hr. simpl.
  rewrite (bg_sched_add_run _ _ _ Ht Hrb). simpl.
  unfold get_task. simpl. rewrite lookup_insert_eq. simpl.
  rewrite (bool_decide_eq_false_2 (measured < 0)) by lia. simpl.
  rewrite has_flag_clear_other by reflexivity.
  rewrite has_flag_set_other by reflexivity. rewrite Hn.
  rewrite (bool_decide_eq_true_2 _ Hz). done.
Qed.

Lemma bg_task_ticks_used_none_witness :
  ∃ s1 s2 bt2,
    bg_task_ticks_used 1 0 sched_running = Ok s1
    ∧ bg_task_suspend 1 30000 s1 = Ok s2
    ∧ tasks s2 !! 1 = Some bt2
    ∧ tick_cost bt2 = 500 # 1 ∧ prev_ticks bt2 = 0.
Proof.
  destruct (bg_task_ticks_used_none 1 sched_running task_running 30000)
    as (s1 & s2 & bt2 & H1 & H2 & H3 & H4 & H5 & _).
  - discriminate.
  - reflexivity.
  - reflexivity.
  - reflexivity.
  - reflexivity.
  - vm_compute. discriminate.
  - lia.
  - exists s1, s2, bt2. split; [exact H1|]. split; [exact H2|].
    split; [exact H3|]. split; [exact H4 | exact H5].
Defined.

(** *** Daemons *)

Lemma g_slist_remove_not_in {A} `{EqDecision A} (l : list A) x :
  x ∉ l → g_slist_remove l x = l.
Proof.
  induction l as [|y l IH]; simpl; [done|].
  intros [Hne Hn]%not_elem_of_cons.
  rewrite decide_False by done. by rewrite IH.
Qed.

Lemma g_slist_remove_last {A} `{EqDecision A} (l : list A) x :
  x ∉ l → g_slist_remove (l ++ [x]) x = l.
Proof.
  induction l as [|y l IH]; simpl.
  - intros _. by rewrite decide_True.
  - intros [Hne Hn]%not_elem_of_cons.
    rewrite decide_False by done. by rewrite IH.
Qed.

(** The structure of a daemon that sleeps on an empty work queue. *)
Definition daemon_asleep (cnt : Z) (item_free notify : bool) : bgtask :=
  {| magic := BT_MAGIC;
     flags := set_flag TASK_F_DAEMON TASK_F_SLEEPING;
     step := 0; seqno := 0;
     stepcnt := cnt; wtime := 0; has_done_cb := false; exitcode := 0;
     signal := 0; signals := []; ticks := 0; ticks_used := 0;
     prev_ticks := 0; elapsed := 0; tick_cost := 0; wq := [];
     has_item_free := item_free; has_notify := notify |}.

(** X11: the life of a daemon.  It is created asleep, off the run queue
    and not counted in [runcount]; the first item that is enqueued wakes
    it up (it joins the tail of the run queue and is counted); when it is
    done with its last item it goes back to sleep, exactly as it was
    created.  The user code is told in this order: woken up, end of item,
    release of the item, stopped. *)
Theorem bg_daemon_cycle (h cnt item : Z) (item_free notify : bool)
    (s : sched) :
  h ≠ 0 → 0 < cnt → 0 ≤ runcount s → h ∉ runq s →
  let asleep (c : list bg_event) :=
    {| tasks := <[h := daemon_asleep cnt item_free notify]> (tasks s);
       runq := runq s; sleepq := h :: sleepq s; runcount := runcount s;
       dead_tasks := dead_tasks s; current_task := current_task s;
       calls := c |} in
  ∃ s2 bt2,
    bg_daemon_create h cnt item_free notify s = Ok (asleep (calls s))
    ∧ bg_daemon_enqueue h item (asleep (calls s)) = Ok s2
    ∧ runq s2 = runq s ++ [h] ∧ sleepq s2 = sleepq s
    ∧ runcount s2 = runcount s + 1
    ∧ tasks s2 !! h = Some bt2 ∧ wq bt2 = [item]
    ∧ has_flag (flags bt2) TASK_F_RUNNABLE = true
    ∧ has_flag (flags bt2) TASK_F_SLEEPING = false
    ∧ bg_task_ended h s2 =
        Ok (Proceed
              (asleep
                 ((if notify then [Ev_notify h false] else [])
                  ++ (if item_free then [Ev_item_free item] else [])
                  ++ [Ev_end_cb h item]
                  ++ (if notify then [Ev_notify h true] else [])
                  ++ calls s))).
Proof.
  intros Hh Hcnt Hrc Hnin asleep.
  assert (Hcreate :
    bg_daemon_create h cnt item_free notify s = Ok (asleep (calls s))).
  { unfold bg_daemon_create. rewrite bool_decide_eq_true_2 by done. simpl.
    rewrite (bg_sched_sleep_run h _ _ (lookup_insert_eq _ _ _));
      [|reflexivity|reflexivity|simpl; lia].
    simpl. rewrite insert_insert_eq.
    rewrite g_slist_remove_not_in by done.
    subst asleep. simpl.
    replace (runcount s + 1 - 1) with (runcount s) by lia. reflexivity. }
  set (awake := with_flags
                  (with_wq (daemon_asleep cnt item_free notify) [item])
                  (set_flag (clear_flag (set_flag TASK_F_DAEMON TASK_F_SLEEPING)
                               TASK_F_SLEEPING) TASK_F_RUNNABLE)).
  exists
    {| tasks := <[h := awake]> (tasks s);
       runq := runq s ++ [h]; sleepq := sleepq s;
       runcount := runcount s + 1;
       dead_tasks := dead_tasks s; current_task := current_task s;
       calls := (if notify then [Ev_notify h true] else []) ++ calls s |},
    awake.
  split; [done|].
  split.
  { unfold bg_daemon_enqueue.
    rewrite (proj2 (Z.eqb_neq h 0) Hh). simpl.
    unfold get_task. simpl. rewrite lookup_insert_eq. simpl.
    rewrite (bg_sched_wakeup_run h _ _ (lookup_insert_eq _ _ _));
      [|reflexivity..].
    simpl. rewrite !insert_insert_eq. rewrite decide_True by done.
    destruct notify; done. }
  simpl. split; [done|]. split; [done|]. split; [done|].
  split; [apply lookup_insert_eq|]. split; [done|].
  split; [reflexivity|]. split; [reflexivity|].
  unfold bg_task_ended. unfold get_task. simpl.
  rewrite lookup_insert_eq. simpl. rewrite decide_True by done.
  unfold call, put_task. simpl.
  destruct item_free, notify; simpl;
    (match goal with
     | |- context [bg_sched_sleep h ?st] =>
         rewrite (bg_sched_sleep_run h st
                    (with_progress (with_wq awake []) 0 0 0%Q))
     end;
     [ simpl; rewrite !insert_insert_eq;
       rewrite g_slist_remove_last by done; subst asleep; simpl;
       replace (runcount s + 1 - 1) with (runcount s) by lia; reflexivity
     | simpl; apply lookup_insert_eq
     | reflexivity | reflexivity | simpl; lia ]).
Qed.

Definition sched_empty : sched :=
  {| tasks := ∅; runq := []; sleepq := []; runcount := 0; dead_tasks := [];
     current_task := None; calls := [] |}.

Lemma bg_daemon_cycle_witness :
  ∃ s1 s2 s3,
    bg_daemon_create 5 1 true true sched_empty = Ok s1
    ∧ bg_daemon_enqueue 5 77 s1 = Ok s2
    ∧ bg_task_ended 5 s2 = Ok (Proceed s3)
    ∧ runcount s1 = 0 ∧ runcount s2 = 1 ∧ runcount s3 = 0
    ∧ runq s2 = [5] ∧ sleepq s3 = [5]
    ∧ calls s3 = [Ev_notify 5 false; Ev_item_free 77; Ev_end_cb 5 77;
                  Ev_notify 5 true].
Proof.
  destruct (bg_daemon_cycle 5 1 77 true true sched_empty)
    as (s2 & bt2 & H1 & H2 & H3 & _ & H4 & _ & _ & _ & _ & H5).
  - discriminate.
  - lia.
  - reflexivity.
  - apply not_elem_of_nil.
  - eexists _, s2, _. split; [exact H1|]. split; [exact H2|].
    split; [exact H5|]. simpl.
    split; [reflexivity|]. split; [exact H4|]. split; [reflexivity|].
    split; [exact H3|]. split; reflexivity.
Defined.

(** *** Exit *)




(** The same task exits with the code 0 from a signal handler: the
    completion callback is told that the task was killed. *)
Example bg_task_exit_in_handler :
  let bt := with_flags task_running (set_flag TASK_F_RUNNING TASK_F_SIGNAL) in
  let s := put_task sched_running 1 bt in
  ∃ s1 s2,
    bg_task_exit 1 0 s = Ok (Longjmp 1 s1)
    ∧ bg_sched_caught 1 30000 s1 = Ok (Proceed s2)
    ∧ calls s2 = [Ev_uctx_free 1; Ev_done_cb 1 BGS_KILLED].
Proof.
  eexists _, _. split; [vm_compute; reflexivity|].
  split; [vm_compute; reflexivity|]. reflexivity.
Qed.

End BGMore.

(** * More of the host caches *)

Module HCMore.
Import HCACHE HCProps.

(** The hosts that a table knows. *)
Definition known (s : hstate) (c : hcache_class_t) (h : gnet_host) : Prop :=
  is_Some (table_of s c !! h).

Lemma caught_state_known t s c h :
  known (caught_state t s) c h ↔ known s c h.
Proof.
  unfold known, caught_state.
  destruct (reserve_of t) as [from|] eqn:Hres; [|done].
  case_bool_decide as Hlen; [|done].
  destruct (decide (t = from)) as [->|Hne].
  - rewrite moved_state_self by (by apply length_zero_nil). done.
  - rewrite moved_state_table by done.
    case_decide; [|done]. by rewrite fmap_is_Some.
Qed.

Lemma removed_state_known t h s c h' :
  known (removed_state t h s) c h'
  ↔ known s c h' ∧ ¬ (c = hcache_class t ∧ h' = h).
Proof.
  unfold removed_state.
  assert (Hu : known (unlinked_state t h s) c h'
               ↔ known s c h' ∧ ¬ (c = hcache_class t ∧ h' = h)).
  { unfold known. rewrite unlinked_state_table. case_decide as Hc.
    - destruct (decide (h' = h)) as [->|Hne].
      + rewrite lookup_delete_eq. split; [by intros [? ?]|].
        intros [_ Hn]. exfalso. by apply Hn.
      + rewrite lookup_delete_ne by done. split; [|by intros [? _]].
        intros ?. split; [done|]. by intros [_ ?].
    - split; [|by intros [? _]]. intros ?. split; [done|]. by intros [? _]. }
  destruct (hcache_close_running s); [done|].
  by rewrite caught_state_known.
Qed.

(** Every host of the lists is known, and conversely. *)
Lemma known_listed s c h :
  hc_inv s →
  known s c h ↔ ∃ t, hcache_class t = c ∧ h ∈ hosts_of s t.
Proof.
  intros Hinv. split.
  - intros [e He]. destruct (inv_known _ Hinv _ _ _ He) as [Hc Hin].
    by exists (hce_type e).
  - intros (t & <- & Hin).
    destruct (inv_listed _ Hinv _ _ Hin) as (e & He & _). by exists e.
Qed.

(** *** Purging a host *)

Lemma hcache_purge_runs addr port s :
  hc_inv s →
  ∃ s',
    hcache_purge addr port s = Ok (tt, s')
    ∧ hc_inv s'
    ∧ match table_of s HCACHE_CLASS_HOST !! (addr, port) with
      | Some e =>
          if is_good_type (hce_type e)
          then s' = removed_state (hce_type e) (addr, port) s
          else s' = s
      | None => s' = s
      end.
Proof.
  intros Hinv. unfold hcache_purge, hcache_ht_get, bind, get, ret.
  destruct (table_of s HCACHE_CLASS_HOST !! (addr, port)) as [e|] eqn:He.
  - destruct (is_good_type (hce_type e)) eqn:Hg.
    + destruct (inv_known _ Hinv _ _ _ He) as [Hc Hin].
      destruct (hcache_remove_listed _ _ _ Hinv Hin) as [Hrun Hinv'].
      rewrite Hc in Hrun. rewrite Hrun. eexists. done.
    + eexists. done.
  - eexists. done.
Qed.

(** X13: [hcache_purge] forgets a host of the fresh and valid caches: it
    leaves its list and the table, and every other host stays known.  A
    host that sits in one of the caches of bad hosts, and a host that is
    not known, are left alone. *)
Theorem hcache_purge_good_only (addr port : Z) (s : hstate) :
  hc_inv s →
  ∃ s',
    hcache_purge addr port s = Ok (tt, s')
    ∧ hc_inv s'
    ∧ (∀ h, known s' HCACHE_CLASS_GUESS h ↔ known s HCACHE_CLASS_GUESS h)
    ∧ (∀ e, table_of s HCACHE_CLASS_HOST !! (addr, port) = Some e →
         is_good_type (hce_type e) = true →
         (∀ t, hcache_class t = HCACHE_CLASS_HOST →
               (addr, port) ∉ hosts_of s' t)
         ∧ (∀ h, known s' HCACHE_CLASS_HOST h
                 ↔ known s HCACHE_CLASS_HOST h ∧ h ≠ (addr, port)))
    ∧ ((∀ e, table_of s HCACHE_CLASS_HOST !! (addr, port) = Some e →
          is_good_type (hce_type e) = false) →
       s' = s).
Proof.
  intros Hinv.
  destruct (hcache_purge_runs addr port s Hinv) as (s' & Hrun & Hinv' & Hout).
  exists s'. split; [done|]. split; [done|].
  destruct (table_of s HCACHE_CLASS_HOST !! (addr, port)) as [e|] eqn:He.
  - destruct (is_good_type (hce_type e)) eqn:Hg.
    + destruct (inv_known _ Hinv _ _ _ He) as [Hc Hin].
      assert (Hk : ∀ c h, known s' c h
                   ↔ known s c h ∧ ¬ (c = HCACHE_CLASS_HOST ∧ h = (addr, port))).
      { intros c h. rewrite Hout, removed_state_known, Hc. done. }
      split; [|split].
      * intros h. rewrite Hk. split; [by intros [? _]|].
        intros ?. split; [done|]. by intros [? _].
      * intros e' [= <-] _. split.
        -- intros t Hct Hin'.
           assert (Hkn : known s' HCACHE_CLASS_HOST (addr, port)).
           { apply known_listed; [done|]. by exists t. }
           apply Hk in Hkn as [_ Hn]. by apply Hn.
        -- intros h. rewrite Hk. split.
           ++ intros [? Hn]. split; [done|]. intros ->. by apply Hn.
           ++ intros [? Hn]. split; [done|]. by intros [_ ?].
      * intros Hall. specialize (Hall e eq_refl). congruence.
    + split; [by rewrite Hout|]. split; [intros e' [= <-]; congruence|].
      intros _. done.
  - split; [by rewrite Hout|]. split; [done|]. intros _. done.
Qed.

Lemma hcache_purge_good_only_witness :
  ∃ s',
    hcache_purge 5 1234 (one_host HCACHE_VALID_ANY (5, 1234) 100)
      = Ok (tt, s')
    ∧ (5, 1234) ∉ hosts_of s' HCACHE_VALID_ANY.
Proof.
  destruct (hcache_purge_good_only 5 1234 _
              (one_host_inv HCACHE_VALID_ANY (5, 1234) 100))
    as (s' & H1 & _ & _ & H2 & _).
  exists s'. split; [exact H1|].
  destruct (H2 {| hce_type := HCACHE_VALID_ANY; time_added := 100 |})
    as [H3 _].
  - vm_compute. reflexivity.
  - reflexivity.
  - apply H3. reflexivity.
Defined.

(** *** A host that is known already *)

Section WithEnv.
Context (env : henv).

(** Past the sanity checks [hcache_add] goes on with the host as the table
    of the class has it. *)
Lemma hcache_add_passed type tm addr port s :
  sanity_checks_pass env s type addr port = true →
  hcache_add env type tm addr port s =
    match table_of s (hcache_class type) !! (addr, port) with
    | Some e =>
        hcache_add_known type tm (addr, port) e (after_port_check s port)
    | None =>
        hcache_add_new env type tm addr port (after_port_check s port)
    end.
Proof.
  unfold sanity_checks_pass. intros Hpass.
  repeat (apply andb_true_iff in Hpass as [Hpass ?]).
  unfold hcache_add, hcache_add_internal.
  unfold bind at 1. unfold get at 1.
  apply negb_true_iff in Hpass. rewrite Hpass.
  assert (Hu : bool_decide (type = HCACHE_UNSTABLE)
               && (negb (node_monitor_unstable_ip env)
                   || host_low_on_pongs s) = false).
  { destruct (bool_decide (type = HCACHE_UNSTABLE)); [|done].
    destruct (node_monitor_unstable_ip env), (host_low_on_pongs s); done. }
  rewrite Hu.
  destruct (is_my_address_and_port env addr port); [done|].
  assert (Hc : is_good_type type && node_host_is_connected env addr port
               = false).
  { destruct (is_good_type type), (node_host_is_connected env addr port);
      done. }
  rewrite Hc.
  assert (Hr : negb (host_addr_is_routable env addr)
               && (negb (addr_only (caches s type))
                   || negb (port_is_valid env port)) = false).
  { destruct (host_addr_is_routable env addr),
      (addr_only (caches s type)), (port_is_valid env port); done. }
  rewrite Hr.
  destruct (bogons_check env addr); [done|].
  destruct (hostiles_check env addr); [done|].
  cbn [orb].
  assert (Ht1 : ∀ c, table_of (after_port_check s port) c = table_of s c)
    by apply after_port_check_same.
  unfold port_vetoed in *. unfold after_port_check in *.
  fold (port_suspect s port).
  destruct (port_suspect s port) eqn:Hsus.
  - unfold bind at 1. unfold bind at 1. rewrite random_u32_run.
    unfold ret at 1. cbn [andb] in *.
    match goal with H : negb (bool_decide _) = true |- _ =>
      apply negb_true_iff in H; rewrite H end.
    unfold bind at 1. unfold hcache_ht_get. unfold bind at 1.
    unfold get at 1. unfold ret at 1.
    rewrite Ht1. by destruct (table_of s (hcache_class type) !! (addr, port)).
  - unfold bind at 1. unfold ret at 1.
    unfold bind at 1. unfold hcache_ht_get. unfold bind at 1.
    unfold get at 1. unfold ret at 1.
    by destruct (table_of s (hcache_class type) !! (addr, port)).
Qed.

Definition is_any_type (t : hcache_type_t) : bool :=
  match t with
  | HCACHE_FRESH_ANY | HCACHE_VALID_ANY => true
  | _ => false
  end.

Definition is_ultra_type (t : hcache_type_t) : bool :=
  match t with
  | HCACHE_FRESH_ULTRA | HCACHE_VALID_ULTRA => true
  | _ => false
  end.

(** The host changes caches: it is promoted from a cache of any hosts to
    a cache of ultrapeers, or it falls from a cache of good hosts to a
    cache of bad ones. *)
Definition shifts (type from : hcache_type_t) : bool :=
  is_ultra_type type && is_any_type from
  || is_bad_type type && is_good_type from.

(** The lists and tables of [s'] are those of [s] but for the host [h],
    which went from the cache [from] to the head of the cache [to], with
    the metadata [e']. *)
Definition shifted (h : gnet_host) (from to : hcache_type_t)
    (e' : hostcache_entry) (s s' : hstate) : Prop :=
  (∀ t, hosts_of s' t =
          if decide (t = to) then h :: hosts_of s to
          else if decide (t = from) then hash_list_remove (hosts_of s from) h
          else hosts_of s t)
  ∧ (∀ c, table_of s' c =
            if decide (c = hcache_class to) then <[h := e']> (table_of s c)
            else table_of s c).

Definition same_hosts (s s' : hstate) : Prop :=
  (∀ t, hosts_of s' t = hosts_of s t) ∧ (∀ c, table_of s' c = table_of s c).

Lemma hcache_add_known_host type added h e s :
  hc_inv s →
  hcache_class type = HCACHE_CLASS_HOST →
  table_of s HCACHE_CLASS_HOST !! h = Some e →
  runs (hcache_add_known type added h e) s (λ b s',
    b = true ∧ hc_inv s'
    ∧ if shifts type (hce_type e)
      then shifted h (hce_type e) type
             {| hce_type := type; time_added := added |} s s'
      else same_hosts s s').
Proof.
  intros Hinv Hhost He. unfold hcache_add_known.
  apply runs_bind, runs_update_cache. fold (hit type s).
  pose proof (hit_inv type s Hinv) as Hinv0.
  destruct (inv_known _ Hinv _ _ _ He) as [Hcl Hin].
  assert (Hin0 : h ∈ hosts_of (hit type s) (hce_type e))
    by (by rewrite hit_hosts).
  assert (Hmove : hce_type e ≠ type →
    shifts type (hce_type e) = true →
    runs
      (do s0 <- get;
       run assert (bool_decide (h ∈ hosts_of s0 (hce_type e)));
       run update_cache (hce_type e)
             (λ hc, set_hostlist hc (hash_list_remove (hostlist hc) h));
       run update_cache type (λ hc, set_hostlist hc (h :: hostlist hc));
       run update_cache type (λ hc, set_dirty hc true);
       run update_cache (hce_type e) (λ hc, set_dirty hc true);
       run modify (λ s0, set_ht s0 (hcache_class type)
                           (<[h := {| hce_type := type; time_added := added |}]>
                              (table_of s0 (hcache_class type))));
       ret true) (hit type s)
      (λ b s', b = true ∧ hc_inv s'
         ∧ if shifts type (hce_type e)
           then shifted h (hce_type e) type
                  {| hce_type := type; time_added := added |} s s'
           else same_hosts s s')).
  { intros Hne Hsh. rewrite Hsh. apply runs_bind, runs_get.
    apply runs_bind, runs_assert; [by apply bool_decide_eq_true_2|].
    do 4 apply runs_bind, runs_update_cache.
    apply runs_bind, runs_modify, runs_ret.
    match goal with |- _ ∧ hc_inv ?st ∧ _ => set (s' := st) end.
    assert (Hl : ∀ t, hosts_of s' t =
              if decide (t = type) then h :: hosts_of s type
              else if decide (t = hce_type e)
                   then hash_list_remove (hosts_of s (hce_type e)) h
                   else hosts_of s t).
    { intros t. subst s'. rewrite caches_set_ht, !caches_set_cache.
      unfold hit. rewrite !caches_set_cache.
      repeat case_decide; subst; try done. }
    assert (Htb : ∀ c, table_of s' c =
              if decide (c = hcache_class type)
              then <[h := {| hce_type := type; time_added := added |}]>
                     (table_of s c)
              else table_of s c).
    { intros c. subst s'. destruct (decide (c = hcache_class type)) as [->|Hc].
      - by rewrite table_set_ht_same, !table_set_cache.
      - by rewrite table_set_ht_other, !table_set_cache. }
    split; [done|]. split; [|done].
    eapply (hc_inv_moved s s' (hce_type e) type h
              {| hce_type := type; time_added := added |});
      [done|done|done|congruence|done|done|done|].
    intros t. subst s'. rewrite caches_set_ht, !caches_set_cache.
    unfold hit. rewrite !caches_set_cache.
    repeat case_decide; subst; try done. }
  assert (Htrue : shifts type (hce_type e) = false →
    runs (ret true) (hit type s)
      (λ b s', b = true ∧ hc_inv s'
         ∧ if shifts type (hce_type e)
           then shifted h (hce_type e) type
                  {| hce_type := type; time_added := added |} s s'
           else same_hosts s s')).
  { intros Hsh. rewrite Hsh. apply runs_ret. split; [done|]. split; [done|].
    split; [intros t; apply hit_hosts|]. intros c. unfold hit.
    apply table_set_cache. }
  destruct type; try discriminate Hhost;
    destruct (hce_type e) eqn:Hte; try discriminate Hcl;
    first [ by apply Htrue | by apply Hmove ].
Qed.

Lemma after_port_check_inv s port : hc_inv s → hc_inv (after_port_check s port).
Proof.
  intros Hinv. unfold after_port_check.
  destruct (port_suspect s port); [|done]. by apply hc_inv_set_misc.
Qed.

(** X14: [hcache_add] of a host that the table of hosts knows already,
    past the sanity checks.  The host changes caches in two cases only: it
    is promoted from a cache of any hosts to a cache of ultrapeers, or it
    falls from a fresh or valid cache to a cache of bad hosts; it then goes
    to the head of the new list and its time of addition is reset, with no
    slot check and no pruning.  Otherwise no list and no metadata change:
    in particular a host that sits in a cache of bad hosts is not brought
    back by a later pong, and its time of addition is not refreshed. *)
Theorem hcache_add_known_moves (type : hcache_type_t) (tm addr port : Z)
    (s : hstate) (e : hostcache_entry) :
  hc_inv s →
  hcache_class type = HCACHE_CLASS_HOST →
  sanity_checks_pass env s type addr port = true →
  table_of s HCACHE_CLASS_HOST !! (addr, port) = Some e →
  ∃ s',
    hcache_add env type tm addr port s = Ok (true, s')
    ∧ hc_inv s'
    ∧ (shifts type (hce_type e) = true →
       shifted (addr, port) (hce_type e) type
         {| hce_type := type; time_added := tm |} s s')
    ∧ (shifts type (hce_type e) = false → same_hosts s s')
    ∧ (is_bad_type (hce_type e) = true → same_hosts s s').
Proof.
  intros Hinv Hhost Hpass He.
  rewrite (hcache_add_passed type tm addr port s Hpass).
  rewrite Hhost, He.
  destruct (after_port_check_same s port) as [Hc1 Ht1].
  destruct (hcache_add_known_host type tm (addr, port) e
              (after_port_check s port))
    as (b & s' & Hrun & -> & Hinv' & Hout).
  { by apply after_port_check_inv. }
  { done. }
  { by rewrite Ht1. }
  exists s'. split; [done|]. split; [done|].
  assert (Hsh : shifts type (hce_type e) = true →
    shifted (addr, port) (hce_type e) type
      {| hce_type := type; time_added := tm |} s s').
  { intros Hs. rewrite Hs in Hout. destruct Hout as [Hl Htb]. split.
    - intros t. rewrite Hl, !Hc1. done.
    - intros c. rewrite Htb, Ht1. done. }
  assert (Hsame : shifts type (hce_type e) = false → same_hosts s s').
  { intros Hs. rewrite Hs in Hout. destruct Hout as [Hl Htb]. split.
    - intros t. rewrite Hl, Hc1. done.
    - intros c. rewrite Htb, Ht1. done. }
  split; [done|]. split; [done|].
  intros Hbad. apply Hsame. unfold shifts.
  destruct (hce_type e); try discriminate Hbad;
    by rewrite !andb_false_r.
Qed.

(** *** Getting a host *)

(** The hosts of a kind, in the order in which they are handed out: the
    fresh (or running) cache, then the valid (or introduction) cache. *)
Definition queue (kind : host_type_t) (s : hstate) : list gnet_host :=
  hosts_of s (fresh_of kind) ++ hosts_of s (valid_of kind).

Lemma caught_state_queue kind t s :
  queue kind (caught_state t s) = queue kind s.
Proof.
  unfold queue, caught_state.
  destruct (reserve_of t) as [from|] eqn:Hres; [|done].
  case_bool_decide as Hlen; [|done].
  apply length_zero_nil in Hlen.
  rewrite !moved_state_hosts.
  destruct kind, t; simpl in Hres; try discriminate Hres;
    injection Hres as <-; simpl;
    repeat case_decide; try done; rewrite ?Hlen, ?app_nil_r; done.
Qed.

Lemma caught_state_others t s t' :
  t' ≠ t → reserve_of t ≠ Some t' →
  hosts_of (caught_state t s) t' = hosts_of s t'.
Proof.
  intros Hne Hres. unfold caught_state.
  destruct (reserve_of t) as [from|] eqn:Hr; [|done].
  case_bool_decide as Hlen; [|done].
  rewrite moved_state_hosts. rewrite decide_False by congruence.
  by rewrite decide_False.
Qed.

(** The state once the head [h] of the list of [hc] is unlinked. *)
Lemma removed_head kind hc h rest s :
  hc_inv s →
  (hc = fresh_of kind ∧ hosts_of s hc = h :: rest
   ∨ hc = valid_of kind ∧ kind = HOST_GUESS
     ∧ hosts_of s (fresh_of kind) = [] ∧ hosts_of s hc = h :: rest) →
  let s' := removed_state hc h s in
  hcache_unlink_host hc h s = Ok (tt, s')
  ∧ hc_inv s'
  ∧ queue kind s = h :: queue kind s'
  ∧ (∀ t, t ≠ fresh_of kind → t ≠ valid_of kind →
       hosts_of s' t = hosts_of s t)
  ∧ (∀ c h', known s' c h'
             ↔ known s c h' ∧ ¬ (c = hcache_class hc ∧ h' = h)).
Proof.
  intros Hinv Hcase s'.
  assert (Hin : h ∈ hosts_of s hc).
  { destruct Hcase as [[_ ->]|(_ & _ & _ & ->)]; set_solver. }
  destruct (hcache_unlink_host_spec hc h s Hinv Hin) as (Hrun & Hinv' & _).
  split; [done|]. split; [done|].
  split; [|split; [|intros c h'; apply removed_state_known]].
  - subst s'. unfold removed_state.
    assert (Hq : queue kind s = h :: queue kind (unlinked_state hc h s)).
    { unfold queue. rewrite !unlinked_state_hosts.
      destruct Hcase as [[-> Hl]|(-> & -> & Hf & Hl)].
      - rewrite decide_True by done. rewrite Hl, hash_list_remove_head.
        destruct (decide (valid_of kind = fresh_of kind)) as [Heq|_];
          [by destruct kind|]. done.
      - simpl in *. rewrite Hf, Hl. unfold hash_list_remove. simpl.
        by rewrite decide_True. }
    destruct (hcache_close_running s); [done|].
    by rewrite caught_state_queue.
  - intros t Hf Hv. subst s'. unfold removed_state.
    assert (Hne : t ≠ hc).
    { destruct Hcase as [[-> _]|(-> & _)]; done. }
    assert (Hu : hosts_of (unlinked_state hc h s) t = hosts_of s t).
    { rewrite unlinked_state_hosts. by rewrite decide_False. }
    destruct (hcache_close_running s); [done|].
    rewrite caught_state_others; [done|done|].
    intros Hres. destruct Hcase as [[-> _]|(-> & -> & _)];
      [destruct kind|]; simpl in *; congruence.
Qed.

Lemma hcache_get_caught_runs kind s :
  hc_inv s →
  use_netmasks env
  && negb (bool_decide (number_local_networks env = 0))
  && negb (bool_decide (kind = HOST_GUESS)) = false →
  ∃ s',
    hcache_get_caught env kind s = Ok (head (queue kind s), s')
    ∧ hc_inv s'
    ∧ queue kind s' = tail (queue kind s)
    ∧ (∀ t, t ≠ fresh_of kind → t ≠ valid_of kind →
         hosts_of s' t = hosts_of s t)
    ∧ (∀ c h, known s' c h
              ↔ known s c h
                ∧ ¬ (head (queue kind s) = Some h
                     ∧ c = hcache_class (fresh_of kind))).
Proof.
  intros Hinv Hnear.
  set (hc := match kind with
             | HOST_GUESS =>
                 if bool_decide (hash_list_length s HCACHE_GUESS = 0)
                 then HCACHE_GUESS_INTRO else HCACHE_GUESS
             | _ => fresh_of kind
             end).
  set (s1 := caught_state hc s).
  set (s2 := set_low_on_pongs s1
               (bool_decide (hcache_size s1 HOST_ANY
                             < max_hosts_cached env / 8))).
  assert (Hinv1 : hc_inv s1) by (by apply caught_state_inv).
  assert (Hinv2 : hc_inv s2) by (by apply hc_inv_set_misc).
  assert (Hq2 : queue kind s2 = queue kind s).
  { unfold queue. change (caches s2) with (caches s1).
    apply caught_state_queue. }
  assert (Ho2 : ∀ t, t ≠ fresh_of kind → t ≠ valid_of kind →
                     hosts_of s2 t = hosts_of s t).
  { intros t Hf Hv. change (hosts_of s2 t) with (hosts_of s1 t).
    subst s1. destruct kind; simpl in *.
    - apply caught_state_others; [done|]. simpl. congruence.
    - apply caught_state_others; [done|]. simpl. congruence.
    - rewrite caught_state_other; [done|]. subst hc.
      by destruct (bool_decide (hash_list_length s HCACHE_GUESS = 0)). }
  assert (Hk2 : ∀ c h, known s2 c h ↔ known s c h).
  { intros c h. unfold known. unfold s2, set_low_on_pongs.
    rewrite table_set_misc. apply caught_state_known. }
  assert (Hclass : hcache_class hc = hcache_class (fresh_of kind)).
  { subst hc. destruct kind; try done.
    by destruct (bool_decide (hash_list_length s HCACHE_GUESS = 0)). }
  (* the run up to the look at the list *)
  assert (Hrun : hcache_get_caught env kind s =
    (if negb (negb (bool_decide (hash_list_length s1 hc = 0)))
     then ret None
     else
       do s0 <- get;
       match head (hostlist (caches s0 hc)) with
       | Some h => run hcache_unlink_host hc h; ret (Some h)
       | None => ret None
       end) s2).
  { unfold hcache_get_caught. unfold bind at 1. unfold get at 1.
    fold hc. unfold bind at 1. rewrite hcache_require_caught_run.
    fold s1. unfold bind at 1. unfold hcache_update_low_on_pongs.
    unfold modify at 1. fold s2.
    destruct (negb (negb (bool_decide (hash_list_length s1 hc = 0))));
      [done|].
    rewrite Hnear. unfold bind at 1. unfold ret at 1. done. }
  rewrite Hrun. clear Hrun.
  assert (Hhc : hosts_of s2 hc = hosts_of s1 hc) by done.
  destruct (hosts_of s1 hc) as [|h rest] eqn:Hl.
  - (* nothing to hand out *)
    rewrite bool_decide_eq_true_2 by (unfold hash_list_length; by rewrite Hl).
    simpl.
    assert (Hnil : queue kind s = []).
    { rewrite <- Hq2. unfold queue. change (caches s2) with (caches s1).
      subst s1 hc. destruct kind.
      - destruct (caught_state_fresh HOST_ANY s) as [Hfull Hempty]; [done|].
        simpl in *. destruct (hosts_of s HCACHE_FRESH_ANY) eqn:Hf.
        + destruct (Hempty eq_refl) as (H1 & H2 & _). by rewrite Hl, H2.
        + rewrite Hfull in Hl by done. congruence.
      - destruct (caught_state_fresh HOST_ULTRA s) as [Hfull Hempty]; [done|].
        simpl in *. destruct (hosts_of s HCACHE_FRESH_ULTRA) eqn:Hf.
        + destruct (Hempty eq_refl) as (H1 & H2 & _). by rewrite Hl, H2.
        + rewrite Hfull in Hl by done. congruence.
      - simpl in *. case_bool_decide as Hg.
        + rewrite caught_state_other in * by done.
          apply length_zero_nil in Hg. by rewrite Hg, Hl.
        + rewrite caught_state_other in * by done.
          exfalso. apply Hg. unfold hash_list_length. by rewrite Hl. }
    exists s2. rewrite Hnil. simpl. split; [done|]. split; [done|].
    split; [by rewrite Hq2, Hnil|]. split; [done|].
    intros c h0. rewrite Hk2. split; [|by intros [? _]].
    intros ?. split; [done|]. by intros [? _].
  - rewrite bool_decide_eq_false_2
      by (unfold hash_list_length; rewrite Hl; simpl; lia).
    simpl. unfold bind at 1. unfold get at 1. rewrite Hhc. simpl.
    assert (Hcase :
      hc = fresh_of kind ∧ hosts_of s2 hc = h :: rest
      ∨ hc = valid_of kind ∧ kind = HOST_GUESS
        ∧ hosts_of s2 (fresh_of kind) = [] ∧ hosts_of s2 hc = h :: rest).
    { subst hc. destruct kind; [by left|by left|].
      case_bool_decide as Hg.
      - right. split; [done|]. split; [done|]. split; [|done].
        simpl. change (hosts_of s2 HCACHE_GUESS)
          with (hosts_of s1 HCACHE_GUESS).
        subst s1. rewrite caught_state_other by done.
        by apply length_zero_nil.
      - by left. }
    destruct (removed_head kind hc h rest s2 Hinv2 Hcase)
      as (Hun & Hinv' & Hq & Ho & Hk).
    unfold bind at 1. rewrite Hun. unfold ret.
    rewrite <- Hq2, Hq. simpl.
    eexists. split; [done|]. split; [done|]. split; [done|].
    split.
    + intros t Hf Hv. rewrite Ho by done. by apply Ho2.
    + intros c h0. rewrite Hk, Hk2, Hclass. split.
      * intros [? Hn]. split; [done|]. intros [[= <-] ->]. by apply Hn.
      * intros [? Hn]. split; [done|]. intros [-> ->]. by apply Hn.
Qed.

(** X15: the caches of a kind of hosts are a stack.  [hcache_get_caught]
    hands out the head of the fresh cache followed by the valid cache (of
    the running GUESS cache followed by the introduction cache), which is
    the host that was added last, and takes it out of its list and of the
    table; it fails exactly when both lists are empty, and then changes no
    list.  This is for a node that does not prefer the hosts of its local
    networks. *)
Theorem hcache_get_caught_pops (kind : host_type_t) (s : hstate) :
  hc_inv s →
  use_netmasks env
  && negb (bool_decide (number_local_networks env = 0))
  && negb (bool_decide (kind = HOST_GUESS)) = false →
  ∃ s',
    hcache_get_caught env kind s = Ok (head (queue kind s), s')
    ∧ hc_inv s'
    ∧ queue kind s' = tail (queue kind s)
    ∧ (∀ t, t ≠ fresh_of kind → t ≠ valid_of kind →
         hosts_of s' t = hosts_of s t)
    ∧ (∀ c h, known s' c h
              ↔ known s c h
                ∧ ¬ (head (queue kind s) = Some h
                     ∧ c = hcache_class (fresh_of kind))).
Proof. apply hcache_get_caught_runs. Qed.

End WithEnv.

Lemma hcache_get_caught_pops_witness :
  ∃ s',
    hcache_get_caught (env_demo (λ _, 0)) HOST_GUESS
      (one_host HCACHE_GUESS_INTRO (5, 1234) 100) = Ok (Some (5, 1234), s')
    ∧ queue HOST_GUESS s' = [].
Proof.
  destruct (hcache_get_caught_pops (env_demo (λ _, 0)) HOST_GUESS
              (one_host HCACHE_GUESS_INTRO (5, 1234) 100)
              (one_host_inv _ _ _))
    as (s' & H1 & _ & H2 & _).
  - reflexivity.
  - exists s'. split; [exact H1 | exact H2].
Defined.

Lemma hcache_add_known_moves_witness :
  ∃ s',
    hcache_add (env_demo (λ _, 0)) HCACHE_BUSY 200 5 1234
      (one_host HCACHE_FRESH_ANY (5, 1234) 100) = Ok (true, s')
    ∧ hosts_of s' HCACHE_BUSY = [(5, 1234)]
    ∧ hosts_of s' HCACHE_FRESH_ANY = []
    ∧ ht_known_hosts s' !! (5, 1234)
      = Some {| hce_type := HCACHE_BUSY; time_added := 200 |}.
Proof.
  destruct (hcache_add_known_moves (env_demo (λ _, 0)) HCACHE_BUSY 200 5 1234
              (one_host HCACHE_FRESH_ANY (5, 1234) 100)
              {| hce_type := HCACHE_FRESH_ANY; time_added := 100 |}
              (one_host_inv _ _ _))
    as (s' & H1 & _ & H2 & _).
  - reflexivity.
  - vm_compute. reflexivity.
  - vm_compute. reflexivity.
  - destruct (H2 eq_refl) as [Hl Ht].
    exists s'. split; [exact H1|].
    split; [rewrite Hl; reflexivity|].
    split; [rewrite Hl; reflexivity|].
    change (ht_known_hosts s') with (table_of s' HCACHE_CLASS_HOST).
    rewrite Ht. vm_compute. reflexivity.
Defined.

(** *** Clearing a cache *)

Definition fresh_kind (t : hcache_type_t) : option host_type_t :=
  match t with
  | HCACHE_FRESH_ANY => Some HOST_ANY
  | HCACHE_FRESH_ULTRA => Some HOST_ULTRA
  | _ => None
  end.

(** The caches that lose their hosts when the loop of [hcache_remove_all]
    runs on the cache [t]: a fresh cache is refilled from the valid cache
    whenever it runs empty, unless the caches are being closed, so that the
    valid cache is emptied as well. *)
Definition sweeping (t : hcache_type_t) (s : hstate) : list hcache_type_t :=
  match fresh_kind t with
  | Some kind =>
      if hcache_close_running s then [t] else [t; valid_of kind]
  | None => [t]
  end.

Definition todo (t : hcache_type_t) (s : hstate) : list gnet_host :=
  match fresh_kind t with
  | Some kind =>
      if hcache_close_running s then hosts_of s t else queue kind s
  | None => hosts_of s t
  end.

(** A fresh cache is only empty when its valid cache is. *)
Definition stable (t : hcache_type_t) (s : hstate) : Prop :=
  ∀ kind, fresh_kind t = Some kind → hcache_close_running s = false →
    hosts_of s t = [] → hosts_of s (valid_of kind) = [].

Lemma fresh_kind_Some t kind :
  fresh_kind t = Some kind → t = fresh_of kind ∧ kind ≠ HOST_GUESS.
Proof. destruct t; intros [= <-]; done. Qed.

Lemma caught_state_hosts_nonfresh t s t' :
  fresh_kind t = None →
  hosts_of (caught_state t s) t' = hosts_of s t'.
Proof.
  intros Hf. unfold caught_state.
  destruct (reserve_of t) as [from|] eqn:Hres; [|done].
  case_bool_decide as Hlen; [|done].
  apply length_zero_nil in Hlen.
  rewrite moved_state_hosts.
  destruct t; try discriminate Hf; try discriminate Hres;
    injection Hres as <-; repeat case_decide; subst; done.
Qed.

Lemma remove_head_step t h rest s :
  hc_inv s → hosts_of s t = h :: rest →
  let s' := removed_state t h s in
  hcache_remove (hcache_class t) h s = Ok (tt, s')
  ∧ hc_inv s'
  ∧ stable t s'
  ∧ todo t s = h :: todo t s'
  ∧ (∀ t', t' ∉ sweeping t s → hosts_of s' t' = hosts_of s t')
  ∧ (∀ c h', known s' c h'
             ↔ known s c h' ∧ ¬ (c = hcache_class t ∧ h' = h))
  ∧ (∀ t', mass_update (caches s' t') = mass_update (caches s t'))
  ∧ hcache_close_running s' = hcache_close_running s.
Proof.
  intros Hinv Hl s'.
  assert (Hin : h ∈ hosts_of s t) by (rewrite Hl; set_solver).
  destruct (hcache_remove_listed t h s Hinv Hin) as [Hrun Hinv'].
  split; [done|]. split; [done|].
  assert (Hcl : hcache_close_running s' = hcache_close_running s).
  { unfold s'. by destruct (removed_state_aux t h s t) as (_ & -> & _). }
  assert (Hmass : ∀ t', mass_update (caches s' t')
                        = mass_update (caches s t')).
  { intros t'. unfold s'.
    by destruct (removed_state_aux t h s t') as (-> & _). }
  assert (Hk : ∀ c h', known s' c h'
                 ↔ known s c h' ∧ ¬ (c = hcache_class t ∧ h' = h))
    by (intros; apply removed_state_known).
  assert (Hu : ∀ t', hosts_of (unlinked_state t h s) t'
                     = if decide (t' = t) then rest else hosts_of s t').
  { intros t'. rewrite unlinked_state_hosts.
    case_decide; [|done]. by rewrite Hl, hash_list_remove_head. }
  unfold stable, todo, sweeping. rewrite Hcl.
  destruct (fresh_kind t) as [kind|] eqn:Hfk.
  - apply fresh_kind_Some in Hfk as [-> Hkind].
    destruct (hcache_close_running s) eqn:Hclose.
    + assert (Hs' : s' = unlinked_state (fresh_of kind) h s).
      { subst s'. apply removed_state_plain. by right. }
      split; [intros ? _ ?; done|].
      split; [by rewrite Hs', Hu, decide_True, Hl|].
      split; [|done].
      intros t' Hn. rewrite Hs', Hu. rewrite decide_False; [done|].
      set_solver.
    + destruct (removed_head kind (fresh_of kind) h rest s Hinv)
        as (_ & _ & Hq & Ho & _); [by left|].
      fold s' in Hq, Ho.
      split.
      { intros kind' Hk' _ Hempty.
        assert (kind' = kind) as -> by (destruct kind, kind'; done).
        subst s'. unfold removed_state in *. rewrite Hclose in *.
        destruct (caught_state_fresh kind (unlinked_state (fresh_of kind) h s)
                    Hkind) as [Hfull Hemp].
        destruct (hosts_of (unlinked_state (fresh_of kind) h s)
                    (fresh_of kind)) eqn:Hx.
        - by destruct (Hemp eq_refl) as (_ & -> & _).
        - rewrite Hfull in Hempty by done. congruence. }
      split; [done|]. split; [|done].
      intros t' Hn. apply Ho; set_solver.
  - assert (Hs' : ∀ t', hosts_of s' t'
                        = if decide (t' = t) then rest else hosts_of s t').
    { intros t'. subst s'. unfold removed_state.
      destruct (hcache_close_running s); [apply Hu|].
      rewrite caught_state_hosts_nonfresh by done. apply Hu. }
    split; [intros ? ?; done|].
    split; [by rewrite Hs', decide_True, Hl|].
    split; [|done].
    intros t' Hn. rewrite Hs'. rewrite decide_False; [done|]. set_solver.
Qed.

Lemma hcache_remove_all_loop_runs fuel t s :
  hc_inv s → stable t s → (length (todo t s) ≤ fuel)%nat →
  ∃ s',
    hcache_remove_all_loop fuel t s = Ok (tt, s')
    ∧ hc_inv s'
    ∧ (∀ t', t' ∈ sweeping t s → hosts_of s' t' = [])
    ∧ (∀ t', t' ∉ sweeping t s → hosts_of s' t' = hosts_of s t')
    ∧ (∀ c h, known s' c h
              ↔ known s c h ∧ ¬ (c = hcache_class t ∧ h ∈ todo t s))
    ∧ (∀ t', mass_update (caches s' t') = mass_update (caches s t'))
    ∧ hcache_close_running s' = hcache_close_running s.
Proof.
  revert s. induction fuel as [|fuel IH]; intros s Hinv Hst Hlen.
  - (* no fuel: the list is empty *)
    assert (Hnil : todo t s = []).
    { destruct (todo t s); [done|simpl in Hlen; lia]. }
    assert (Ht : hosts_of s t = []).
    { unfold todo in Hnil. destruct (fresh_kind t) as [kind|] eqn:Hfk;
        [|done].
      apply fresh_kind_Some in Hfk as [-> _].
      destruct (hcache_close_running s); [done|].
      unfold queue in Hnil. by apply app_eq_nil in Hnil as [? _]. }
    exists s. simpl. unfold bind, get. rewrite Ht. simpl.
    split; [done|]. split; [done|]. split.
    { intros t' Hin. unfold sweeping in Hin.
      destruct (fresh_kind t) as [kind|] eqn:Hfk.
      - destruct (hcache_close_running s) eqn:Hc.
        + apply list_elem_of_singleton in Hin as ->. done.
        + apply elem_of_cons in Hin as [->|Hin]; [done|].
          apply list_elem_of_singleton in Hin as ->. by apply Hst.
      - apply list_elem_of_singleton in Hin as ->. done. }
    split; [done|]. split; [|done].
    intros c h. rewrite Hnil. split; [|by intros [? _]].
    intros ?. split; [done|]. intros [_ Hin]. by apply elem_of_nil in Hin.
  - simpl. unfold bind at 1. unfold get at 1.
    destruct (hosts_of s t) as [|h rest] eqn:Hl.
    + (* nothing left *)
      simpl.
      assert (Hnil : todo t s = []).
      { unfold todo. destruct (fresh_kind t) as [kind|] eqn:Hfk; [|done].
        destruct (hcache_close_running s) eqn:Hc; [done|].
        unfold queue. pose proof (Hst kind Hfk Hc Hl) as Hv.
        apply fresh_kind_Some in Hfk as [-> _]. by rewrite Hl, Hv. }
      exists s. split; [done|]. split; [done|]. split.
      { intros t' Hin. unfold sweeping in Hin.
        destruct (fresh_kind t) as [kind|] eqn:Hfk.
        - destruct (hcache_close_running s) eqn:Hc.
          + apply list_elem_of_singleton in Hin as ->. done.
          + apply elem_of_cons in Hin as [->|Hin]; [done|].
            apply list_elem_of_singleton in Hin as ->. by apply Hst.
        - apply list_elem_of_singleton in Hin as ->. done. }
      split; [done|]. split; [|done].
      intros c h. rewrite Hnil. split; [|by intros [? _]].
      intros ?. split; [done|]. intros [_ Hin]. by apply elem_of_nil in Hin.
    + simpl.
      destruct (remove_head_step t h rest s Hinv Hl)
        as (Hrun & Hinv1 & Hst1 & Htodo & Ho1 & Hk1 & Hm1 & Hc1).
      unfold bind at 1. rewrite Hrun.
      destruct (IH _ Hinv1 Hst1)
        as (s' & Hloop & Hinv' & He & Ho & Hk & Hm & Hc).
      { rewrite Htodo in Hlen. simpl in Hlen. lia. }
      assert (Hsw : sweeping t (removed_state t h s) = sweeping t s).
      { unfold sweeping. by rewrite Hc1. }
      rewrite Hsw in He, Ho.
      exists s'. split; [done|]. split; [done|]. split; [done|].
      split; [intros t' Hn; rewrite Ho by done; by apply Ho1|].
      split; [|split; [intros t'; by rewrite Hm|congruence]].
      intros c h0. rewrite Hk, Hk1, Htodo. split.
      * intros [[? Hn1] Hn2]. split; [done|].
        intros [-> [->|Hin]%elem_of_cons]; [by apply Hn1|by apply Hn2].
      * intros [? Hn]. split; [split; [done|]|].
        -- intros [-> ->]. apply Hn. split; [done|]. set_solver.
        -- intros [-> Hin]. apply Hn. split; [done|]. set_solver.
Qed.

(** The hosts of the lists of a class are no more than the table of the
    class knows. *)
Lemma todo_le_size t s :
  hc_inv s →
  (length (todo t s) ≤ size (table_of s (hcache_class t)))%nat.
Proof.
  intros Hinv.
  assert (Hnd : NoDup (todo t s)).
  { unfold todo. destruct (fresh_kind t) as [kind|] eqn:Hfk;
      [|apply Hinv].
    destruct (hcache_close_running s); [apply Hinv|].
    unfold queue. apply NoDup_app. split; [apply Hinv|].
    split; [|apply Hinv]. intros x Hx1 Hx2.
    assert (fresh_of kind = valid_of kind); [|by destruct kind].
    eapply (hc_inv_one_list s); [done| |done|done]. by destruct kind. }
  assert (Hsub : ∀ x, x ∈ todo t s → known s (hcache_class t) x).
  { intros x Hx. apply known_listed; [done|].
    unfold todo in Hx. destruct (fresh_kind t) as [kind|] eqn:Hfk;
      [|by exists t].
    apply fresh_kind_Some in Hfk as [-> _].
    destruct (hcache_close_running s); [by exists (fresh_of kind)|].
    unfold queue in Hx. apply elem_of_app in Hx as [Hx|Hx].
    - by exists (fresh_of kind).
    - exists (valid_of kind). split; [by destruct kind|done]. }
  rewrite <- (size_list_to_set (C := gset gnet_host)) by done.
  rewrite <- (size_dom (D := gset gnet_host)).
  apply subseteq_size. intros x Hx. apply elem_of_list_to_set in Hx.
  apply elem_of_dom. by apply Hsub.
Qed.

(** The caches that [hcache_clear] empties: none when the cache is empty
    already. *)
Definition swept (t : hcache_type_t) (s : hstate) : list hcache_type_t :=
  match hosts_of s t with
  | [] => []
  | _ :: _ => sweeping t s
  end.

Lemma hcache_remove_all_runs t s :
  hc_inv s →
  ∃ s',
    hcache_remove_all t s = Ok (tt, s')
    ∧ hc_inv s'
    ∧ (∀ t', t' ∈ swept t s → hosts_of s' t' = [])
    ∧ (∀ t', t' ∉ swept t s → hosts_of s' t' = hosts_of s t')
    ∧ (∀ c h, known s' c h
              ↔ known s c h
                ∧ ¬ (c = hcache_class t
                     ∧ ∃ t', t' ∈ swept t s ∧ h ∈ hosts_of s t'))
    ∧ (∀ t', mass_update (caches s' t') = mass_update (caches s t'))
    ∧ (hosts_of s t = [] → s' = s).
Proof.
  intros Hinv. unfold hcache_remove_all. unfold bind at 1, get at 1.
  unfold swept.
  destruct (hosts_of s t) as [|h0 rest0] eqn:Hl.
  { rewrite bool_decide_eq_true_2 by (unfold hash_list_length; by rewrite Hl).
    exists s. split; [done|]. split; [done|].
    split; [intros t' Hin; by apply elem_of_nil in Hin|].
    split; [done|]. split; [|done].
    intros c h. split; [|by intros [? _]].
    intros ?. split; [done|]. intros (_ & t' & Hin & _).
    by apply elem_of_nil in Hin. }
  rewrite bool_decide_eq_false_2
    by (unfold hash_list_length; rewrite Hl; simpl; lia).
  unfold bind at 1. unfold start_mass_update, update_cache, modify.
  set (s1 := set_cache s t _).
  pose proof (inv_mass _ Hinv t) as Hm0.
  assert (Hinv1 : hc_inv s1).
  { apply hc_inv_set_cache; [done| |done]. simpl. lia. }
  assert (Hl1 : ∀ t', hosts_of s1 t' = hosts_of s t').
  { intros t'. unfold s1. rewrite caches_set_cache. by case_decide; subst. }
  assert (Ht1 : ∀ c, table_of s1 c = table_of s c)
    by (intros c; apply table_set_cache).
  assert (Hst1 : stable t s1).
  { intros kind _ _ He. rewrite Hl1, Hl in He. done. }
  assert (Htodo1 : todo t s1 = todo t s).
  { unfold todo, queue. destruct (fresh_kind t); [|apply Hl1].
    change (hcache_close_running s1) with (hcache_close_running s).
    by rewrite !Hl1. }
  destruct (hcache_remove_all_loop_runs
              (size (table_of s (hcache_class t))) t s1 Hinv1 Hst1)
    as (s2 & Hloop & Hinv2 & He & Ho & Hk & Hm & Hc).
  { rewrite Htodo1. by apply todo_le_size. }
  unfold bind at 1. rewrite Hloop.
  assert (Hsw : sweeping t s1 = sweeping t s) by done.
  rewrite Hsw in He, Ho.
  assert (Hempty : hosts_of s2 t = []).
  { apply He. unfold sweeping. destruct (fresh_kind t);
      [destruct (hcache_close_running s)|]; set_solver. }
  unfold bind at 1, get at 1. unfold bind at 1.
  rewrite assert_run
    by (apply bool_decide_eq_true_2; unfold hash_list_length;
        by rewrite Hempty).
  assert (Hmass : mass_update (caches s2 t) = mass_update (caches s t) + 1).
  { rewrite Hm. unfold s1. rewrite caches_set_cache, decide_True by done.
    done. }
  unfold bind at 1. unfold stop_mass_update. unfold bind at 1, get at 1.
  unfold bind at 1. rewrite assert_run by (apply bool_decide_eq_true_2; lia).
  unfold bind at 1. unfold update_cache at 1, modify.
  unfold bind at 1, get at 1.
  set (s3 := set_cache s2 t _).
  assert (Hinv3 : hc_inv s3).
  { apply hc_inv_set_cache; [done| |done]. simpl. lia. }
  assert (Hl3 : ∀ t', hosts_of s3 t' = hosts_of s2 t').
  { intros t'. unfold s3. rewrite caches_set_cache. by case_decide; subst. }
  assert (Ht3 : ∀ c, table_of s3 c = table_of s2 c)
    by (intros c; apply table_set_cache).
  assert (Hm3 : ∀ t', mass_update (caches s3 t') = mass_update (caches s t')).
  { intros t'. unfold s3. rewrite caches_set_cache. case_decide as Hd.
    - subst t'. simpl. lia.
    - rewrite Hm. unfold s1. rewrite caches_set_cache.
      by rewrite decide_False. }
  assert (Hfinal : ∀ s4,
    (∀ t', caches s4 t' = caches s3 t') →
    (∀ c, table_of s4 c = table_of s3 c) →
    ∃ s', assert (bool_decide (hash_list_length s4 t = 0)) s4 = Ok (tt, s')
      ∧ hc_inv s'
      ∧ (∀ t', t' ∈ sweeping t s → hosts_of s' t' = [])
      ∧ (∀ t', t' ∉ sweeping t s → hosts_of s' t' = hosts_of s t')
      ∧ (∀ c h, known s' c h
                ↔ known s c h
                  ∧ ¬ (c = hcache_class t
                       ∧ ∃ t', t' ∈ sweeping t s ∧ h ∈ hosts_of s t'))
      ∧ (∀ t', mass_update (caches s' t') = mass_update (caches s t'))
      ∧ (h0 :: rest0 = [] → s' = s)).
  { intros s4 Hc4 Ht4.
    rewrite assert_run
      by (apply bool_decide_eq_true_2; unfold hash_list_length;
          by rewrite Hc4, Hl3, Hempty).
    exists s4. split; [done|].
    split.
    { revert Hinv3. apply hc_inv_ext; [|done|].
      - intros t'. by rewrite Hc4.
      - intros t'. by rewrite Hc4. }
    split; [intros t' Hin; rewrite Hc4, Hl3; by apply He|].
    split; [intros t' Hn; rewrite Hc4, Hl3, Ho, Hl1; done|].
    split; [|split; [intros t'; by rewrite Hc4, Hm3|done]].
    intros c h. unfold known. rewrite Ht4, Ht3.
    fold (known s2 c h). rewrite Hk. unfold known at 1. rewrite Ht1.
    fold (known s c h). rewrite Htodo1.
    assert (Hiff : h ∈ todo t s
                   ↔ ∃ t', t' ∈ sweeping t s ∧ h ∈ hosts_of s t').
    { unfold todo, sweeping. destruct (fresh_kind t) as [kind|] eqn:Hfk.
      - apply fresh_kind_Some in Hfk as [-> _].
        destruct (hcache_close_running s).
        + split; [intros ?; exists (fresh_of kind); set_solver|].
          intros (t' & Hin & ?).
          apply list_elem_of_singleton in Hin as ->. done.
        + unfold queue. rewrite elem_of_app. split.
          * intros [?|?]; [exists (fresh_of kind)|exists (valid_of kind)];
              set_solver.
          * intros (t' & Hin & ?).
            apply elem_of_cons in Hin as [->|Hin]; [by left|].
            apply list_elem_of_singleton in Hin as ->. by right.
      - split; [intros ?; exists t; set_solver|].
        intros (t' & Hin & ?).
        apply list_elem_of_singleton in Hin as ->. done. }
    by rewrite Hiff. }
  case_bool_decide.
  - unfold bind at 1. unfold gnet_prop_set_guint32_val, modify.
    unfold get at 1.
    apply Hfinal; [done|]. intros c. apply table_set_catcher.
  - unfold bind at 1. unfold ret at 1. unfold get at 1.
    by apply Hfinal.
Qed.

(** X16: [hcache_clear] empties the cache, forgetting its hosts, and keeps
    the caches consistent.  Clearing a fresh cache that holds hosts also
    empties the valid cache of the same kind, since the fresh cache is
    refilled from it each time it runs empty (unless the caches are being
    closed); clearing a fresh cache that is empty does nothing at all, and
    leaves the valid cache as it is.  No other cache changes. *)
Theorem hcache_clear_sweeps (t : hcache_type_t) (s : hstate) :
  hc_inv s →
  ∃ s',
    hcache_clear t s = Ok (tt, s')
    ∧ hc_inv s'
    ∧ hosts_of s' t = []
    ∧ (∀ t', t' ∈ swept t s → hosts_of s' t' = [])
    ∧ (∀ t', t' ∉ swept t s → hosts_of s' t' = hosts_of s t')
    ∧ (∀ c h, known s' c h
              ↔ known s c h
                ∧ ¬ (c = hcache_class t
                     ∧ ∃ t', t' ∈ swept t s ∧ h ∈ hosts_of s t'))
    ∧ (hosts_of s t = [] → s' = s).
Proof.
  intros Hinv.
  destruct (hcache_remove_all_runs t s Hinv)
    as (s' & Hrun & Hinv' & He & Ho & Hk & _ & Hsame).
  exists s'. split; [done|]. split; [done|]. split; [|done].
  destruct (hosts_of s t) as [|h rest] eqn:Hl.
  - rewrite Hsame by done. done.
  - apply He. unfold swept. rewrite Hl. unfold sweeping.
    destruct (fresh_kind t); [destruct (hcache_close_running s)|];
      set_solver.
Qed.

(** A fresh host on top of a valid one. *)
Definition two_hosts : hstate :=
  let s0 := one_host HCACHE_VALID_ANY (6, 1234) 50 in
  set_cache
    (set_ht s0 HCACHE_CLASS_HOST
       (<[(5, 1234) := {| hce_type := HCACHE_FRESH_ANY; time_added := 100 |}]>
          (table_of s0 HCACHE_CLASS_HOST)))
    HCACHE_FRESH_ANY
    (set_hostlist (caches s0 HCACHE_FRESH_ANY)
       ((5, 1234) :: hosts_of s0 HCACHE_FRESH_ANY)).

Lemma two_hosts_inv : hc_inv two_hosts.
Proof.
  apply (hc_inv_insert (one_host HCACHE_VALID_ANY (6, 1234) 50)
           HCACHE_FRESH_ANY (5, 1234)
           {| hce_type := HCACHE_FRESH_ANY; time_added := 100 |}).
  - apply one_host_inv.
  - vm_compute. reflexivity.
  - reflexivity.
Qed.

Lemma hcache_clear_sweeps_witness :
  ∃ s',
    hcache_clear HCACHE_FRESH_ANY two_hosts = Ok (tt, s')
    ∧ hosts_of s' HCACHE_FRESH_ANY = []
    ∧ hosts_of s' HCACHE_VALID_ANY = [].
Proof.
  destruct (hcache_clear_sweeps HCACHE_FRESH_ANY two_hosts two_hosts_inv)
    as (s' & H1 & _ & H2 & H3 & _).
  exists s'. split; [exact H1|]. split; [exact H2|].
  apply H3. unfold swept, sweeping. simpl. repeat constructor.
Defined.

(** *** Bad hosts *)

Lemma hcache_node_is_bad_runs addr s :
  hc_inv s →
  ∃ b s',
    hcache_node_is_bad addr s = Ok (b, s')
    ∧ hc_inv s'
    ∧ same_hosts s s'
    ∧ (b = true
       ↔ host_low_on_pongs s = false
         ∧ ∃ t, is_bad_type t = true ∧ (addr, 0) ∈ hosts_of s t).
Proof.
  intros Hinv. unfold hcache_node_is_bad. unfold bind at 1, get at 1.
  destruct (host_low_on_pongs s) eqn:Hlow.
  { exists false, s. split; [done|]. split; [done|]. split; [done|].
    split; [done|]. by intros [? _]. }
  unfold bind at 1. unfold hcache_get_metadata, bind, get, ret.
  cbv beta.
  match goal with
  | |- context [match ?x with Some _ => _ | None => _ end] =>
      destruct x as [e|] eqn:He
  end.
  - unfold update_cache, modify.
    destruct (inv_known _ Hinv _ _ _ He) as [Hc Hin].
    eexists _, _. split; [done|].
    split.
    { apply hc_inv_set_cache; [done| |done]. simpl. apply Hinv. }
    split.
    { split.
      - intros t. rewrite caches_set_cache. by case_decide; subst.
      - intros c. apply table_set_cache. }
    split.
    + intros Hb. split; [done|]. exists (hce_type e). split; [|done].
      destruct (hce_type e); simpl in *; congruence.
    + intros (_ & t & Hbad & Hin').
      assert (Hct : hcache_class t = hcache_class (hce_type e)).
      { rewrite Hc. by destruct t. }
      rewrite <- (hc_inv_one_list s t (hce_type e) (addr, 0) Hinv Hct Hin' Hin).
      by destruct t.
  - exists false, s. split; [done|]. split; [done|]. split; [done|].
    split; [done|]. intros (_ & t & Hbad & Hin).
    destruct (inv_listed _ Hinv _ _ Hin) as (e & He' & _).
    assert (hcache_class t = HCACHE_CLASS_HOST) as Hc by (by destruct t).
    rewrite Hc in He'. congruence.
Qed.

(** X17: [hcache_node_is_bad] answers TRUE exactly when the node is not
    low on pongs and the address, with the port 0, is listed in one of the
    four caches of bad hosts.  It changes no list and no metadata (it only
    counts a hit). *)
Theorem hcache_node_is_bad_listed (addr : Z) (s : hstate) :
  hc_inv s →
  ∃ b s',
    hcache_node_is_bad addr s = Ok (b, s')
    ∧ hc_inv s'
    ∧ same_hosts s s'
    ∧ (b = true
       ↔ host_low_on_pongs s = false
         ∧ ∃ t, is_bad_type t = true ∧ (addr, 0) ∈ hosts_of s t).
Proof. apply hcache_node_is_bad_runs. Qed.

Lemma hcache_node_is_bad_listed_witness :
  ∃ s',
    hcache_node_is_bad 5 (one_host HCACHE_TIMEOUT (5, 0) 100) = Ok (true, s').
Proof.
  destruct (hcache_node_is_bad_listed 5 (one_host HCACHE_TIMEOUT (5, 0) 100)
              (one_host_inv _ _ _)) as (b & s' & H1 & _ & _ & H2).
  exists s'. rewrite H1. f_equal. f_equal. apply H2.
  split; [reflexivity|]. exists HCACHE_TIMEOUT. split; [reflexivity|].
  simpl. repeat constructor.
Defined.

(** *** Filling an array of hosts *)

Lemma hcache_fill_loop_nodup (l : list gnet_host) n seen :
  NoDup l → (∀ h, h ∈ l → h ∉ seen) →
  hcache_fill_loop l n seen = map Some (take n l).
Proof.
  revert l seen. induction n as [|n IH]; intros l seen Hnd Hseen.
  { by destruct l. }
  destruct l as [|h l]; [done|]. simpl.
  rewrite decide_False by (apply Hseen; set_solver).
  apply NoDup_cons in Hnd as [Hnin Hnd].
  rewrite IH; [done|done|].
  intros x Hx. apply not_elem_of_union. split; [set_solver|].
  apply Hseen. set_solver.
Qed.

(** X18: [hcache_fill_caught_array] copies the first [hcount] hosts of the
    fresh cache (of the running GUESS cache, or of the introduction cache
    when that one is empty), the most recent first, and returns how many
    there are; no slot is skipped, the caches are not changed, and the
    valid cache is not read even when the fresh one holds fewer hosts than
    asked for. *)
Theorem hcache_fill_caught_array_fresh (type : host_type_t) (hcount : Z)
    (s : hstate) :
  hc_inv s →
  let hc :=
    match type with
    | HOST_GUESS =>
        if decide (hosts_of s HCACHE_GUESS = [])
        then HCACHE_GUESS_INTRO else HCACHE_GUESS
    | _ => fresh_of type
    end in
  let filled := take (Z.to_nat hcount) (hosts_of s hc) in
  hcache_fill_caught_array type hcount s
    = Ok ((Z.of_nat (length filled), map Some filled), s)
  ∧ Z.of_nat (length filled)
    = Z.max 0 (Z.min hcount (Z.of_nat (length (hosts_of s hc)))).
Proof.
  intros Hinv hc filled. split.
  - unfold hcache_fill_caught_array, bind, get, ret.
    set (hc' := match type with
                | HOST_ANY => HCACHE_FRESH_ANY
                | HOST_ULTRA => HCACHE_FRESH_ULTRA
                | HOST_GUESS =>
                    if bool_decide (hash_list_length s HCACHE_GUESS = 0)
                    then HCACHE_GUESS_INTRO else HCACHE_GUESS
                end).
    assert (hc' = hc) as ->.
    { subst hc hc'. destruct type; try done.
      case_bool_decide as Hg.
      - apply length_zero_nil in Hg. by rewrite decide_True.
      - rewrite decide_False; [done|]. intros Hn. apply Hg.
        unfold hash_list_length. by rewrite Hn. }
    rewrite hcache_fill_loop_nodup; [|apply Hinv|set_solver].
    rewrite length_map. done.
  - subst filled. rewrite length_take. lia.
Qed.

Lemma hcache_fill_caught_array_fresh_witness :
  hcache_fill_caught_array HOST_ANY 3 two_hosts
    = Ok ((1, [Some (5, 1234)]), two_hosts).
Proof.
  destruct (hcache_fill_caught_array_fresh HOST_ANY 3 two_hosts two_hosts_inv)
    as [H _].
  exact H.
Defined.

(** *** Sequences of calls *)

(** A computation that returns and keeps the caches consistent. *)
Definition safe {A} (m : M A) : Prop :=
  ∀ s, hc_inv s → ∃ a s', m s = Ok (a, s') ∧ hc_inv s'.

Lemma safe_runs {A} (m : M A) :
  (∀ s, hc_inv s → runs m s (λ _ s', hc_inv s')) → safe m.
Proof. intros H s Hinv. destruct (H s Hinv) as (a & s' & ? & ?). eauto. Qed.

Lemma hcache_find_nearby_safe env type : safe (hcache_find_nearby env type).
Proof.
  apply safe_runs. intros s Hinv. unfold hcache_find_nearby.
  apply runs_bind, runs_get.
  destruct (list_find _ _) as [[i h]|] eqn:Hfind.
  - apply list_find_Some in Hfind as (Hi & _).
    apply list_elem_of_lookup_2 in Hi.
    destruct (hcache_unlink_host_spec _ _ _ Hinv Hi) as (Hrun & Hinv' & _).
    apply runs_bind. eapply runs_eq; [done|]. by apply runs_ret.
  - by apply runs_ret.
Qed.

Lemma hcache_get_caught_safe env type : safe (hcache_get_caught env type).
Proof.
  apply safe_runs. intros s Hinv. unfold hcache_get_caught.
  apply runs_bind, runs_get.
  match goal with |- context [hcache_require_caught ?t] => set (hc := t) end.
  apply runs_bind. eapply runs_eq; [apply hcache_require_caught_run|].
  pose proof (caught_state_inv hc s Hinv) as Hinv1.
  apply runs_bind. unfold hcache_update_low_on_pongs. apply runs_modify.
  match goal with |- runs _ ?st _ => set (s2 := st) end.
  assert (Hinv2 : hc_inv s2) by (by apply hc_inv_set_misc).
  clearbody s2.
  destruct (negb (negb _)); [by apply runs_ret|].
  apply runs_bind.
  assert (Hhead : runs
    (do s0 <- get;
     match head (hosts_of s0 hc) with
     | Some h => run hcache_unlink_host hc h; ret (Some h)
     | None => ret None
     end) s2 (λ _ s', hc_inv s')).
  { apply runs_bind, runs_get.
    destruct (hosts_of s2 hc) as [|x l] eqn:Hx; [by apply runs_ret|].
    simpl.
    destruct (hcache_unlink_host_spec hc x s2 Hinv2) as (Hrun & Hinv' & _);
      [rewrite Hx; set_solver|].
    apply runs_bind. eapply runs_eq; [done|]. by apply runs_ret. }
  destruct (use_netmasks env && _ && _).
  - destruct (hcache_find_nearby_safe env type s2 Hinv2)
      as (r & s3 & Hrun & Hinv3).
    eapply runs_eq; [done|].
    destruct r; [by apply runs_ret|].
    (* no nearby host: the state is as before *)
    unfold hcache_find_nearby, bind, get, ret in Hrun.
    destruct (list_find _ _) as [[i h]|]; [|by injection Hrun as <-].
    destruct (hcache_unlink_host _ h s2) as [[? ?]| |]; done.
  - by apply runs_ret.
Qed.

Lemma hcache_timer_safe now : safe (hcache_timer now).
Proof.
  apply safe_runs. intros s Hinv. unfold hcache_timer, hcache_expire_all.
  apply runs_bind, runs_bind.
  eapply runs_mono; [by apply (hcache_expire_cache_runs HCACHE_TIMEOUT)|].
  intros n1 s1 (Hinv1 & _).
  apply runs_bind.
  eapply runs_mono; [by apply (hcache_expire_cache_runs HCACHE_BUSY)|].
  intros n2 s2 (Hinv2 & _).
  apply runs_bind.
  eapply runs_mono; [by apply (hcache_expire_cache_runs HCACHE_UNSTABLE)|].
  intros n3 s3 (Hinv3 & _).
  by apply runs_ret, runs_ret.
Qed.

Lemma hcache_add_safe env type tm addr port :
  safe (hcache_add env type tm addr port).
Proof.
  apply safe_runs. intros s Hinv.
  eapply runs_mono; [by apply hcache_add_runs|].
  by intros b s' (_ & ? & _).
Qed.

(** What the rest of the program calls on the host caches.  Each call
    comes with the settings that hold when it is made. *)
Inductive hc_call :=
| Call_add (type : hcache_type_t) (tm addr port : Z)
| Call_add_caught (type : host_type_t) (tm addr port : Z)
| Call_add_valid (type : host_type_t) (tm addr port : Z)
| Call_get_caught (type : host_type_t)
| Call_find_nearby (type : host_type_t)
| Call_fill_caught_array (type : host_type_t) (hcount : Z)
| Call_node_is_bad (addr : Z)
| Call_purge (addr port : Z)
| Call_clear (type : hcache_type_t)
| Call_prune (type : hcache_type_t)
| Call_timer (now : Z).

Definition hc_exec (env : henv) (c : hc_call) : M unit :=
  match c with
  | Call_add type tm addr port => run hcache_add env type tm addr port; ret tt
  | Call_add_caught type tm addr port =>
      run hcache_add_caught env type tm addr port; ret tt
  | Call_add_valid type tm addr port =>
      run hcache_add_valid env type tm addr port; ret tt
  | Call_get_caught type => run hcache_get_caught env type; ret tt
  | Call_find_nearby type => run hcache_find_nearby env type; ret tt
  | Call_fill_caught_array type hcount =>
      run hcache_fill_caught_array type hcount; ret tt
  | Call_node_is_bad addr => run hcache_node_is_bad addr; ret tt
  | Call_purge addr port => hcache_purge addr port
  | Call_clear type => hcache_clear type
  | Call_prune type => hcache_prune env type
  | Call_timer now => run hcache_timer now; ret tt
  end.

Fixpoint hc_exec_all (calls : list (henv * hc_call)) : M unit :=
  match calls with
  | [] => ret tt
  | (env, c) :: calls' => run hc_exec env c; hc_exec_all calls'
  end.

Lemma safe_then {A} (m : M A) : safe m → safe (run m; ret tt).
Proof.
  intros Hm s Hinv. destruct (Hm s Hinv) as (a & s' & Hrun & Hinv').
  exists tt, s'. unfold bind, ret. by rewrite Hrun.
Qed.

Lemma hc_exec_safe env c : safe (hc_exec env c).
Proof.
  destruct c; simpl.
  - apply safe_then, hcache_add_safe.
  - apply safe_then. unfold hcache_add_caught.
    destruct (ctl_limit env addr); [by intros s ?; exists false, s|].
    destruct type; apply hcache_add_safe.
  - apply safe_then. unfold hcache_add_valid.
    destruct (ctl_limit env addr); [by intros s ?; exists false, s|].
    destruct type; apply hcache_add_safe.
  - apply safe_then, hcache_get_caught_safe.
  - apply safe_then, hcache_find_nearby_safe.
  - apply safe_then. intros s Hinv. eexists _, s.
    split; [by unfold hcache_fill_caught_array, bind, get, ret|done].
  - apply safe_then. intros s Hinv.
    destruct (hcache_node_is_bad_runs addr s Hinv) as (b & s' & ? & ? & _).
    by exists b, s'.
  - intros s Hinv.
    destruct (hcache_purge_runs addr port s Hinv) as (s' & ? & ? & _).
    by exists tt, s'.
  - intros s Hinv.
    destruct (hcache_remove_all_runs type s Hinv) as (s' & ? & ? & _).
    by exists tt, s'.
  - intros s Hinv.
    destruct (hcache_prune_total env type s Hinv) as (s' & ? & ? & _).
    by exists tt, s'.
  - apply safe_then, hcache_timer_safe.
Qed.

(** X19: whatever the rest of the program calls on the host caches, in
    whatever order and under whatever settings, every call returns (no
    assertion of hcache.c fails, no loop runs for ever) and the caches stay
    consistent: no list holds a host twice, every listed host has its
    metadata in the table of its class, naming that list, and every host
    of a table is in the list that its metadata names; hence a host is in
    one cache of its class at most. *)
Theorem hcache_calls_safe (calls : list (henv * hc_call)) (s : hstate) :
  hc_inv s →
  ∃ s',
    hc_exec_all calls s = Ok (tt, s')
    ∧ hc_inv s'
    ∧ (∀ t1 t2 h, hcache_class t1 = hcache_class t2 →
         h ∈ hosts_of s' t1 → h ∈ hosts_of s' t2 → t1 = t2).
Proof.
  revert s. induction calls as [|[env c] calls IH]; intros s Hinv.
  - exists s. split; [done|]. split; [done|].
    intros t1 t2 h. by apply hc_inv_one_list.
  - destruct (hc_exec_safe env c s Hinv) as ([] & s1 & Hrun & Hinv1).
    destruct (IH s1 Hinv1) as (s' & Hrun' & Hinv' & Hone).
    exists s'. simpl. unfold bind. rewrite Hrun. done.
Qed.

Lemma hcache_calls_safe_witness :
  ∃ s',
    hc_exec_all
      [(env_demo (λ _, 0), Call_add HCACHE_FRESH_ANY 100 5 1234);
       (env_demo (λ _, 0), Call_add HCACHE_FRESH_ULTRA 101 6 1234);
       (env_demo (λ _, 0), Call_add HCACHE_FRESH_ULTRA 102 5 1234);
       (env_demo (λ _, 0), Call_add HCACHE_BUSY 103 6 1234);
       (env_demo (λ _, 0), Call_timer 5000);
       (env_demo (λ _, 0), Call_get_caught HOST_ULTRA);
       (env_demo (λ _, 0), Call_clear HCACHE_FRESH_ANY)] hcache_init
      = Ok (tt, s')
    ∧ hc_inv s'.
Proof.
  destruct (hcache_calls_safe
      [(env_demo (λ _, 0), Call_add HCACHE_FRESH_ANY 100 5 1234);
       (env_demo (λ _, 0), Call_add HCACHE_FRESH_ULTRA 101 6 1234);
       (env_demo (λ _, 0), Call_add HCACHE_FRESH_ULTRA 102 5 1234);
       (env_demo (λ _, 0), Call_add HCACHE_BUSY 103 6 1234);
       (env_demo (λ _, 0), Call_timer 5000);
       (env_demo (λ _, 0), Call_get_caught HOST_ULTRA);
       (env_demo (λ _, 0), Call_clear HCACHE_FRESH_ANY)] hcache_init
      hcache_init_inv) as (s' & H1 & H2 & _).
  exists s'. split; [exact H1 | exact H2].
Defined.

(** *** Pruning a cache that has no second half *)

(** A turn of the loop of [hcache_prune] on a cache that is neither good nor
    the GUESS running cache evicts the tail of its list. *)
Lemma hcache_prune_loop_tail env n t s :
  hc_inv s → is_good_type t = false → t ≠ HCACHE_GUESS →
  ∃ s', hcache_prune_loop env n t s = Ok (tt, s')
    ∧ hc_inv s'
    ∧ hosts_of s' t
      = take (length (hosts_of s t) - n)%nat (hosts_of s t)
    ∧ (∀ t', t' ≠ t → hosts_of s' t' = hosts_of s t')
    ∧ (∀ t', mass_update (caches s' t') = mass_update (caches s t')).
Proof.
  intros Hinv Hg Hng. revert s Hinv.
  induction n as [|n IH]; intros s Hinv; simpl.
  { exists s. rewrite Nat.sub_0_r, firstn_all. done. }
  unfold hcache_prune_victim. rewrite bool_decide_eq_false_2 by done.
  unfold bind at 1 2 3, ret at 1 2, get at 1.
  change (hostlist (caches s t)) with (hosts_of s t).
  destruct (hosts_of s t) as [|x l0 _] eqn:Hl using rev_ind.
  { exists s. by rewrite Hl. }
  rewrite last_snoc.
  assert (Hin : x ∈ hosts_of s t) by (rewrite Hl; set_solver).
  assert (Hnx : x ∉ l0).
  { pose proof (inv_nodup _ Hinv t) as Hnd. rewrite Hl in Hnd.
    apply NoDup_app in Hnd as (_ & Hnd & _). intros Hx.
    apply (Hnd x Hx). set_solver. }
  destruct (hcache_remove_listed t x s Hinv Hin) as [Hrm _].
  destruct (removed_state_plain_facts t x s Hg Hinv Hin)
    as (Hinv2 & Hh2 & Ho2 & _).
  unfold bind at 1. rewrite Hrm.
  rewrite Hl, hash_list_remove_last in Hh2 by done.
  destruct (IH _ Hinv2) as (s' & -> & Hinv' & Hh' & Ho' & Hm').
  exists s'. split; [done|]. split; [done|]. split; [|split].
  - rewrite Hh', Hh2, length_app. simpl.
    replace (length l0 + 1 - S n)%nat with (length l0 - n)%nat by lia.
    rewrite take_app_le by lia. done.
  - intros t' Ht'. rewrite Ho' by done. by apply Ho2.
  - intros t'. rewrite Hm'.
    by destruct (removed_state_aux t x s t') as [-> _].
Qed.

Lemma hcache_prune_tail env t s :
  hc_inv s → is_good_type t = false → t ≠ HCACHE_GUESS →
  ∃ s', hcache_prune env t s = Ok (tt, s')
    ∧ hc_inv s'
    ∧ hosts_of s' t
      = take (Z.to_nat (hcache_slots_max env t)) (hosts_of s t)
    ∧ (∀ t', t' ≠ t → hosts_of s' t' = hosts_of s t').
Proof.
  intros Hinv Hg Hng. unfold hcache_prune. unfold bind at 1, get at 1.
  assert (Hhalf : half_prune s t = t) by (by destruct t).
  rewrite Hhalf.
  assert (Hleft : hcache_slots_left env s t
                  = hcache_slots_max env t - Z.of_nat (length (hosts_of s t))).
  { by destruct t. }
  case_bool_decide as Hextra.
  { exists s. split; [done|]. split; [done|]. split; [|done].
    rewrite take_ge; [done|]. lia. }
  unfold bind at 1. unfold start_mass_update, update_cache, modify.
  set (s1 := set_cache s t _).
  assert (Hinv1 : hc_inv s1).
  { apply hc_inv_set_cache; [done| |done]. simpl.
    pose proof (inv_mass _ Hinv t). lia. }
  assert (Hh1 : ∀ t', hosts_of s1 t' = hosts_of s t').
  { intros t'. unfold s1. rewrite caches_set_cache.
    case_decide as Hd; [|done]. by rewrite Hd. }
  unfold bind at 1. rewrite hcache_require_caught_run.
  rewrite (caught_state_other t s1 Hg).
  destruct (hcache_prune_loop_tail env
              (Z.to_nat (- hcache_slots_left env s t)) t s1 Hinv1 Hg Hng)
    as (s3 & Hloop & Hinv3 & Hh3 & Ho3 & Hm3).
  unfold bind at 1. rewrite Hloop.
  assert (Hmass : mass_update (caches s3 t) = mass_update (caches s t) + 1).
  { rewrite Hm3. unfold s1. by rewrite caches_set_cache, decide_True. }
  unfold stop_mass_update. unfold bind at 1, get at 1.
  pose proof (inv_mass _ Hinv t) as Hm0.
  unfold bind at 1. rewrite assert_run by (apply bool_decide_eq_true_2; lia).
  unfold bind at 1. unfold update_cache at 1, modify.
  unfold bind at 1, get at 1.
  set (s4 := set_cache s3 t _).
  assert (Hinv4 : hc_inv s4).
  { apply hc_inv_set_cache; [done| |done]. simpl. lia. }
  assert (Hh4 : ∀ t', hosts_of s4 t' = hosts_of s3 t').
  { intros t'. unfold s4. rewrite caches_set_cache.
    case_decide as Hd; [|done]. by rewrite Hd. }
  assert (Hlist : hosts_of s4 t
                  = take (Z.to_nat (hcache_slots_max env t)) (hosts_of s t)).
  { rewrite Hh4, Hh3, Hh1. f_equal. lia. }
  assert (Hoth : ∀ t', t' ≠ t → hosts_of s4 t' = hosts_of s t').
  { intros t' Ht'. by rewrite Hh4, Ho3, Hh1. }
  case_bool_decide.
  - eexists. split; [done|]. split; [|split; [exact Hlist|exact Hoth]].
    revert Hinv4. apply hc_inv_ext; [done| |done].
    intros c. apply table_set_catcher.
  - exists s4. done.
Qed.

(** A host that was on a list and is on no list any more is not in the
    table of the class either. *)
Lemma dropped_forgotten s s' t h :
  hc_inv s → hc_inv s' →
  (∀ t', t' ≠ t → hosts_of s' t' = hosts_of s t') →
  h ∈ hosts_of s t → h ∉ hosts_of s' t →
  table_of s' (hcache_class t) !! h = None.
Proof.
  intros Hinv Hinv' Hoth Hin Hnin.
  destruct (table_of s' (hcache_class t) !! h) as [e|] eqn:He; [|done].
  destruct (inv_known _ Hinv' _ _ _ He) as [Hc Hl].
  destruct (decide (hce_type e = t)) as [Heq|Hne].
  { rewrite Heq in Hl. done. }
  rewrite Hoth in Hl by done.
  by destruct Hne; apply (hc_inv_one_list s _ _ h).
Qed.

(** X20: pruning a cache of bad hosts (busy, timeout, unstable, alien) or
    the GUESS introduction cache cuts its list down to the limit of the
    cache: the hosts at the head stay, in order, and the hosts beyond the
    limit, the oldest, are evicted and forgotten by the table of the class.
    No other list changes.  A list within the limit stays as it is. *)
Theorem hcache_prune_to_limit (env : henv) (t : hcache_type_t)
    (s : hstate) :
  hc_inv s → is_good_type t = false → t ≠ HCACHE_GUESS →
  ∃ s',
    hcache_prune env t s = Ok (tt, s')
    ∧ hc_inv s'
    ∧ hosts_of s' t
      = take (Z.to_nat (hcache_slots_max env t)) (hosts_of s t)
    ∧ (∀ t', t' ≠ t → hosts_of s' t' = hosts_of s t')
    ∧ (∀ h, h ∈ hosts_of s t → h ∉ hosts_of s' t →
         table_of s' (hcache_class t) !! h = None).
Proof.
  intros Hinv Hg Hng.
  destruct (hcache_prune_tail env t s Hinv Hg Hng)
    as (s' & Hrun & Hinv' & Hl & Hoth).
  exists s'. split_and!; try done.
  intros h. by apply dropped_forgotten.
Qed.

(** Two busy hosts, the newer one at the head. *)
Definition busy_two : hstate :=
  let s0 := one_host HCACHE_BUSY (6, 1234) 50 in
  set_cache
    (set_ht s0 HCACHE_CLASS_HOST
       (<[(5, 1234) := {| hce_type := HCACHE_BUSY; time_added := 100 |}]>
          (table_of s0 HCACHE_CLASS_HOST)))
    HCACHE_BUSY
    (set_hostlist (caches s0 HCACHE_BUSY)
       ((5, 1234) :: hosts_of s0 HCACHE_BUSY)).

Lemma busy_two_inv : hc_inv busy_two.
Proof.
  apply (hc_inv_insert (one_host HCACHE_BUSY (6, 1234) 50)
           HCACHE_BUSY (5, 1234)
           {| hce_type := HCACHE_BUSY; time_added := 100 |}).
  - apply one_host_inv.
  - vm_compute. reflexivity.
  - reflexivity.
Qed.

(** Settings that leave one slot to each cache of bad hosts. *)
Definition env_one_bad : henv :=
  {| stop_host_get := false; node_monitor_unstable_ip := true;
     max_hosts_cached := 100; max_ultra_hosts_cached := 1;
     max_bad_hosts_cached := 1;
     max_guess_hosts_cached := 4; max_guess_intro_hosts_cached := 4;
     use_netmasks := false; number_local_networks := 0;
     is_my_address_and_port := λ _ _, false;
     node_host_is_connected := λ _ _, false;
     host_addr_is_routable := λ _, true;
     port_is_valid := λ p, negb (p =? 0);
     bogons_check := λ _, false; hostiles_check := λ _, false;
     host_is_nearby := λ _, false; ctl_limit := λ _, false;
     random_source := λ _, 0 |}.

Lemma hcache_prune_to_limit_witness :
  ∃ s',
    hcache_prune env_one_bad HCACHE_BUSY busy_two = Ok (tt, s')
    ∧ hosts_of s' HCACHE_BUSY = [(5, 1234)]
    ∧ table_of s' HCACHE_CLASS_HOST !! (6, 1234) = None.
Proof.
  destruct (hcache_prune_to_limit env_one_bad HCACHE_BUSY busy_two
              busy_two_inv)
    as (s' & H1 & _ & H2 & _ & H3).
  - reflexivity.
  - discriminate.
  - exists s'. split; [exact H1|]. split; [exact H2|].
    apply (H3 (6, 1234)).
    + vm_compute. right. left.
    + rewrite H2. apply not_elem_of_cons.
      split; [discriminate|apply not_elem_of_nil].
Defined.

End HCMore.
